(** * Snitch-Audio: peak extraction, WAV encoding and playback synchronisation

    A shallow embedding of the signal-analysis and playback-control code of
    the repository:

    - [extractAudioPeaks] and [audioBufferToWav] of [utils/audioUtils.ts];
    - [syncLoop], [handleGlobalPlayPause], [handleToggle1], [handleToggle2]
      and [handleSeek] of [components/MediaComparator.tsx], with the
      effect that restarts the loop, the animation frames and the
      [onEnded] handlers.

    Numbers.  A JavaScript [number] is modelled by an exact rational [Q]
    (no rounding, no NaN, no infinities); integer-valued numbers that the
    code uses as indices, counters or header fields are [Z].  [Math.floor]
    and [Math.ceil] are [Qfloor] and [Qceiling].  A division by zero gives
    0 in [Q]; the only one the code can make, [duration / samples] for
    [samples = 0], yields a step that is never used.

    The program rounds every sum, product and quotient to binary64.  The
    general statements below are proved over [Q]; where rounding can
    decide an equality or move a value across a floor, they state the
    relation with a margin that rounding errors of the program do not
    use up.  [Binary64] embeds the same functions over the kernel's
    binary64 numbers and evaluates them where the outcome depends on the
    rounding. *)

From Stdlib Require Import ZArith QArith Qround Qabs Qminmax List Lia Lqa Bool.
From Stdlib Require Import Ascii String DecimalString.
From Stdlib Require Import Floats.
From stdpp Require Import base list.
Import ListNotations.

Open Scope Z_scope.
Set Warnings "-inexact-float".

(* ------------------------------------------------------------------------- *)
(** ** Numbers *)

Module JsNumber.

(** [x > y] and [x < y] on numbers, as booleans. *)
Definition gt (x y : Q) : bool := negb (Qle_bool x y).
Definition lt (x y : Q) : bool := negb (Qle_bool y x).

(** [x === 0]. *)
Definition is_zero (x : Q) : bool := Qeq_bool x 0.

(** [x || d] on numbers: [d] when [x] is falsy (zero), [x] otherwise. *)
Definition or_else (x d : Q) : Q := if is_zero x then d else x.

(** [n || d] on an integer-valued number. *)
Definition or_elseZ (n d : Z) : Z := if n =? 0 then d else n.

(** Truncation toward zero, the first step of [ToInt32]. *)
Definition trunc (x : Q) : Z := Z.quot (Qnum x) (Zpos (Qden x)).

(** [x | 0]: truncate, then wrap into the signed 32-bit range. *)
Definition toInt32 (x : Q) : Z :=
  (trunc x + 2 ^ 31) mod 2 ^ 32 - 2 ^ 31.

End JsNumber.

(* ------------------------------------------------------------------------- *)
(** ** Results of code that can throw *)

Inductive error : Type :=
| IndexSizeError   (* [getChannelData] on a channel the buffer does not have *)
| RangeError       (* [DataView] write outside the [ArrayBuffer] *)
| TypeError        (* property access on [null] *)
| Unterminated.    (* a loop of the model used up its iteration budget *)

Inductive result (A : Type) : Type :=
| Ok (a : A)
| Throw (e : error).

Arguments Ok {A} a.
Arguments Throw {A} e.

Definition bind {A B : Type} (c : result A) (k : A -> result B) : result B :=
  match c with
  | Ok a => k a
  | Throw e => Throw e
  end.

Notation "'let*' x ':=' c 'in' k" := (bind c (fun x => k))
  (at level 10, x name, c at level 100, k at level 200).

(* ------------------------------------------------------------------------- *)
(** ** The Web Audio [AudioBuffer]

    Modelled from the spec: the platform type [AudioBuffer] is not part of
    the repository.  Its data model in the specification is a sample rate
    (positive integer, Hz), a channel count, per-channel ordered sequences of
    samples, and a duration derived as sample count / sample rate. *)

Module AudioBuffer.

Record t : Type := make {
  sampleRate : positive;
  length : nat;
  channels : list (list Q)
}.

Definition numberOfChannels (b : t) : Z := Z.of_nat (List.length (channels b)).

Definition duration (b : t) : Q := Z.of_nat (length b) # sampleRate b.

(** [buffer.getChannelData(i)] throws for a channel index out of range. *)
Definition getChannelData (b : t) (i : nat) : result (list Q) :=
  match nth_error (channels b) i with
  | Some c => Ok c
  | None => Throw IndexSizeError
  end.

End AudioBuffer.

(** [a[i]] on a typed array: [None] renders [undefined]. *)
Definition index (a : list Q) (i : Z) : option Q :=
  if i <? 0 then None else nth_error a (Z.to_nat i).

(* ------------------------------------------------------------------------- *)
(** ** [extractAudioPeaks] *)

Record AudioDataPoint : Type := {
  time : Q;
  original : Q;
  isolated : Q
}.

Record PeakRegion : Type := {
  start : Q;
  end_ : Q;
  amplitude : Q
}.

Record Peaks : Type := {
  points : list AudioDataPoint;
  originalPeakRegion : option PeakRegion;
  isolatedPeakRegion : option PeakRegion
}.

(** The empty result. *)
Definition noPeaks : Peaks :=
  {| points := []; originalPeakRegion := None; isolatedPeakRegion := None |}.

Module PeakExtractor.

(** The scan of [getPeak]:
    [for (let i = startSample; i < endSample && i < channelData.length; i += stride)].
    [budget] bounds the number of iterations; [reads] collects, most recent
    first, the indices at which [channelData] was read. *)
Fixpoint scan (budget : nat) (channelData : list Q) (endSample stride : Z)
    (i : Z) (max : Q) (reads : list Z) : result (Q * list Z) :=
  if (i <? endSample) && (i <? Z.of_nat (List.length channelData)) then
    match budget with
    | O => Throw Unterminated
    | S budget' =>
        let max' :=
          match index channelData i with
          | Some x =>
              let val := Qabs x in
              if JsNumber.gt val max then val else max
          | None => max  (* Math.abs(undefined) is NaN, NaN > max is false *)
          end in
        scan budget' channelData endSample stride (i + stride) max' (i :: reads)
    end
  else Ok (max, reads).

Definition startSample (buffer : AudioBuffer.t) (startTime : Q) : Z :=
  Qfloor (startTime * inject_Z (Zpos (AudioBuffer.sampleRate buffer))).

Definition endSample (buffer : AudioBuffer.t) (startTime windowSize : Q) : Z :=
  Qfloor ((startTime + windowSize) * inject_Z (Zpos (AudioBuffer.sampleRate buffer))).

Definition stride (startSample endSample : Z) : Z :=
  JsNumber.or_elseZ (Qceiling (inject_Z (endSample - startSample) / 1000)) 1.

(** [getPeak] together with the indices it read. *)
Definition getPeak_traced (buffer : AudioBuffer.t) (startTime windowSize : Q)
    : result (Q * list Z) :=
  let startSample := startSample buffer startTime in
  let endSample := endSample buffer startTime windowSize in
  let* channelData := AudioBuffer.getChannelData buffer 0 in
  let stride := stride startSample endSample in
  let budget :=
    Z.to_nat (Z.min endSample (Z.of_nat (List.length channelData)) - startSample) in
  scan budget channelData endSample stride startSample 0%Q [].

Definition getPeak (buffer : AudioBuffer.t) (startTime windowSize : Q) : result Q :=
  let* r := getPeak_traced buffer startTime windowSize in Ok (fst r).

(** The variables the main loop of [extractAudioPeaks] updates. *)
Record Vars : Type := {
  data : list AudioDataPoint;
  maxOriginalAmplitude : Q;
  maxOriginalTime : Q;
  maxIsolatedAmplitude : Q;
  maxIsolatedTime : Q
}.

Definition init : Vars :=
  {| data := []; maxOriginalAmplitude := 0; maxOriginalTime := 0;
     maxIsolatedAmplitude := 0; maxIsolatedTime := 0 |}.

Definition peakOf (buffer : option AudioBuffer.t) (time step : Q) : result Q :=
  match buffer with
  | Some b => getPeak b time step
  | None => Ok 0%Q
  end.

(** One iteration of the body of [for (let i = 0; i < samples; i++)]. *)
Definition body (buffer1 buffer2 : option AudioBuffer.t) (step : Q)
    (i : Z) (v : Vars) : result Vars :=
  let time := (inject_Z i * step)%Q in
  let* original := peakOf buffer1 time step in
  let* isolated := peakOf buffer2 time step in
  let '(moa, mot) :=
    if JsNumber.gt original (maxOriginalAmplitude v)
    then (original, time)
    else (maxOriginalAmplitude v, maxOriginalTime v) in
  let '(mia, mit) :=
    if JsNumber.gt isolated (maxIsolatedAmplitude v)
    then (isolated, time)
    else (maxIsolatedAmplitude v, maxIsolatedTime v) in
  Ok {| data := data v ++ [ {| time := time; original := original; isolated := isolated |} ];
        maxOriginalAmplitude := moa; maxOriginalTime := mot;
        maxIsolatedAmplitude := mia; maxIsolatedTime := mit |}.

(** [remaining] iterations of the loop, starting at counter [i]. *)
Fixpoint loop (remaining : nat) (buffer1 buffer2 : option AudioBuffer.t)
    (step : Q) (i : Z) (v : Vars) : result Vars :=
  match remaining with
  | O => Ok v
  | S remaining' =>
      let* v' := body buffer1 buffer2 step i v in
      loop remaining' buffer1 buffer2 step (i + 1) v'
  end.

Definition durationOf (buffer : option AudioBuffer.t) : Q :=
  match buffer with
  | Some b => JsNumber.or_else (AudioBuffer.duration b) 0
  | None => 0%Q
  end.

Definition region (buffer : option AudioBuffer.t) (duration regionWindow : Q)
    (maxTime maxAmplitude : Q) : option PeakRegion :=
  match buffer with
  | Some _ =>
      Some {| start := Qmax 0 (maxTime - regionWindow / 2);
              end_ := Qmin duration (maxTime + regionWindow / 2);
              amplitude := maxAmplitude |}
  | None => None
  end.

(** [samples] is the requested number of points, an integer; for
    [i < samples] starting at [0] the loop body runs [Z.to_nat samples]
    times. *)
Definition extractAudioPeaks (buffer1 buffer2 : option AudioBuffer.t)
    (samples : Z) : result Peaks :=
  let duration := Qmax (durationOf buffer1) (durationOf buffer2) in
  if JsNumber.is_zero duration then
    Ok {| points := []; originalPeakRegion := None; isolatedPeakRegion := None |}
  else
    let step := (duration / inject_Z samples)%Q in
    let* v := loop (Z.to_nat samples) buffer1 buffer2 step 0 init in
    let regionWindow := Qmin (duration * (1 # 10)) 5 in
    Ok {| points := data v;
          originalPeakRegion :=
            region buffer1 duration regionWindow
                   (maxOriginalTime v) (maxOriginalAmplitude v);
          isolatedPeakRegion :=
            region buffer2 duration regionWindow
                   (maxIsolatedTime v) (maxIsolatedAmplitude v) |}.

End PeakExtractor.

(* ------------------------------------------------------------------------- *)
(** ** [audioBufferToWav] *)

(** A [DataView] over an [ArrayBuffer]: the bytes are numbers in [0, 255].
    A write outside the buffer throws. *)
Module DataView.

(** The [n] low-order bytes of [x], least significant first (the
    [littleEndian = true] layout; the value wraps modulo [256 ^ n]). *)
Fixpoint le_bytes (n : nat) (x : Z) : list Z :=
  match n with
  | O => []
  | S n' => x mod 256 :: le_bytes n' (x / 256)
  end.

Definition write (view : list Z) (byteOffset : Z) (bs : list Z) : result (list Z) :=
  if (0 <=? byteOffset)
     && (byteOffset + Z.of_nat (List.length bs) <=? Z.of_nat (List.length view))
  then Ok (list_inserts (Z.to_nat byteOffset) bs view)
  else Throw RangeError.

Definition setUint16 (view : list Z) (byteOffset value : Z) : result (list Z) :=
  write view byteOffset (le_bytes 2 value).

Definition setUint32 (view : list Z) (byteOffset value : Z) : result (list Z) :=
  write view byteOffset (le_bytes 4 value).

(** Two's complement: the same two bytes as the value modulo [2 ^ 16]. *)
Definition setInt16 (view : list Z) (byteOffset value : Z) : result (list Z) :=
  write view byteOffset (le_bytes 2 value).

(** Reading back a signed 16-bit little-endian value. *)
Definition getInt16 (view : list Z) (byteOffset : Z) : option Z :=
  match view !! Z.to_nat byteOffset, view !! Z.to_nat (byteOffset + 1) with
  | Some lo, Some hi =>
      let u := lo + 256 * hi in
      Some (if u <? 32768 then u else u - 65536)
  | _, _ => None
  end.

End DataView.

Module WavEncoder.

(** The mutable locals of [audioBufferToWav]. *)
Record Vars : Type := {
  view : list Z;
  offset : Z;
  pos : Z
}.

(** The inner functions [setUint16] and [setUint32] write at [pos] and
    advance it. *)
Definition setUint16 (data : Z) (v : Vars) : result Vars :=
  let* view' := DataView.setUint16 (view v) (pos v) data in
  Ok {| view := view'; offset := offset v; pos := pos v + 2 |}.

Definition setUint32 (data : Z) (v : Vars) : result Vars :=
  let* view' := DataView.setUint32 (view v) (pos v) data in
  Ok {| view := view'; offset := offset v; pos := pos v + 4 |}.

(** [Math.max(-1, Math.min(1, x))]. *)
Definition clamp (x : Q) : Q := Qmax (-1) (Qmin 1 x).

(** [(0.5 + sample < 0 ? sample * 32768 : sample * 32767) | 0]; the
    comparison binds weaker than the sum. *)
Definition scale (sample : Q) : Z :=
  JsNumber.toInt32
    (if JsNumber.lt ((1 # 2) + sample) 0
     then sample * 32768
     else sample * 32767)%Q.

(** The value stored for [channels[i][pos]]; an [undefined] element turns
    into NaN, which [| 0] maps to [0]. *)
Definition encode (x : option Q) : Z :=
  match x with
  | Some s => scale (clamp s)
  | None => 0
  end.

(** [for (i = 0; i < numOfChan; i++)], over the channels still to visit. *)
Fixpoint interleave (channels : list (list Q)) (v : Vars) : result Vars :=
  match channels with
  | [] => Ok v
  | channel :: rest =>
      let sample := encode (index channel (pos v)) in
      let* view' := DataView.setInt16 (view v) (44 + offset v) sample in
      interleave rest {| view := view'; offset := offset v + 2; pos := pos v |}
  end.

(** [while (pos < buffer.length) { ...; pos++ }]. *)
Fixpoint frames (budget : nat) (channels : list (list Q)) (length : Z)
    (v : Vars) : result Vars :=
  if pos v <? length then
    match budget with
    | O => Throw Unterminated
    | S budget' =>
        let* v' := interleave channels v in
        frames budget' channels length
          {| view := view v'; offset := offset v'; pos := pos v' + 1 |}
    end
  else Ok v.

Definition writeHeader (buffer : AudioBuffer.t) (length : Z) (v : Vars)
    : result Vars :=
  let numOfChan := AudioBuffer.numberOfChannels buffer in
  let sampleRate := Zpos (AudioBuffer.sampleRate buffer) in
  let* v := setUint32 0x46464952 v in
  let* v := setUint32 (length - 8) v in
  let* v := setUint32 0x45564157 v in
  let* v := setUint32 0x20746d66 v in
  let* v := setUint32 16 v in
  let* v := setUint16 1 v in
  let* v := setUint16 numOfChan v in
  let* v := setUint32 sampleRate v in
  let* v := setUint32 (sampleRate * 2 * numOfChan) v in
  let* v := setUint16 (numOfChan * 2) v in
  let* v := setUint16 16 v in
  let* v := setUint32 0x61746164 v in
  setUint32 (length - pos v - 4) v.

(** The bytes of the returned [Blob].  The local array [channels] holds
    [buffer.getChannelData(i)] for every [i < buffer.numberOfChannels],
    that is, the channels of the buffer in order. *)
Definition audioBufferToWav (buffer : AudioBuffer.t) : result (list Z) :=
  let numOfChan := AudioBuffer.numberOfChannels buffer in
  let frameCount := Z.of_nat (AudioBuffer.length buffer) in
  let length := frameCount * numOfChan * 2 + 44 in
  let v := {| view := repeat 0 (Z.to_nat length); offset := 0; pos := 0 |} in
  let* v := writeHeader buffer length v in
  let channels := AudioBuffer.channels buffer in
  let* v := frames (AudioBuffer.length buffer) channels frameCount v in
  Ok (view v).

(** The data chunk: everything after the 44 header bytes. *)
Definition dataChunk (bytes : list Z) : list Z := drop 44 bytes.

End WavEncoder.

(** The WAV layout the specification describes, for comparison with
    [WavEncoder.audioBufferToWav]. *)
Module WavSpec.

Definition ascii_bytes (s : string) : list Z :=
  map (fun c => Z.of_N (Ascii.N_of_ascii c)) (String.list_ascii_of_string s).

(** The canonical 44-byte header. *)
Definition header (buffer : AudioBuffer.t) : list Z :=
  let numChannels := AudioBuffer.numberOfChannels buffer in
  let sampleRate := Zpos (AudioBuffer.sampleRate buffer) in
  let dataLength := Z.of_nat (AudioBuffer.length buffer) * numChannels * 2 in
  ascii_bytes "RIFF" ++ DataView.le_bytes 4 (dataLength + 44 - 8)
  ++ ascii_bytes "WAVE"
  ++ ascii_bytes "fmt " ++ DataView.le_bytes 4 16
  ++ DataView.le_bytes 2 1
  ++ DataView.le_bytes 2 numChannels
  ++ DataView.le_bytes 4 sampleRate
  ++ DataView.le_bytes 4 (sampleRate * 2 * numChannels)
  ++ DataView.le_bytes 2 (numChannels * 2)
  ++ DataView.le_bytes 2 16
  ++ ascii_bytes "data" ++ DataView.le_bytes 4 dataLength.

(** Clamp to [-1, 1], scale a negative sample by 32768 and any other by
    32767, truncate toward zero. *)
Definition encodeSample (x : Q) : Z :=
  let clamped := Qmax (-1) (Qmin 1 x) in
  JsNumber.trunc
    (if JsNumber.lt clamped 0 then clamped * 32768 else clamped * 32767)%Q.

(** The samples of frame [i], in channel-index order. *)
Definition frame (buffer : AudioBuffer.t) (i : nat) : list Z :=
  flat_map
    (fun channel =>
       match nth_error channel i with
       | Some x => DataView.le_bytes 2 (encodeSample x)
       | None => []
       end)
    (AudioBuffer.channels buffer).

(** The data chunk: all frames, interleaved. *)
Definition dataChunk (buffer : AudioBuffer.t) : list Z :=
  flat_map (frame buffer) (seq 0 (AudioBuffer.length buffer)).

End WavSpec.

(** Does a supplied buffer have a first channel?  (An [AudioBuffer] of the
    platform always has.) *)
Definition hasFirstChannel (buffer : option AudioBuffer.t) : Prop :=
  match buffer with
  | Some b => AudioBuffer.channels b <> []
  | None => True
  end.

(** The duration a buffer contributes: 0 when it is absent. *)
Definition suppliedDuration (buffer : option AudioBuffer.t) : Q :=
  match buffer with
  | Some b => AudioBuffer.duration b
  | None => 0%Q
  end.

(** Sample buffers. *)
Module Samples.

(** One channel holding the single sample 1.0. *)
Definition oneSample : AudioBuffer.t := AudioBuffer.make 44100 1 [[1%Q]].

(** One channel of 45 frames whose last sample is -0.25. *)
Definition quiet45 : AudioBuffer.t :=
  AudioBuffer.make 8000 45 [repeat 0%Q 44 ++ [-(1 # 4)]%Q].

(** Two channels of 46 frames; frames 44 and 45 are (-0.25, 1) and
    (0.5, -1), the first 44 frames are (1, 0). *)
Definition stereo46 : AudioBuffer.t :=
  AudioBuffer.make 8000 46
    [repeat 1%Q 44 ++ [-(1 # 4); 1 # 2]%Q; repeat 0%Q 44 ++ [1; -1]%Q].

(** A buffer without channels. *)
Definition noChannels : AudioBuffer.t := AudioBuffer.make 8000 100 [].

(** Ten and eight samples at 1 Hz: durations 10 s and 8 s. *)
Definition tenSeconds : AudioBuffer.t :=
  AudioBuffer.make 1 10 [[0; 1 # 2; -(3 # 4); 0; 0; 1 # 4; 0; 0; 0; 1 # 8]%Q].
Definition eightSeconds : AudioBuffer.t :=
  AudioBuffer.make 1 8 [[0; 0; 0; 1; 0; 0; 0; 0]%Q].

(** The peaks of these two buffers at 5 points. *)
Definition tenEightPeaks : Peaks :=
  Eval vm_compute in
    match PeakExtractor.extractAudioPeaks (Some tenSeconds) (Some eightSeconds) 5 with
    | Ok out => out
    | Throw _ => noPeaks
    end.

(** 64 silent samples at 1 Hz. *)
Definition silence64 : AudioBuffer.t := AudioBuffer.make 1 64 [repeat 0%Q 64].

End Samples.

(* ------------------------------------------------------------------------- *)
(** ** The playback controller of [MediaComparator] *)

(** Modelled from the spec: the platform media elements are not part of the
    repository.  A transport has a position and a play state; [play()] and
    [pause()] set the play state, assigning [currentTime] seeks. *)
Record MediaElement : Type := {
  currentTime : Q;
  paused : bool
}.

(** The three [useRef] cells for the media elements. *)
Inductive Ref : Type :=
| videoOriginalRef
| videoMutedRef
| audioIsolatedRef.

(** The refs and the React state of the component.  A ref holds [None]
    ([null]) until its element is attached.

    [frameRequested] lists the callbacks that were passed to
    [requestAnimationFrame] and have not run yet, oldest first.  Every one
    of them is a [syncLoop] function.  [useCallback(..., [isSynced])] makes
    a new [syncLoop] whenever [isSynced] changes, and two of them differ
    only in the [isSynced] they closed over: a callback is given by that
    value. *)
Record Component : Type := {
  videoOriginal : option MediaElement;
  videoMuted : option MediaElement;
  audioIsolated : option MediaElement;
  isSynced : bool;
  isPlaying1 : bool;
  isPlaying2 : bool;
  currentTime1 : Q;
  currentTime2 : Q;
  frameRequested : list bool
}.

Module Playback.

(** Commands over the component; a property access on [null] throws. *)
Definition M (A : Type) : Type := Component -> result (A * Component).

Definition ret {A : Type} (a : A) : M A := fun s => Ok (a, s).

Definition bindM {A B : Type} (c : M A) (k : A -> M B) : M B :=
  fun s => match c s with
           | Ok (a, s') => k a s'
           | Throw e => Throw e
           end.

Notation "'let!' x ':=' c 'in' k" := (bindM c (fun x => k))
  (at level 10, x name, c at level 100, k at level 200).

Notation "c1 ';;' c2" := (bindM c1 (fun _ => c2))
  (at level 100, c2 at level 200, right associativity).

Definition when (b : bool) (c : M unit) : M unit := if b then c else ret tt.

Definition element (r : Ref) (s : Component) : option MediaElement :=
  match r with
  | videoOriginalRef => videoOriginal s
  | videoMutedRef => videoMuted s
  | audioIsolatedRef => audioIsolated s
  end.

Definition store (r : Ref) (m : MediaElement) (s : Component) : Component :=
  match r with
  | videoOriginalRef =>
      {| videoOriginal := Some m; videoMuted := videoMuted s;
         audioIsolated := audioIsolated s; isSynced := isSynced s;
         isPlaying1 := isPlaying1 s; isPlaying2 := isPlaying2 s;
         currentTime1 := currentTime1 s; currentTime2 := currentTime2 s;
         frameRequested := frameRequested s |}
  | videoMutedRef =>
      {| videoOriginal := videoOriginal s; videoMuted := Some m;
         audioIsolated := audioIsolated s; isSynced := isSynced s;
         isPlaying1 := isPlaying1 s; isPlaying2 := isPlaying2 s;
         currentTime1 := currentTime1 s; currentTime2 := currentTime2 s;
         frameRequested := frameRequested s |}
  | audioIsolatedRef =>
      {| videoOriginal := videoOriginal s; videoMuted := videoMuted s;
         audioIsolated := Some m; isSynced := isSynced s;
         isPlaying1 := isPlaying1 s; isPlaying2 := isPlaying2 s;
         currentTime1 := currentTime1 s; currentTime2 := currentTime2 s;
         frameRequested := frameRequested s |}
  end.

(** [ref.current] as a truth value: is an element attached? *)
Definition current (r : Ref) : M bool :=
  fun s => Ok (match element r s with Some _ => true | None => false end, s).

(** Reading a property of the element behind [r]. *)
Definition read {A : Type} (f : MediaElement -> A) (r : Ref) : M A :=
  fun s => match element r s with
           | Some m => Ok (f m, s)
           | None => Throw TypeError
           end.

(** Updating the element behind [r]. *)
Definition update (f : MediaElement -> MediaElement) (r : Ref) : M unit :=
  fun s => match element r s with
           | Some m => Ok (tt, store r (f m) s)
           | None => Throw TypeError
           end.

Definition getCurrentTime : Ref -> M Q := read currentTime.
Definition getPaused : Ref -> M bool := read paused.

Definition setCurrentTime (r : Ref) (t : Q) : M unit :=
  update (fun m => {| currentTime := t; paused := paused m |}) r.

Definition play : Ref -> M unit :=
  update (fun m => {| currentTime := currentTime m; paused := false |}).

Definition pause : Ref -> M unit :=
  update (fun m => {| currentTime := currentTime m; paused := true |}).

(** [ref.current?.f()]. *)
Definition optional (c : Ref -> M unit) (r : Ref) : M unit :=
  let! attached := current r in when attached (c r).

Definition state {A : Type} (f : Component -> A) : M A := fun s => Ok (f s, s).

Definition setIsPlaying1 (b : bool) : M unit :=
  fun s => Ok (tt,
    {| videoOriginal := videoOriginal s; videoMuted := videoMuted s;
       audioIsolated := audioIsolated s; isSynced := isSynced s;
       isPlaying1 := b; isPlaying2 := isPlaying2 s;
       currentTime1 := currentTime1 s; currentTime2 := currentTime2 s;
       frameRequested := frameRequested s |}).

Definition setIsPlaying2 (b : bool) : M unit :=
  fun s => Ok (tt,
    {| videoOriginal := videoOriginal s; videoMuted := videoMuted s;
       audioIsolated := audioIsolated s; isSynced := isSynced s;
       isPlaying1 := isPlaying1 s; isPlaying2 := b;
       currentTime1 := currentTime1 s; currentTime2 := currentTime2 s;
       frameRequested := frameRequested s |}).

Definition setCurrentTime1 (t : Q) : M unit :=
  fun s => Ok (tt,
    {| videoOriginal := videoOriginal s; videoMuted := videoMuted s;
       audioIsolated := audioIsolated s; isSynced := isSynced s;
       isPlaying1 := isPlaying1 s; isPlaying2 := isPlaying2 s;
       currentTime1 := t; currentTime2 := currentTime2 s;
       frameRequested := frameRequested s |}).

Definition setCurrentTime2 (t : Q) : M unit :=
  fun s => Ok (tt,
    {| videoOriginal := videoOriginal s; videoMuted := videoMuted s;
       audioIsolated := audioIsolated s; isSynced := isSynced s;
       isPlaying1 := isPlaying1 s; isPlaying2 := isPlaying2 s;
       currentTime1 := currentTime1 s; currentTime2 := t;
       frameRequested := frameRequested s |}).

Definition setIsSynced (b : bool) : M unit :=
  fun s => Ok (tt,
    {| videoOriginal := videoOriginal s; videoMuted := videoMuted s;
       audioIsolated := audioIsolated s; isSynced := b;
       isPlaying1 := isPlaying1 s; isPlaying2 := isPlaying2 s;
       currentTime1 := currentTime1 s; currentTime2 := currentTime2 s;
       frameRequested := frameRequested s |}).

(** [animationFrameRef.current = requestAnimationFrame(syncLoop)], for the
    [syncLoop] that closed over [synced]. *)
Definition requestAnimationFrame (synced : bool) : M unit :=
  fun s => Ok (tt,
    {| videoOriginal := videoOriginal s; videoMuted := videoMuted s;
       audioIsolated := audioIsolated s; isSynced := isSynced s;
       isPlaying1 := isPlaying1 s; isPlaying2 := isPlaying2 s;
       currentTime1 := currentTime1 s; currentTime2 := currentTime2 s;
       frameRequested := frameRequested s ++ [synced] |}).

(** The platform takes the requested callbacks to run them. *)
Definition takeFrames : M (list bool) :=
  fun s => Ok (frameRequested s,
    {| videoOriginal := videoOriginal s; videoMuted := videoMuted s;
       audioIsolated := audioIsolated s; isSynced := isSynced s;
       isPlaying1 := isPlaying1 s; isPlaying2 := isPlaying2 s;
       currentTime1 := currentTime1 s; currentTime2 := currentTime2 s;
       frameRequested := [] |}).

Definition tolerance : Q := 15 # 100.

(** Seek [follower] to the position of [leader] when they are more than
    [tolerance] apart:
    [if (Math.abs(f.currentTime - l.currentTime) > tolerance) f.currentTime = l.currentTime]. *)
Definition correct (leader follower : Ref) : M unit :=
  let! f := getCurrentTime follower in
  let! l := getCurrentTime leader in
  when (JsNumber.gt (Qabs (f - l)) tolerance)
    (let! l' := getCurrentTime leader in setCurrentTime follower l').

(** One call of [syncLoop].  The function is made by
    [useCallback(..., [isSynced])]: the [isSynced] it tests is the one of
    the render that made it, [synced], not the current state, and the
    callback it passes to [requestAnimationFrame] is itself. *)
Definition syncLoop (synced : bool) : M unit :=
  let! v1 := current videoOriginalRef in
  let! v2 := current videoMutedRef in
  let! a1 := current audioIsolatedRef in
  if negb v1 || negb v2 || negb a1 then ret tt else
  let! t1 := getCurrentTime videoOriginalRef in
  setCurrentTime1 t1 ;;
  let! t2 := getCurrentTime videoMutedRef in
  setCurrentTime2 t2 ;;
  let! p1 := getPaused videoOriginalRef in
  when (synced && negb p1)
    (correct videoOriginalRef videoMutedRef ;;
     correct videoOriginalRef audioIsolatedRef) ;;
  let! p1 := getPaused videoOriginalRef in
  let! p2 := getPaused videoMutedRef in
  let! p3 := getPaused audioIsolatedRef in
  when (negb p1 || negb p2 || negb p3) (requestAnimationFrame synced).

(** The effect of lines 275-279.  React runs it after a render in which
    [isPlaying1], [isPlaying2] or [syncLoop] differ from the render before,
    [before]; [syncLoop] differs exactly when [isSynced] does.  It requests
    a frame for the [syncLoop] of the new render and cancels nothing. *)
Definition restartEffect (before : Component) : M unit :=
  fun s =>
    if Bool.eqb (isPlaying1 before) (isPlaying1 s)
       && Bool.eqb (isPlaying2 before) (isPlaying2 s)
       && Bool.eqb (isSynced before) (isSynced s)
    then Ok (tt, s)
    else when (isPlaying1 s || isPlaying2 s)
           (requestAnimationFrame (isSynced s)) s.

(** An event handler, then the render it causes with the effect of that
    render. *)
Definition rendered (handler : M unit) : M unit :=
  fun s => (handler ;; restartEffect s) s.

(** The callbacks of one animation frame, called in the order in which
    they were requested. *)
Fixpoint callAll (callbacks : list bool) : M unit :=
  match callbacks with
  | [] => ret tt
  | synced :: rest => syncLoop synced ;; callAll rest
  end.

(** Modelled from the platform: at an animation frame the requested
    callbacks are taken and called; what they request is for the next
    frame.  The [setCurrentTime1] and [setCurrentTime2] of a call cause a
    render that leaves [isPlaying1], [isPlaying2] and [syncLoop] as they
    are, so the effect does not run. *)
Definition animationFrame : M unit :=
  let! callbacks := takeFrames in callAll callbacks.

(** Modelled from the platform: when a transport reaches the end of its
    media the platform sets [paused] and fires [ended].  The original video
    and the isolated audio have an [onEnded] handler (lines 426 and 442),
    the muted video has none. *)
Definition onEnded (r : Ref) : M unit :=
  match r with
  | videoOriginalRef => setIsPlaying1 false
  | videoMutedRef => ret tt
  | audioIsolatedRef => setIsPlaying2 false
  end.

Definition endOfStream (r : Ref) : M unit :=
  let! attached := current r in
  when attached (pause r ;; onEnded r).

Definition handleGlobalPlayPause : M unit :=
  let! v1 := current videoOriginalRef in
  let! v2 := current videoMutedRef in
  let! a1 := current audioIsolatedRef in
  if negb v1 || negb v2 || negb a1 then ret tt else
  let! playing1 := state isPlaying1 in
  if playing1 then
    pause videoOriginalRef ;;
    pause videoMutedRef ;;
    pause audioIsolatedRef ;;
    setIsPlaying1 false ;;
    setIsPlaying2 false
  else
    let! synced := state isSynced in
    when synced
      (let! t := getCurrentTime videoOriginalRef in
       setCurrentTime videoMutedRef t ;;
       let! t := getCurrentTime videoOriginalRef in
       setCurrentTime audioIsolatedRef t) ;;
    play videoOriginalRef ;;
    play videoMutedRef ;;
    play audioIsolatedRef ;;
    setIsPlaying1 true ;;
    setIsPlaying2 true.

Definition handleToggle1 : M unit :=
  let! v1 := current videoOriginalRef in
  if negb v1 then ret tt else
  let! p1 := getPaused videoOriginalRef in
  if p1 then
    play videoOriginalRef ;;
    setIsPlaying1 true ;;
    let! synced := state isSynced in
    when synced
      (optional play videoMutedRef ;;
       optional play audioIsolatedRef ;;
       setIsPlaying2 true)
  else
    pause videoOriginalRef ;;
    setIsPlaying1 false ;;
    let! synced := state isSynced in
    when synced
      (optional pause videoMutedRef ;;
       optional pause audioIsolatedRef ;;
       setIsPlaying2 false).

Definition handleToggle2 : M unit :=
  let! v2 := current videoMutedRef in
  let! a1 := current audioIsolatedRef in
  if negb v2 || negb a1 then ret tt else
  let! p2 := getPaused videoMutedRef in
  if p2 then
    play videoMutedRef ;;
    play audioIsolatedRef ;;
    setIsPlaying2 true ;;
    let! synced := state isSynced in
    when synced
      (optional play videoOriginalRef ;;
       setIsPlaying1 true)
  else
    pause videoMutedRef ;;
    pause audioIsolatedRef ;;
    setIsPlaying2 false ;;
    let! synced := state isSynced in
    when synced
      (optional pause videoOriginalRef ;;
       setIsPlaying1 false).

Definition handleSeek (time : Q) : M unit :=
  let! v1 := current videoOriginalRef in
  let! v2 := current videoMutedRef in
  let! a1 := current audioIsolatedRef in
  let! synced := state isSynced in
  when v1
    (setCurrentTime videoOriginalRef time ;;
     setCurrentTime1 time) ;;
  if synced && v2 && a1 then
    setCurrentTime videoMutedRef time ;;
    setCurrentTime audioIsolatedRef time ;;
    setCurrentTime2 time
  else if negb synced && v2 && a1 then
    setCurrentTime videoMutedRef time ;;
    setCurrentTime audioIsolatedRef time ;;
    setCurrentTime2 time
  else ret tt.

(** The commands of the controller; [toggleTransport] of the original
    video is [handleToggle1], of the muted video [handleToggle2]. *)
Inductive Command : Type :=
| GlobalPlayPause
| Toggle1
| Toggle2
| Seek (time : Q).

Definition run (c : Command) : M unit :=
  match c with
  | GlobalPlayPause => handleGlobalPlayPause
  | Toggle1 => handleToggle1
  | Toggle2 => handleToggle2
  | Seek time => handleSeek time
  end.

(** The component right after mounting with attached, paused elements at
    position 0. *)
Definition mounted : Component :=
  {| videoOriginal := Some {| currentTime := 0; paused := true |};
     videoMuted := Some {| currentTime := 0; paused := true |};
     audioIsolated := Some {| currentTime := 0; paused := true |};
     isSynced := true; isPlaying1 := false; isPlaying2 := false;
     currentTime1 := 0; currentTime2 := 0; frameRequested := [] |}.

(** Is the transport behind [r] attached and playing? *)
Definition playing (r : Ref) (s : Component) : bool :=
  match element r s with
  | Some m => negb (paused m)
  | None => false
  end.

Definition anyPlaying (s : Component) : bool :=
  playing videoOriginalRef s || playing videoMutedRef s
  || playing audioIsolatedRef s.

Definition nonePlaying (s : Component) : bool := negb (anyPlaying s).

(** Position of the transport behind [r]. *)
Definition position (r : Ref) (s : Component) : option Q :=
  option_map currentTime (element r s).

(** A transport at position [t], playing or paused. *)
Definition playingAt (t : Q) : MediaElement := {| currentTime := t; paused := false |}.
Definition pausedAt (t : Q) : MediaElement := {| currentTime := t; paused := true |}.

(** The same transport with another play state. *)
Definition withPaused (b : bool) (m : MediaElement) : MediaElement :=
  {| currentTime := currentTime m; paused := b |}.

(** Unlinked, followers started by a click on the muted video. *)
Definition followersPlaying : Component :=
  {| videoOriginal := Some (pausedAt 0);
     videoMuted := Some (playingAt 0);
     audioIsolated := Some (playingAt 0);
     isSynced := false; isPlaying1 := false; isPlaying2 := true;
     currentTime1 := 0; currentTime2 := 0; frameRequested := [] |}.

(** Modelled from the spec: the platform advances the position of every
    transport that is playing; [elapse dt] lets [dt] seconds pass in which
    no transport reaches the end of its media.  Reaching the end is
    [endOfStream]. *)
Definition elapse (dt : Q) : M unit :=
  fun s =>
    let advance (m : MediaElement) :=
      if paused m then m
      else {| currentTime := (currentTime m + dt)%Q; paused := false |} in
    Ok (tt,
      {| videoOriginal := option_map advance (videoOriginal s);
         videoMuted := option_map advance (videoMuted s);
         audioIsolated := option_map advance (audioIsolated s);
         isSynced := isSynced s;
         isPlaying1 := isPlaying1 s; isPlaying2 := isPlaying2 s;
         currentTime1 := currentTime1 s; currentTime2 := currentTime2 s;
         frameRequested := frameRequested s |}).

(** Linked and paused, the leader 5 s ahead of the followers: the state
    after the original video alone was played for 5 s while unlinked, with
    one call of the [syncLoop] made while unlinked. *)
Definition leaderAhead : Component :=
  {| videoOriginal := Some (pausedAt 5);
     videoMuted := Some (pausedAt 0);
     audioIsolated := Some (pausedAt 0);
     isSynced := true; isPlaying1 := false; isPlaying2 := false;
     currentTime1 := 5; currentTime2 := 0; frameRequested := [false] |}.

(** Unlinked and paused, all transports at 0. *)
Definition unlinked : Component :=
  {| videoOriginal := Some (pausedAt 0);
     videoMuted := Some (pausedAt 0);
     audioIsolated := Some (pausedAt 0);
     isSynced := false; isPlaying1 := false; isPlaying2 := false;
     currentTime1 := 0; currentTime2 := 0; frameRequested := [] |}.

(** The followers are attached, the leader is not. *)
Definition leaderDetached : Component :=
  {| videoOriginal := None;
     videoMuted := Some (pausedAt 0);
     audioIsolated := Some (pausedAt 0);
     isSynced := true; isPlaying1 := false; isPlaying2 := false;
     currentTime1 := 0; currentTime2 := 0; frameRequested := [] |}.

(** Linked, leader playing at 10, one follower 1 s behind, the other
    0.125 s ahead; the [syncLoop] made while linked is requested. *)
Definition drifting : Component :=
  {| videoOriginal := Some (playingAt 10);
     videoMuted := Some (playingAt 9);
     audioIsolated := Some (playingAt (81 # 8));
     isSynced := true; isPlaying1 := true; isPlaying2 := true;
     currentTime1 := 10; currentTime2 := 9; frameRequested := [true] |}.

End Playback.

(* ------------------------------------------------------------------------- *)
(** ** The zoom and pan controls of [WaveformGraph] *)

Module WaveformGraph.

(** The visible time range [[start, end]] of the chart. *)
Definition Domain : Type := (Q * Q)%type.

Definition handleZoomIn (duration : Q) (domain : Domain) : Domain :=
  let '(start, end_) := domain in
  let span := (end_ - start)%Q in
  let newSpan := (span * (3 # 4))%Q in
  let mid := ((start + end_) / 2)%Q in
  (Qmax 0 (mid - newSpan / 2), Qmin duration (mid + newSpan / 2)).

Definition handleZoomOut (duration : Q) (domain : Domain) : Domain :=
  let '(start, end_) := domain in
  let span := (end_ - start)%Q in
  let newSpan := Qmin duration (span * (5 # 4)) in
  let mid := ((start + end_) / 2)%Q in
  let newStart := (mid - newSpan / 2)%Q in
  let newEnd := (mid + newSpan / 2)%Q in
  let '(newStart, newEnd) :=
    if JsNumber.lt newStart 0
    then (0%Q, Qmin duration newSpan)
    else (newStart, newEnd) in
  let '(newStart, newEnd) :=
    if JsNumber.gt newEnd duration
    then (Qmax 0 (duration - newSpan), duration)
    else (newStart, newEnd) in
  (newStart, newEnd).

Definition handlePanLeft (duration : Q) (domain : Domain) : Domain :=
  let '(start, end_) := domain in
  let span := (end_ - start)%Q in
  let shift := (span * (1 # 10))%Q in
  let newStart := Qmax 0 (start - shift) in
  let newEnd := (newStart + span)%Q in
  (newStart, newEnd).

Definition handlePanRight (duration : Q) (domain : Domain) : Domain :=
  let '(start, end_) := domain in
  let span := (end_ - start)%Q in
  let shift := (span * (1 # 10))%Q in
  let newEnd := Qmin duration (end_ + shift) in
  let newStart := (newEnd - span)%Q in
  (newStart, newEnd).

Definition handleReset (duration : Q) (domain : Domain) : Domain :=
  (0%Q, duration).

(** The five buttons of the chart header. *)
Inductive Button : Type :=
| PanLeft
| ZoomOut
| Reset
| ZoomIn
| PanRight.

Definition click (duration : Q) (b : Button) (domain : Domain) : Domain :=
  match b with
  | PanLeft => handlePanLeft duration domain
  | ZoomOut => handleZoomOut duration domain
  | Reset => handleReset duration domain
  | ZoomIn => handleZoomIn duration domain
  | PanRight => handlePanRight duration domain
  end.

(** The domain after a sequence of clicks, starting from the initial
    [useState([0, duration])]. *)
Definition clicks (duration : Q) (bs : list Button) : Domain :=
  fold_left (fun domain b => click duration b domain) bs (0%Q, duration).

(** The visible range lies inside the track. *)
Definition inside (duration : Q) (domain : Domain) : Prop :=
  (0 <= fst domain)%Q /\ (fst domain <= snd domain)%Q /\ (snd domain <= duration)%Q.

Definition span (domain : Domain) : Q := (snd domain - fst domain)%Q.


(** Two ranges with equal bounds. *)
Definition same (d1 d2 : Domain) : Prop :=
  (fst d1 == fst d2)%Q /\ (snd d1 == snd d2)%Q.

End WaveformGraph.

(* ------------------------------------------------------------------------- *)
(** ** Sessions of the playback controller *)

Module Session.

Import Playback.

(** What can happen to the mounted component: a command of the controller,
    a click on the link button ([setIsSynced(!isSynced)]), an animation
    frame, time passing on the playing transports, and a transport
    reaching the end of its media.  Commands, link clicks and [ended]
    events run a handler and are followed by a render. *)
Inductive Event : Type :=
| Do (c : Command)
| LinkToggle
| Frame
| Elapse (dt : Q)
| Ended (r : Ref).

Definition handle (e : Event) : M unit :=
  match e with
  | Do c => rendered (run c)
  | LinkToggle =>
      rendered (let! synced := state isSynced in setIsSynced (negb synced))
  | Frame => animationFrame
  | Elapse dt => elapse dt
  | Ended r => rendered (endOfStream r)
  end.

Fixpoint handleAll (es : list Event) : M unit :=
  match es with
  | [] => ret tt
  | e :: rest => handle e ;; handleAll rest
  end.

(** All three transports are attached, the flag [isPlaying1] tells the
    play state of the original video and the flag [isPlaying2] the play
    state of the isolated audio. *)
Definition mirrored (s : Component) : Prop :=
  exists v1 v2 a1,
    videoOriginal s = Some v1 /\ videoMuted s = Some v2 /\
    audioIsolated s = Some a1 /\
    isPlaying1 s = negb (paused v1) /\
    isPlaying2 s = negb (paused a1).

(** The muted video and the isolated audio are attached and in the same
    play state. *)
Definition paired (s : Component) : Prop :=
  exists v2 a1,
    videoMuted s = Some v2 /\ audioIsolated s = Some a1 /\
    paused a1 = paused v2.

(** All three transports are attached and in the same play state. *)
Definition inStep (s : Component) : Prop :=
  exists v1 v2 a1,
    videoOriginal s = Some v1 /\ videoMuted s = Some v2 /\
    audioIsolated s = Some a1 /\
    paused v2 = paused v1 /\ paused a1 = paused v1.

(** What a call of [syncLoop] leaves alone: which transports are
    attached, their play states, the sync mode and the two flags. *)
Definition controls (s : Component)
    : option bool * option bool * option bool * bool * bool * bool :=
  (option_map paused (videoOriginal s), option_map paused (videoMuted s),
   option_map paused (audioIsolated s), isSynced s, isPlaying1 s, isPlaying2 s).

(** Is the transport behind [r] attached and at position [t]? *)
Definition isAt (r : Ref) (t : Q) (s : Component) : bool :=
  match position r s with
  | Some x => Qeq_bool x t
  | None => false
  end.

(** A follower after a call of [syncLoop]: at the leader's position when
    the correction is [active] (the call closed over [isSynced = true] and
    the leader is playing) and the follower is more than the tolerance
    away, else as it was. *)
Definition follow (active : bool) (l f : MediaElement) : MediaElement :=
  if active && JsNumber.gt (Qabs (currentTime f - currentTime l)) tolerance
  then {| currentTime := currentTime l; paused := paused f |}
  else f.

Definition isLinkToggle (e : Event) : bool :=
  match e with
  | LinkToggle => true
  | _ => false
  end.

Definition isEnded (e : Event) : bool :=
  match e with
  | Ended _ => true
  | _ => false
  end.

(** The end of the muted video or of the isolated audio. *)
Definition isFollowerEnded (e : Event) : bool :=
  match e with
  | Ended videoMutedRef | Ended audioIsolatedRef => true
  | _ => false
  end.

(** Linked playback is started, a frame passes, the link button is
    clicked, the muted video is clicked (which pauses the two followers),
    and a quarter of a second passes with a frame in the middle. *)
Definition unlinkedWhilePlaying : list Event :=
  [Do GlobalPlayPause; Frame; LinkToggle; Do Toggle2;
   Elapse (1 # 8); Frame; Elapse (1 # 8)].

End Session.

(* ------------------------------------------------------------------------- *)
(** ** [formatTime] and the data URL prefix of [blobToBase64] *)

Module Format.

(** [x % y] on numbers: the remainder has the sign of the dividend. *)
Definition rem (x y : Q) : Q :=
  (x - y * inject_Z (JsNumber.trunc (x / y)))%Q.

(** [n.toString()] of an integer-valued number. *)
Definition toString (n : Z) : string := NilZero.string_of_int (Z.to_int n).

Fixpoint fill (n : nat) (c : ascii) : string :=
  match n with
  | O => EmptyString
  | S n' => String c (fill n' c)
  end.

(** [s.padStart(n, c)] for a one-character filler. *)
Definition padStart (n : nat) (c : ascii) (s : string) : string :=
  (fill (n - String.length s) c ++ s)%string.

(** The three numbers [formatTime] prints. *)
Definition minutes (seconds : Q) : Z := Qfloor (seconds / 60).
Definition wholeSeconds (seconds : Q) : Z := Qfloor (rem seconds 60).
Definition hundredths (seconds : Q) : Z := Qfloor (rem seconds 1 * 100).

Definition formatTime (seconds : Q) : string :=
  let m := minutes seconds in
  let s := wholeSeconds seconds in
  let ms := hundredths seconds in
  (padStart 2 "0" (toString m) ++ ":" ++ padStart 2 "0" (toString s)
   ++ "." ++ padStart 2 "0" (toString ms))%string.

(** The decimal digit [d]. *)
Definition digit (d : Z) : ascii := ascii_of_nat (48 + Z.to_nat d).

(** A number below 100 written with exactly two digits. *)
Definition twoDigits (n : Z) : string :=
  String (digit (n / 10)) (String (digit (n mod 10)) EmptyString).

(** [s.split(',')]: the pieces between the commas. *)
Fixpoint split (s : string) : list string :=
  match s with
  | EmptyString => [EmptyString]
  | String c rest =>
      if Ascii.eqb c ","
      then EmptyString :: split rest
      else match split rest with
           | piece :: pieces => String c piece :: pieces
           | [] => [String c EmptyString]
           end
  end.

(** [base64String.split(',')[1]]; [None] renders [undefined]. *)
Definition base64Data (base64String : string) : option string :=
  nth_error (split base64String) 1.

Fixpoint hasComma (s : string) : bool :=
  match s with
  | EmptyString => false
  | String c rest => Ascii.eqb c "," || hasComma rest
  end.

End Format.

(* ------------------------------------------------------------------------- *)
(** ** The analysis pipeline of [MediaComparator] *)

(** Every channel of a buffer holds as many samples as the buffer has
    frames, as in every [AudioBuffer] of the platform. *)
Definition wellFormed (buffer : AudioBuffer.t) : Prop :=
  Forall (fun channel => List.length channel = AudioBuffer.length buffer)
         (AudioBuffer.channels buffer).

Module Analysis.

(** The snippet of [generateAiReport]: at most the first 30 seconds. *)
Definition copyDuration (buffer : AudioBuffer.t) : Q :=
  Qmin 30 (AudioBuffer.duration buffer).

Definition copyLength (buffer : AudioBuffer.t) : Z :=
  Qfloor (copyDuration buffer * inject_Z (Zpos (AudioBuffer.sampleRate buffer))).

(** [for (let i = 0; i < copyLength; i++) nowBuffering[i] = sourceData[i]],
    with [remaining] iterations to go.  Storing an [undefined] element
    would store NaN, which the numbers of the model do not have: [None]. *)
Fixpoint copy (remaining : nat) (i : Z) (sourceData nowBuffering : list Q)
    : option (list Q) :=
  match remaining with
  | O => Some nowBuffering
  | S remaining' =>
      match index sourceData i with
      | Some x => copy remaining' (i + 1) sourceData (<[Z.to_nat i := x]> nowBuffering)
      | None => None
      end
  end.

(** The loop over the channels; every channel of the snippet created by
    [createBuffer] starts as [copyLength] zeros. *)
Fixpoint copyChannels (copyLength : nat) (channels : list (list Q))
    : option (list (list Q)) :=
  match channels with
  | [] => Some []
  | sourceData :: rest =>
      match copy copyLength 0 sourceData (repeat 0%Q copyLength) with
      | Some nowBuffering =>
          match copyChannels copyLength rest with
          | Some copied => Some (nowBuffering :: copied)
          | None => None
          end
      | None => None
      end
  end.

(** The buffer handed to [audioBufferToWav].  The platform's checks of
    the arguments of [createBuffer] are not modelled. *)
Definition snippetBuffer (buffer : AudioBuffer.t) : option AudioBuffer.t :=
  let copyLength := Z.to_nat (copyLength buffer) in
  match copyChannels copyLength (AudioBuffer.channels buffer) with
  | Some channels =>
      Some (AudioBuffer.make (AudioBuffer.sampleRate buffer) copyLength channels)
  | None => None
  end.

(** The bytes sent for analysis: the WAV encoding of the snippet. *)
Definition snippetWav (buffer : AudioBuffer.t) : option (result (list Z)) :=
  option_map WavEncoder.audioBufferToWav (snippetBuffer buffer).

(** The component state [analysis]. *)
Record AnalysisState : Type := {
  isProcessing : bool;
  data : list AudioDataPoint;
  duration : Q;
  originalRegion : option PeakRegion;
  isolatedRegion : option PeakRegion;
  error : option string
}.

(** [useState] initial value. *)
Definition initial : AnalysisState :=
  {| isProcessing := true; data := []; duration := 0;
     originalRegion := None; isolatedRegion := None; error := None |}.

(** The part of [processFiles] that follows the decoding of the two
    files: the graph data and, when the extraction throws, the [catch]
    branch. *)
Definition processFiles (originalBuffer isolatedBuffer : AudioBuffer.t)
    : AnalysisState :=
  let maxDuration :=
    Qmax (AudioBuffer.duration originalBuffer) (AudioBuffer.duration isolatedBuffer) in
  match PeakExtractor.extractAudioPeaks
          (Some originalBuffer) (Some isolatedBuffer) 500 with
  | Ok peaks =>
      {| isProcessing := false;
         data := points peaks;
         duration := maxDuration;
         originalRegion := originalPeakRegion peaks;
         isolatedRegion := isolatedPeakRegion peaks;
         error := None |}
  | Throw _ =>
      {| isProcessing := false;
         data := data initial;
         duration := duration initial;
         originalRegion := originalRegion initial;
         isolatedRegion := isolatedRegion initial;
         error := Some "Failed to analyze audio data"%string |}
  end.

End Analysis.

(* ------------------------------------------------------------------------- *)
(** ** What [audioBufferToWav] writes after the header *)

Module WavData.

(** The bytes one pass of the inner loop writes for frame [i]: the encoded
    sample of every channel, in channel order. *)
Definition frameBytes (channels : list (list Q)) (i : nat) : list Z :=
  flat_map
    (fun channel =>
       DataView.le_bytes 2 (WavEncoder.encode (index channel (Z.of_nat i))))
    channels.

(** The frames the loop visits: those from index 44 on. *)
Definition visitedFrames (buffer : AudioBuffer.t) : list nat :=
  seq 44 (AudioBuffer.length buffer - 44).

End WavData.

(** The running maximum [maxAmplitude] and its time [maxTime] track the
    series [data] for the amplitude [amplitudeOf]: no point is louder, and
    either nothing was louder than 0 yet or some point has exactly this
    amplitude and time. *)
Definition tracks (amplitudeOf : AudioDataPoint -> Q)
    (data : list AudioDataPoint) (maxAmplitude maxTime : Q) : Prop :=
  (forall q, In q data -> (amplitudeOf q <= maxAmplitude)%Q) /\
  ((maxAmplitude = 0%Q /\ maxTime = 0%Q) \/
   exists q, In q data /\ amplitudeOf q = maxAmplitude /\ time q = maxTime).

(* ------------------------------------------------------------------------- *)
(** ** The upload screen of [App] *)

Module App.

(** A selected file, by its name. *)
Definition File : Type := string.

Record State : Type := {
  videoFile : option File;
  audioFile : option File;
  isReady : bool
}.

Definition initial : State :=
  {| videoFile := None; audioFile := None; isReady := false |}.

Definition setVideoFile (f : File) (s : State) : State :=
  {| videoFile := Some f; audioFile := audioFile s; isReady := isReady s |}.

Definition setAudioFile (f : File) (s : State) : State :=
  {| videoFile := videoFile s; audioFile := Some f; isReady := isReady s |}.

(** [handleDrop] and [handleChange] of [FileUpload]: the first of the
    offered files is selected, an empty list selects nothing. *)
Definition handleFiles (onFileSelect : File -> State -> State)
    (files : list File) (s : State) : State :=
  match files with
  | f :: _ => onFileSelect f s
  | [] => s
  end.

Definition handleStart (s : State) : State :=
  match videoFile s, audioFile s with
  | Some _, Some _ =>
      {| videoFile := videoFile s; audioFile := audioFile s; isReady := true |}
  | _, _ => s
  end.

Definition handleReset (s : State) : State :=
  {| videoFile := None; audioFile := None; isReady := false |}.

Inductive Event : Type :=
| VideoFiles (files : list File)
| AudioFiles (files : list File)
| Start
| Reset.

Definition handle (s : State) (e : Event) : State :=
  match e with
  | VideoFiles files => handleFiles setVideoFile files s
  | AudioFiles files => handleFiles setAudioFile files s
  | Start => handleStart s
  | Reset => handleReset s
  end.

(** [isReady && videoFile && audioFile]: is [MediaComparator] rendered? *)
Definition comparatorShown (s : State) : bool :=
  isReady s
  && match videoFile s with Some _ => true | None => false end
  && match audioFile s with Some _ => true | None => false end.

End App.

(* ------------------------------------------------------------------------- *)
(** ** The same code in binary64

    The definitions above compute with exact rationals.  The running
    program computes with binary64 numbers.  [Binary64] embeds the same
    functions over the kernel's primitive floats, whose operations round
    to nearest, ties to even, as the operations of an ECMAScript [number]
    do.  It serves to evaluate the code on given inputs, where rounding
    decides the outcome. *)

Module Binary64.

(** An integer-valued number; exact below [2 ^ 53]. *)
Definition ofZ (n : Z) : float :=
  match n with
  | Z0 => 0%float
  | Zpos _ => PrimFloat.of_uint63 (Uint63.of_Z n)
  | Zneg p => PrimFloat.opp (PrimFloat.of_uint63 (Uint63.of_Z (Zpos p)))
  end.

(** The rational a finite number stands for. *)
Definition toQ (x : float) : Q :=
  match Prim2SF x with
  | S754_finite s m e =>
      let n := if s then Zneg m else Zpos m in
      match e with
      | Zneg k => n # (2 ^ k)
      | _ => inject_Z (n * 2 ^ e)
      end
  | _ => 0%Q
  end.

(** A rational that is a binary64 number, as that number. *)
Definition ofQ (q : Q) : float := (ofZ (Qnum q) / ofZ (Zpos (Qden q)))%float.

(** [Math.floor] and [Math.ceil] of a finite number. *)
Definition floor (x : float) : Z := Qfloor (toQ x).
Definition ceil (x : float) : Z := Qceiling (toQ x).

(** [Math.max] and [Math.min] of two numbers that are not NaN; of two
    zeros [Math.max] prefers [+0] and [Math.min] prefers [-0]. *)
Definition max (a b : float) : float :=
  if PrimFloat.ltb a b then b
  else if PrimFloat.ltb b a then a
  else if PrimFloat.is_zero a then (a + b)%float
  else a.

Definition min (a b : float) : float :=
  if PrimFloat.ltb b a then b
  else if PrimFloat.ltb a b then a
  else if PrimFloat.is_zero a then (- (- a + - b))%float
  else a.

(** [x || d]: [d] when [x] is zero or NaN. *)
Definition or_else (x d : float) : float :=
  if PrimFloat.is_zero x || PrimFloat.is_nan x then d else x.

(** [x % y] for a finite [x] and an integer [y] other than zero: the
    remainder of the division truncated toward zero.  It is a binary64
    number, so [%] does not round. *)
Definition rem (x : float) (y : Z) : float :=
  let q := toQ x in
  ofQ (Qred (q - inject_Z y * inject_Z (JsNumber.trunc (q / inject_Z y)))).

Module AudioBuffer.

Record t : Type := make {
  sampleRate : positive;
  length : nat;
  channels : list (list float)
}.

Definition duration (b : t) : float :=
  (ofZ (Z.of_nat (length b)) / ofZ (Zpos (sampleRate b)))%float.

Definition getChannelData (b : t) (i : nat) : result (list float) :=
  match nth_error (channels b) i with
  | Some c => Ok c
  | None => Throw IndexSizeError
  end.

End AudioBuffer.

Definition index (a : list float) (i : Z) : option float :=
  if i <? 0 then None else nth_error a (Z.to_nat i).

Record AudioDataPoint : Type := {
  time : float;
  original : float;
  isolated : float
}.

Record PeakRegion : Type := {
  start : float;
  end_ : float;
  amplitude : float
}.

Record Peaks : Type := {
  points : list AudioDataPoint;
  originalPeakRegion : option PeakRegion;
  isolatedPeakRegion : option PeakRegion
}.

(** [extractAudioPeaks], definition by definition as in [PeakExtractor]. *)
Fixpoint scan (budget : nat) (channelData : list float) (endSample stride : Z)
    (i : Z) (max : float) : result float :=
  if (i <? endSample) && (i <? Z.of_nat (List.length channelData)) then
    match budget with
    | O => Throw Unterminated
    | S budget' =>
        let max' :=
          match index channelData i with
          | Some x =>
              let val := PrimFloat.abs x in
              if PrimFloat.ltb max val then val else max
          | None => max
          end in
        scan budget' channelData endSample stride (i + stride) max'
    end
  else Ok max.

Definition startSample (buffer : AudioBuffer.t) (startTime : float) : Z :=
  floor (startTime * ofZ (Zpos (AudioBuffer.sampleRate buffer)))%float.

Definition endSample (buffer : AudioBuffer.t) (startTime windowSize : float) : Z :=
  floor ((startTime + windowSize) * ofZ (Zpos (AudioBuffer.sampleRate buffer)))%float.

Definition stride (startSample endSample : Z) : Z :=
  JsNumber.or_elseZ (ceil (ofZ (endSample - startSample) / 1000)%float) 1.

Definition getPeak (buffer : AudioBuffer.t) (startTime windowSize : float)
    : result float :=
  let startSample := startSample buffer startTime in
  let endSample := endSample buffer startTime windowSize in
  let* channelData := AudioBuffer.getChannelData buffer 0 in
  let stride := stride startSample endSample in
  let budget :=
    Z.to_nat (Z.min endSample (Z.of_nat (List.length channelData)) - startSample) in
  scan budget channelData endSample stride startSample 0%float.

Record Vars : Type := {
  data : list AudioDataPoint;
  maxOriginalAmplitude : float;
  maxOriginalTime : float;
  maxIsolatedAmplitude : float;
  maxIsolatedTime : float
}.

Definition init : Vars :=
  {| data := []; maxOriginalAmplitude := 0; maxOriginalTime := 0;
     maxIsolatedAmplitude := 0; maxIsolatedTime := 0 |}.

Definition peakOf (buffer : option AudioBuffer.t) (time step : float)
    : result float :=
  match buffer with
  | Some b => getPeak b time step
  | None => Ok 0%float
  end.

Definition body (buffer1 buffer2 : option AudioBuffer.t) (step : float)
    (i : Z) (v : Vars) : result Vars :=
  let time := (ofZ i * step)%float in
  let* original := peakOf buffer1 time step in
  let* isolated := peakOf buffer2 time step in
  let '(moa, mot) :=
    if PrimFloat.ltb (maxOriginalAmplitude v) original
    then (original, time)
    else (maxOriginalAmplitude v, maxOriginalTime v) in
  let '(mia, mit) :=
    if PrimFloat.ltb (maxIsolatedAmplitude v) isolated
    then (isolated, time)
    else (maxIsolatedAmplitude v, maxIsolatedTime v) in
  Ok {| data := data v ++ [ {| time := time; original := original; isolated := isolated |} ];
        maxOriginalAmplitude := moa; maxOriginalTime := mot;
        maxIsolatedAmplitude := mia; maxIsolatedTime := mit |}.

Fixpoint loop (remaining : nat) (buffer1 buffer2 : option AudioBuffer.t)
    (step : float) (i : Z) (v : Vars) : result Vars :=
  match remaining with
  | O => Ok v
  | S remaining' =>
      let* v' := body buffer1 buffer2 step i v in
      loop remaining' buffer1 buffer2 step (i + 1) v'
  end.

Definition durationOf (buffer : option AudioBuffer.t) : float :=
  match buffer with
  | Some b => or_else (AudioBuffer.duration b) 0
  | None => 0%float
  end.

(** [Math.min(duration * 0.1, 5)]. *)
Definition regionWindow (duration : float) : float :=
  min (duration * 0.1)%float 5.

Definition region (buffer : option AudioBuffer.t) (duration regionWindow : float)
    (maxTime maxAmplitude : float) : option PeakRegion :=
  match buffer with
  | Some _ =>
      Some {| start := max 0 (maxTime - regionWindow / 2)%float;
              end_ := min duration (maxTime + regionWindow / 2)%float;
              amplitude := maxAmplitude |}
  | None => None
  end.

Definition extractAudioPeaks (buffer1 buffer2 : option AudioBuffer.t)
    (samples : Z) : result Peaks :=
  let duration := max (durationOf buffer1) (durationOf buffer2) in
  if PrimFloat.eqb duration 0 then
    Ok {| points := []; originalPeakRegion := None; isolatedPeakRegion := None |}
  else
    let step := (duration / ofZ samples)%float in
    let* v := loop (Z.to_nat samples) buffer1 buffer2 step 0 init in
    let regionWindow := regionWindow duration in
    Ok {| points := data v;
          originalPeakRegion :=
            region buffer1 duration regionWindow
                   (maxOriginalTime v) (maxOriginalAmplitude v);
          isolatedPeakRegion :=
            region buffer2 duration regionWindow
                   (maxIsolatedTime v) (maxIsolatedAmplitude v) |}.

(** The region around the slot [i] of [samples] of a track of length
    [duration], as [extractAudioPeaks] builds it when that slot holds the
    loudest point. *)
Definition regionAt (duration : float) (samples i : Z) : float * float :=
  let step := (duration / ofZ samples)%float in
  let maxTime := (ofZ i * step)%float in
  let regionWindow := regionWindow duration in
  (max 0 (maxTime - regionWindow / 2)%float,
   min duration (maxTime + regionWindow / 2)%float).


(** The numbers [formatTime] prints, as in [Format]. *)
Definition minutes (seconds : float) : Z := floor (seconds / 60)%float.
Definition wholeSeconds (seconds : float) : Z := floor (rem seconds 60).
Definition hundredths (seconds : float) : Z := floor (rem seconds 1 * 100)%float.

(** The zoom and pan handlers, as in [WaveformGraph]. *)
Definition Domain : Type := (float * float)%type.

Definition handleZoomIn (duration : float) (domain : Domain) : Domain :=
  let '(start, end_) := domain in
  let span := (end_ - start)%float in
  let newSpan := (span * 0.75)%float in
  let mid := ((start + end_) / 2)%float in
  (max 0 (mid - newSpan / 2)%float, min duration (mid + newSpan / 2)%float).

Definition handleZoomOut (duration : float) (domain : Domain) : Domain :=
  let '(start, end_) := domain in
  let span := (end_ - start)%float in
  let newSpan := min duration (span * 1.25)%float in
  let mid := ((start + end_) / 2)%float in
  let newStart := (mid - newSpan / 2)%float in
  let newEnd := (mid + newSpan / 2)%float in
  let '(newStart, newEnd) :=
    if PrimFloat.ltb newStart 0
    then (0%float, min duration newSpan)
    else (newStart, newEnd) in
  let '(newStart, newEnd) :=
    if PrimFloat.ltb duration newEnd
    then (max 0 (duration - newSpan)%float, duration)
    else (newStart, newEnd) in
  (newStart, newEnd).

Definition handlePanLeft (duration : float) (domain : Domain) : Domain :=
  let '(start, end_) := domain in
  let span := (end_ - start)%float in
  let shift := (span * 0.1)%float in
  let newStart := max 0 (start - shift)%float in
  let newEnd := (newStart + span)%float in
  (newStart, newEnd).

Definition handlePanRight (duration : float) (domain : Domain) : Domain :=
  let '(start, end_) := domain in
  let span := (end_ - start)%float in
  let shift := (span * 0.1)%float in
  let newEnd := min duration (end_ + shift)%float in
  let newStart := (newEnd - span)%float in
  (newStart, newEnd).

(** The ranges that at most [n] clicks on the zoom and pan buttons reach
    from the ranges [domains]. *)
Fixpoint reach (n : nat) (duration : float) (domains : list Domain)
    : list Domain :=
  match n with
  | O => domains
  | S n' =>
      domains
      ++ reach n' duration
           (flat_map (fun domain =>
                        [handleZoomIn duration domain;
                         handleZoomOut duration domain;
                         handlePanLeft duration domain;
                         handlePanRight duration domain]) domains)
  end.

(** A range of the running program as a range of rationals. *)
Definition exact (domain : Domain) : Q * Q := (toQ (fst domain), toQ (snd domain)).

(** The bounds of a peak region on the region [r] the program builds for
    a track of length [duration], compared exactly: inside the track, in
    order, and no wider than the window with a margin of one part in a
    thousand. *)
Definition bounded (duration : float) (r : float * float) : bool :=
  let d := toQ duration in
  Qle_bool 0 (toQ (fst r)) && Qle_bool (toQ (fst r)) (toQ (snd r))
  && Qle_bool (toQ (snd r)) d
  && Qle_bool (toQ (snd r) - toQ (fst r)) (Qmin (d * (1 # 10)) 5 * (1001 # 1000)).

(** [end - start <= regionWindow] fails in the program. *)
Definition wider (duration : float) (r : float * float) : bool :=
  PrimFloat.ltb (regionWindow duration) (snd r - fst r)%float.

(** The slots [0 .. samples - 1]. *)
Definition slots (samples : nat) : list Z := map Z.of_nat (seq 0 samples).

(** The relations between a time and the numbers the program prints for
    it, compared exactly. *)
Definition fieldsOk (seconds : float) : bool :=
  let m := minutes seconds in
  let s := wholeSeconds seconds in
  let cs := hundredths seconds in
  let x := toQ seconds in
  let rest := ((x - inject_Z (60 * m + s)) * 100)%Q in
  (0 <=? m) && (0 <=? s) && (s <=? 59) && (0 <=? cs) && (cs <=? 99)
  && Qle_bool (inject_Z (60 * m + s)) x
  && negb (Qle_bool (inject_Z (60 * m + s) + 1) x)
  && negb (Qle_bool rest (inject_Z cs - 1))
  && negb (Qle_bool (inject_Z cs + 1) rest).

(** The relations between a range and the range after a click, compared
    exactly on the ranges of the program. *)
Definition insideb (duration : Q) (domain : Q * Q) : bool :=
  Qle_bool 0 (fst domain) && Qle_bool (fst domain) (snd domain)
  && Qle_bool (snd domain) duration.

Definition closeb (domain : Q * Q) (x y : Q) : bool :=
  Qle_bool (Qabs (x - y)) ((snd domain - fst domain) * (1 # 1000)).

Definition zoomInOk (duration : float) (domain : Domain) : bool :=
  let d := exact domain in
  let d' := exact (handleZoomIn duration domain) in
  insideb (toQ duration) d'
  && Qle_bool (fst d) (fst d') && Qle_bool (snd d') (snd d)
  && closeb d (snd d' - fst d') ((snd d - fst d) * (3 # 4)).

Definition zoomOutOk (duration : float) (domain : Domain) : bool :=
  let d := exact domain in
  let d' := exact (handleZoomOut duration domain) in
  insideb (toQ duration) d'
  && Qle_bool (fst d') (fst d) && Qle_bool (snd d) (snd d')
  && closeb d (snd d' - fst d') (Qmin (toQ duration) ((snd d - fst d) * (5 # 4))).

Definition panOk (duration : float) (domain : Domain) : bool :=
  let d := exact domain in
  let l := exact (handlePanLeft duration domain) in
  let r := exact (handlePanRight duration domain) in
  insideb (toQ duration) l
  && Qle_bool (fst l) (fst d) && Qle_bool (snd l) (snd d)
  && closeb d (snd l - fst l) (snd d - fst d)
  && closeb d (fst l) (Qmax 0 (fst d - (snd d - fst d) * (1 # 10)))
  && insideb (toQ duration) r
  && Qle_bool (fst d) (fst r) && Qle_bool (snd d) (snd r)
  && closeb d (snd r - fst r) (snd d - fst d)
  && closeb d (snd r) (Qmin (toQ duration) (snd d + (snd d - fst d) * (1 # 10))).

Definition undoOk (duration : float) (domain : Domain) : bool :=
  let d := exact domain in
  let lr := exact (handlePanRight duration (handlePanLeft duration domain)) in
  let rl := exact (handlePanLeft duration (handlePanRight duration domain)) in
  (negb (Qle_bool ((snd d - fst d) * (1 # 10)) (fst d))
   || closeb d (fst lr) (fst d) && closeb d (snd lr) (snd d))
  && (negb (Qle_bool (snd d + (snd d - fst d) * (1 # 10)) (toQ duration))
      || closeb d (fst rl) (fst d) && closeb d (snd rl) (snd d)).

(** A track of 1234567 samples at 44100 Hz. *)
Definition trackLength : float := (ofZ 1234567 / ofZ 44100)%float.

End Binary64.

(* ------------------------------------------------------------------------- *)
(** * Comparisons on numbers *)

Section NumberProperties.

Lemma gt_true (x y : Q) : JsNumber.gt x y = true <-> (y < x)%Q.
Proof.
  unfold JsNumber.gt. rewrite negb_true_iff, <- not_true_iff_false, Qle_bool_iff.
  split; [apply Qnot_le_lt | apply Qlt_not_le].
Qed.

Lemma gt_false (x y : Q) : JsNumber.gt x y = false <-> (x <= y)%Q.
Proof. unfold JsNumber.gt. rewrite negb_false_iff. apply Qle_bool_iff. Qed.

Lemma lt_true (x y : Q) : JsNumber.lt x y = true <-> (x < y)%Q.
Proof. apply (gt_true y x). Qed.

Lemma is_zero_true (x : Q) : JsNumber.is_zero x = true <-> (x == 0)%Q.
Proof. apply Qeq_bool_iff. Qed.

End NumberProperties.

(* ------------------------------------------------------------------------- *)
(** * Properties of the playback controller *)

Section PlaybackProperties.

Import Playback.

(** Unfolds a command down to comparisons on positions. *)
Ltac run_command :=
  cbv [syncLoop handleGlobalPlayPause handleToggle1 handleToggle2 handleSeek
       run correct optional when ret bindM current state
       getCurrentTime getPaused read update setCurrentTime play pause
       setIsPlaying1 setIsPlaying2 setCurrentTime1 setCurrentTime2
       requestAnimationFrame takeFrames element store playing anyPlaying
       nonePlaying
       position option_map playingAt pausedAt withPaused
       videoOriginal videoMuted audioIsolated isSynced isPlaying1 isPlaying2
       currentTime1 currentTime2 frameRequested currentTime paused
       negb orb andb].

(** ** One call of [syncLoop] *)

(** A call of [syncLoop] with all three transports attached never throws
    and never moves the leader.  When the function closed over
    [isSynced = true] and the leader is playing, a follower more than
    0.15 s away from the leader is set to the leader's position and a
    follower at most 0.15 s away keeps its position; when it closed over
    [isSynced = false] no position changes.  The [isSynced] of the
    component at the time of the call plays no part.  Play states are
    never changed by a call. *)
Lemma syncLoop_call_corrects_followers (synced : bool) (s : Component)
    (l f g : MediaElement) :
  videoOriginal s = Some l ->
  videoMuted s = Some f ->
  audioIsolated s = Some g ->
  exists s' f' g',
    syncLoop synced s = Ok (tt, s') /\
    videoOriginal s' = Some l /\
    videoMuted s' = Some f' /\ paused f' = paused f /\
    audioIsolated s' = Some g' /\ paused g' = paused g /\
    (synced = true -> paused l = false ->
       ((tolerance < Qabs (currentTime f - currentTime l))%Q ->
          currentTime f' = currentTime l) /\
       ((Qabs (currentTime f - currentTime l) <= tolerance)%Q ->
          currentTime f' = currentTime f) /\
       ((tolerance < Qabs (currentTime g - currentTime l))%Q ->
          currentTime g' = currentTime l) /\
       ((Qabs (currentTime g - currentTime l) <= tolerance)%Q ->
          currentTime g' = currentTime g)) /\
    (synced = false -> f' = f /\ g' = g).
Proof.
  destruct s as [v1 v2 a1 linked p1 p2 t1 t2 fr]; run_command.
  intros -> -> ->.
  destruct l as [lt lp], f as [ft fp], g as [gt gp].
  run_command.
  destruct synced, lp, fp, gp;
    repeat (run_command;
            match goal with
            | |- context [JsNumber.gt ?a ?b] => destruct (JsNumber.gt a b) eqn:?
            end);
    run_command;
    (eexists _, _, _; repeat split; try reflexivity; try discriminate).
  all: intros; cbv [currentTime paused] in *.
  all: repeat match goal with
       | H : JsNumber.gt _ _ = true |- _ => apply gt_true in H
       | H : JsNumber.gt _ _ = false |- _ => apply gt_false in H
       end.
  all: try reflexivity.
  all: match goal with
       | H1 : (?a < ?b)%Q, H2 : (?b <= ?a)%Q |- _ =>
           exfalso; exact (Qlt_not_le _ _ H1 H2)
       end.
Qed.

(** ** Global play/pause *)

(** What C3 states fails: with the two followers playing and the leader
    paused (unlinked, reached from the mounted component by unlinking and
    clicking the muted video), [handleGlobalPlayPause] pauses nothing and
    starts the leader instead. *)
Lemma handleGlobalPlayPause_ignores_playing_followers :
  (setIsSynced false ;; handleToggle2) mounted = Ok (tt, followersPlaying) /\
  anyPlaying followersPlaying = true /\
  exists s',
    handleGlobalPlayPause followersPlaying = Ok (tt, s') /\
    nonePlaying s' = false /\
    playing videoOriginalRef s' = true /\
    playing videoMutedRef s' = true /\
    playing audioIsolatedRef s' = true.
Proof.
  split; [reflexivity|]. split; [reflexivity|].
  eexists. split; [reflexivity|]. repeat split.
Qed.

(** C3, amended. With all three transports attached,
    [handleGlobalPlayPause] pauses all three when the flag [isPlaying1]
    is set, leaving positions alone; otherwise it plays all three, after
    seeking both followers to the leader's position when linked, and
    without any seek when unlinked. *)
Theorem handleGlobalPlayPause_follows_isPlaying1
    (s : Component) (l f g : MediaElement) :
  videoOriginal s = Some l ->
  videoMuted s = Some f ->
  audioIsolated s = Some g ->
  exists s',
    handleGlobalPlayPause s = Ok (tt, s') /\
    (isPlaying1 s = true ->
       videoOriginal s' = Some (withPaused true l) /\
       videoMuted s' = Some (withPaused true f) /\
       audioIsolated s' = Some (withPaused true g)) /\
    (isPlaying1 s = false -> isSynced s = true ->
       videoOriginal s' = Some (playingAt (currentTime l)) /\
       videoMuted s' = Some (playingAt (currentTime l)) /\
       audioIsolated s' = Some (playingAt (currentTime l))) /\
    (isPlaying1 s = false -> isSynced s = false ->
       videoOriginal s' = Some (withPaused false l) /\
       videoMuted s' = Some (withPaused false f) /\
       audioIsolated s' = Some (withPaused false g)).
Proof.
  destruct s as [v1 v2 a1 synced p1 p2 t1 t2 fr]; run_command.
  intros -> -> ->.
  destruct l as [lt lp], f as [ft fp], g as [gt gp].
  destruct synced, p1; run_command;
    (eexists; split; [reflexivity|]);
    repeat split; intros; try discriminate; reflexivity.
Qed.

Lemma handleGlobalPlayPause_follows_isPlaying1_witness :
  exists s',
    handleGlobalPlayPause leaderAhead = Ok (tt, s') /\
    videoOriginal s' = Some (playingAt 5) /\
    videoMuted s' = Some (playingAt 5) /\
    audioIsolated s' = Some (playingAt 5).
Proof.
  destruct (handleGlobalPlayPause_follows_isPlaying1 leaderAhead
              (pausedAt 5) (pausedAt 0) (pausedAt 0) eq_refl eq_refl eq_refl)
    as (s' & Hrun & _ & Hlinked & _).
  exists s'. split; [exact Hrun|]. exact (Hlinked eq_refl eq_refl).
Defined.

(** ** Toggling one player *)

(** What C4 states fails in two places.  Linked, with the leader 5 s
    ahead (after the original video alone was played for 5 s while
    unlinked), a click on the original video starts the followers where
    they are, at 0, not at the leader's position.  Unlinked, a click on the
    muted video also starts the isolated audio. *)
Lemma toggle_neither_seeks_nor_isolates :
  (setIsSynced false ;; handleToggle1 ;; elapse 5 ;; syncLoop false ;;
   handleToggle1 ;; setIsSynced true) mounted = Ok (tt, leaderAhead) /\
  (exists s',
     handleToggle1 leaderAhead = Ok (tt, s') /\
     isSynced leaderAhead = true /\
     position videoOriginalRef s' = Some 5%Q /\
     playing videoMutedRef s' = true /\
     position videoMutedRef s' = Some 0%Q /\
     playing audioIsolatedRef s' = true /\
     position audioIsolatedRef s' = Some 0%Q) /\
  setIsSynced false mounted = Ok (tt, unlinked) /\
  (exists s',
     handleToggle2 unlinked = Ok (tt, s') /\
     isSynced unlinked = false /\
     playing audioIsolatedRef unlinked = false /\
     playing audioIsolatedRef s' = true).
Proof.
  split; [vm_compute; reflexivity|].
  split; [eexists; (split; [reflexivity|]); repeat split|].
  split; [reflexivity|].
  eexists; (split; [reflexivity|]); repeat split.
Qed.

(** C4, amended. With all three transports attached: a click on the
    original video ([handleToggle1]) flips its play state; a click on the
    muted video ([handleToggle2]) flips the play state of the muted video
    and gives the isolated audio that same new state.  When linked the
    remaining transports get the same new play state; when unlinked they
    are left as they are.  No toggle changes a position. *)
Theorem toggle_flips_play_state_only (s : Component) (l f g : MediaElement) :
  videoOriginal s = Some l ->
  videoMuted s = Some f ->
  audioIsolated s = Some g ->
  (exists s',
     handleToggle1 s = Ok (tt, s') /\
     videoOriginal s' = Some (withPaused (negb (paused l)) l) /\
     (isSynced s = true ->
        videoMuted s' = Some (withPaused (negb (paused l)) f) /\
        audioIsolated s' = Some (withPaused (negb (paused l)) g)) /\
     (isSynced s = false ->
        videoMuted s' = Some f /\ audioIsolated s' = Some g)) /\
  (exists s',
     handleToggle2 s = Ok (tt, s') /\
     videoMuted s' = Some (withPaused (negb (paused f)) f) /\
     audioIsolated s' = Some (withPaused (negb (paused f)) g) /\
     (isSynced s = true ->
        videoOriginal s' = Some (withPaused (negb (paused f)) l)) /\
     (isSynced s = false -> videoOriginal s' = Some l)).
Proof.
  destruct s as [v1 v2 a1 synced p1 p2 t1 t2 fr]; run_command.
  intros -> -> ->.
  destruct l as [lt lp], f as [ft fp], g as [gt gp].
  split; destruct synced, lp, fp; run_command;
    (eexists; split; [reflexivity|]);
    repeat split; intros; try discriminate; reflexivity.
Qed.

Lemma toggle_flips_play_state_only_witness :
  (exists s',
     handleToggle1 unlinked = Ok (tt, s') /\
     videoOriginal s' = Some (playingAt 0) /\
     videoMuted s' = Some (pausedAt 0) /\
     audioIsolated s' = Some (pausedAt 0)) /\
  (exists s',
     handleToggle2 leaderAhead = Ok (tt, s') /\
     videoOriginal s' = Some (playingAt 5) /\
     videoMuted s' = Some (playingAt 0) /\
     audioIsolated s' = Some (playingAt 0)).
Proof.
  split.
  - destruct (toggle_flips_play_state_only unlinked
                (pausedAt 0) (pausedAt 0) (pausedAt 0) eq_refl eq_refl eq_refl)
      as ((s' & Hrun & Hl & _ & Hunlinked) & _).
    exists s'. split; [exact Hrun|]. split; [exact Hl|].
    exact (Hunlinked eq_refl).
  - destruct (toggle_flips_play_state_only leaderAhead
                (pausedAt 5) (pausedAt 0) (pausedAt 0) eq_refl eq_refl eq_refl)
      as (_ & (s' & Hrun & Hf & Hg & Hlinked & _)).
    exists s'. split; [exact Hrun|]. split; [exact (Hlinked eq_refl)|].
    split; assumption.
Defined.

(** ** Commands on unattached transports *)




End PlaybackProperties.

(* ------------------------------------------------------------------------- *)
(** * Properties of the WAV encoder *)

Section WavProperties.

Import WavEncoder.

Lemma write_in_prefix (pre rest bs : list Z) (byteOffset : Z) :
  0 <= byteOffset ->
  byteOffset + Z.of_nat (List.length bs) <= Z.of_nat (List.length pre) ->
  DataView.write (pre ++ rest) byteOffset bs
  = Ok (list_inserts (Z.to_nat byteOffset) bs pre ++ rest).
Proof.
  intros H0 Hle. unfold DataView.write.
  rewrite length_app, Nat2Z.inj_add.
  replace ((0 <=? byteOffset)
           && (byteOffset + Z.of_nat (List.length bs)
               <=? Z.of_nat (List.length pre) + Z.of_nat (List.length rest)))
    with true
    by (symmetry; apply andb_true_iff; split; apply Z.leb_le; lia).
  f_equal.
  assert (Hn : (Z.to_nat byteOffset + List.length bs <= List.length pre)%nat) by lia.
  clear H0 Hle. revert pre Hn.
  generalize (Z.to_nat byteOffset) as i.
  induction bs as [|b bs IH]; intros i pre Hn; simpl in *; [reflexivity|].
  rewrite IH by lia.
  rewrite insert_app_l; [reflexivity|].
  rewrite length_inserts. lia.
Qed.

Lemma take_inserts_ge (l bs : list Z) (n i : nat) :
  (n <= i)%nat -> take n (list_inserts i bs l) = take n l.
Proof.
  revert i. induction bs as [|b bs IH]; intros i Hle; simpl; [reflexivity|].
  rewrite take_insert_ge by lia. apply IH. lia.
Qed.

(** A write at or after byte 44 that fits keeps the length and the first
    44 bytes. *)
Lemma write_after_header (view0 bs : list Z) (byteOffset : Z) :
  44 <= byteOffset ->
  byteOffset + Z.of_nat (List.length bs) <= Z.of_nat (List.length view0) ->
  exists view1,
    DataView.write view0 byteOffset bs = Ok view1 /\
    List.length view1 = List.length view0 /\
    take 44 view1 = take 44 view0.
Proof.
  intros H44 Hle. unfold DataView.write.
  replace ((0 <=? byteOffset)
           && (byteOffset + Z.of_nat (List.length bs)
               <=? Z.of_nat (List.length view0)))
    with true
    by (symmetry; apply andb_true_iff; split; apply Z.leb_le; lia).
  eexists. split; [reflexivity|]. split.
  - apply length_inserts.
  - apply take_inserts_ge. lia.
Qed.

(** A write of [bs] at the cursor, when the bytes written so far are
    [written] and at least [length bs] bytes follow. *)
Lemma write_at_cursor (written tail bs : list Z) :
  (List.length bs <= List.length tail)%nat ->
  DataView.write (written ++ tail) (Z.of_nat (List.length written)) bs
  = Ok ((written ++ bs) ++ drop (List.length bs) tail).
Proof.
  intros Hle. unfold DataView.write.
  rewrite length_app, Nat2Z.inj_add.
  replace ((0 <=? Z.of_nat (List.length written))
           && (Z.of_nat (List.length written) + Z.of_nat (List.length bs)
               <=? Z.of_nat (List.length written) + Z.of_nat (List.length tail)))
    with true
    by (symmetry; apply andb_true_iff; split; apply Z.leb_le; lia).
  f_equal. rewrite Nat2Z.id.
  rewrite <- (Nat.add_0_r (List.length written)).
  rewrite list_inserts_app_r, <- app_assoc. f_equal.
  rewrite <- (take_drop (List.length bs) tail) at 1.
  rewrite list_inserts_0_r; [reflexivity|].
  rewrite length_take. lia.
Qed.

Lemma setUint32_at_cursor (written tail : list Z) (data o : Z) :
  (4 <= List.length tail)%nat ->
  setUint32 data
    {| view := written ++ tail; offset := o; pos := Z.of_nat (List.length written) |}
  = Ok {| view := (written ++ DataView.le_bytes 4 data) ++ drop 4 tail;
          offset := o;
          pos := Z.of_nat (List.length (written ++ DataView.le_bytes 4 data)) |}.
Proof.
  intros Hle. unfold setUint32, DataView.setUint32; cbn [view pos offset].
  rewrite write_at_cursor by exact Hle. cbn [bind].
  rewrite length_app, Nat2Z.inj_add. reflexivity.
Qed.

Lemma setUint16_at_cursor (written tail : list Z) (data o : Z) :
  (2 <= List.length tail)%nat ->
  setUint16 data
    {| view := written ++ tail; offset := o; pos := Z.of_nat (List.length written) |}
  = Ok {| view := (written ++ DataView.le_bytes 2 data) ++ drop 2 tail;
          offset := o;
          pos := Z.of_nat (List.length (written ++ DataView.le_bytes 2 data)) |}.
Proof.
  intros Hle. unfold setUint16, DataView.setUint16; cbn [view pos offset].
  rewrite write_at_cursor by exact Hle. cbn [bind].
  rewrite length_app, Nat2Z.inj_add. reflexivity.
Qed.

(** On a zeroed buffer of at least 44 bytes the header writes succeed,
    produce the canonical header and leave the cursor at 44. *)
Lemma writeHeader_spec (buffer : AudioBuffer.t) (rest : list Z) (o : Z) :
  writeHeader buffer
    (Z.of_nat (AudioBuffer.length buffer) * AudioBuffer.numberOfChannels buffer * 2 + 44)
    {| view := repeat 0 44 ++ rest; offset := o; pos := 0 |}
  = Ok {| view := WavSpec.header buffer ++ rest; offset := o; pos := 44 |}.
Proof.
  unfold writeHeader.
  change {| view := repeat 0 44 ++ rest; offset := o; pos := 0 |}
    with {| view := [] ++ (repeat 0 44 ++ rest); offset := o;
            pos := Z.of_nat (List.length (@nil Z)) |}.
  repeat (first [ rewrite setUint32_at_cursor
                    by (rewrite ?length_drop, length_app, repeat_length; lia)
                | rewrite setUint16_at_cursor
                    by (rewrite ?length_drop, length_app, repeat_length; lia) ];
          cbn [bind]).
  unfold WavSpec.header.
  change (WavSpec.ascii_bytes "RIFF") with (DataView.le_bytes 4 1179011410).
  change (WavSpec.ascii_bytes "WAVE") with (DataView.le_bytes 4 1163280727).
  change (WavSpec.ascii_bytes "fmt ") with (DataView.le_bytes 4 544501094).
  change (WavSpec.ascii_bytes "data") with (DataView.le_bytes 4 1635017060).
  cbn [pos view DataView.le_bytes app List.length repeat drop].
  change (Z.of_nat 40) with 40. change (Z.of_nat 44) with 44.
  replace (Z.of_nat (AudioBuffer.length buffer)
           * AudioBuffer.numberOfChannels buffer * 2 + 44 - 40 - 4)
    with (Z.of_nat (AudioBuffer.length buffer)
          * AudioBuffer.numberOfChannels buffer * 2) by lia.
  reflexivity.
Qed.

Lemma interleave_spec (channels : list (list Q)) (v : Vars) :
  0 <= offset v ->
  44 + offset v + 2 * Z.of_nat (List.length channels)
    <= Z.of_nat (List.length (view v)) ->
  exists v',
    interleave channels v = Ok v' /\
    List.length (view v') = List.length (view v) /\
    take 44 (view v') = take 44 (view v) /\
    offset v' = offset v + 2 * Z.of_nat (List.length channels) /\
    pos v' = pos v.
Proof.
  revert v. induction channels as [|channel rest IH]; intros v Hoff Hfit.
  - exists v. cbn [interleave List.length]. repeat split; lia.
  - cbn [interleave]. unfold DataView.setInt16.
    cbn [List.length] in Hfit.
    destruct (write_after_header (view v)
                (DataView.le_bytes 2 (encode (index channel (pos v))))
                (44 + offset v))
      as (view1 & -> & Hlen & Htake); [lia | cbn [DataView.le_bytes List.length]; lia |].
    cbn [bind].
    destruct (IH {| view := view1; offset := offset v + 2; pos := pos v |})
      as (v' & Hrun & Hlen' & Htake' & Hoff' & Hpos');
      cbn [view offset pos] in *; [lia | lia |].
    exists v'. split; [exact Hrun|].
    cbn [List.length]. repeat split; try congruence; lia.
Qed.

Lemma frames_spec (channels : list (list Q)) (length : Z) (budget : nat) (v : Vars) :
  0 <= offset v ->
  length - pos v <= Z.of_nat budget ->
  44 + offset v + 2 * Z.of_nat (List.length channels) * Z.max 0 (length - pos v)
    <= Z.of_nat (List.length (view v)) ->
  exists v',
    frames budget channels length v = Ok v' /\
    List.length (view v') = List.length (view v) /\
    take 44 (view v') = take 44 (view v).
Proof.
  revert v. induction budget as [|budget IH]; intros v Hoff Hbudget Hfit.
  - cbn [frames]. destruct (Z.ltb_spec (pos v) length); [lia|].
    exists v. repeat split.
  - cbn [frames]. destruct (Z.ltb_spec (pos v) length) as [Hlt|Hge].
    + assert (Hmax : Z.max 0 (length - pos v) = 1 + Z.max 0 (length - (pos v + 1)))
        by lia.
      rewrite Hmax in Hfit.
      destruct (interleave_spec channels v Hoff)
        as (v1 & -> & Hlen & Htake & Hoff1 & Hpos1); [nia|].
      cbn [bind].
      destruct (IH {| view := view v1; offset := offset v1; pos := pos v1 + 1 |})
        as (v' & Hrun & Hlen' & Htake'); cbn [view offset pos] in *.
      * lia.
      * lia.
      * rewrite Hoff1, Hpos1, Hlen. nia.
      * exists v'. split; [exact Hrun|]. split; congruence.
    + exists v. repeat split.
Qed.

(** For every buffer the encoder returns (it neither throws nor runs out
    of iterations) exactly [44 + frameCount * channelCount * 2] bytes,
    the first 44 of which are the canonical header. *)
Theorem audioBufferToWav_layout (buffer : AudioBuffer.t) :
  exists bytes,
    audioBufferToWav buffer = Ok bytes /\
    Z.of_nat (List.length bytes)
    = 44 + Z.of_nat (AudioBuffer.length buffer)
           * AudioBuffer.numberOfChannels buffer * 2 /\
    take 44 bytes = WavSpec.header buffer.
Proof.
  unfold audioBufferToWav.
  set (dataLength := Z.of_nat (AudioBuffer.length buffer)
                     * AudioBuffer.numberOfChannels buffer * 2).
  assert (Hdata : 0 <= dataLength)
    by (unfold dataLength, AudioBuffer.numberOfChannels; nia).
  replace (Z.to_nat (dataLength + 44)) with (44 + Z.to_nat dataLength)%nat by lia.
  rewrite repeat_app, writeHeader_spec. cbn [bind].
  assert (Hheader : List.length (WavSpec.header buffer) = 44%nat) by reflexivity.
  destruct (frames_spec (AudioBuffer.channels buffer)
              (Z.of_nat (AudioBuffer.length buffer)) (AudioBuffer.length buffer)
              {| view := WavSpec.header buffer ++ repeat 0 (Z.to_nat dataLength);
                 offset := 0; pos := 44 |})
    as (v' & -> & Hlen & Htake); cbn [view offset pos].
  - lia.
  - lia.
  - rewrite length_app, Hheader, repeat_length.
    unfold dataLength, AudioBuffer.numberOfChannels. nia.
  - cbn [bind view offset pos] in *. exists (view v'). split; [reflexivity|].
    split.
    + rewrite Hlen, length_app, Hheader, repeat_length. lia.
    + rewrite Htake. rewrite take_app_length' by (symmetry; exact Hheader).
      reflexivity.
Qed.

(** A buffer without channels yields the 44-byte header alone, with a
    data length of 0. *)
Lemma audioBufferToWav_no_channels (buffer : AudioBuffer.t) :
  AudioBuffer.channels buffer = [] ->
  audioBufferToWav buffer = Ok (WavSpec.header buffer) /\
  drop 40 (WavSpec.header buffer) = DataView.le_bytes 4 0.
Proof.
  intros Hnone.
  destruct (audioBufferToWav_layout buffer) as (bytes & Hrun & Hlen & Htake).
  assert (Hzero : AudioBuffer.numberOfChannels buffer = 0)
    by (unfold AudioBuffer.numberOfChannels; rewrite Hnone; reflexivity).
  rewrite Hzero in Hlen. split.
  - rewrite Hrun. f_equal. rewrite <- Htake.
    symmetry. apply take_ge. lia.
  - unfold WavSpec.header. rewrite Hzero.
    replace (Z.of_nat (AudioBuffer.length buffer) * 0 * 2) with 0 by lia.
    reflexivity.
Qed.

(** C1. On the one-sample buffer holding 1.0 the encoder leaves the data
    chunk at zero, where the specified encoding is 32767 (FF 7F): the
    frame loop starts at the cursor value 44 left by the header writes,
    so no frame below index 44 is ever encoded.  On a 45-frame buffer
    the only encoded sample, -0.25 at frame 44, is stored as -8191, where
    the specified scaling of a negative sample by 32768 gives -8192: the
    sign test is made on [0.5 + sample]. *)
Theorem audioBufferToWav_misencodes_samples :
  (exists bytes,
     audioBufferToWav Samples.oneSample = Ok bytes /\
     dataChunk bytes = [0; 0] /\
     DataView.getInt16 bytes 44 = Some 0) /\
  WavSpec.dataChunk Samples.oneSample = [255; 127] /\
  (exists bytes,
     audioBufferToWav Samples.quiet45 = Ok bytes /\
     DataView.getInt16 bytes 44 = Some (-8191)) /\
  scale (clamp (-(1 # 4))) = -8191 /\
  WavSpec.encodeSample (-(1 # 4)) = -8192.
Proof.
  split; [eexists; split; [vm_compute; reflexivity | split; reflexivity]|].
  split; [reflexivity|].
  split; [eexists; split; [vm_compute; reflexivity | reflexivity]|].
  split; reflexivity.
Qed.

(** C6. On a two-channel buffer of 46 frames the data chunk does not hold
    the 46 interleaved frames: it starts with frames 44 and 45 and is
    zero from there on, while length and header are as specified.  A
    buffer without channels yields the header alone. *)
Theorem audioBufferToWav_data_starts_at_frame_44 :
  audioBufferToWav Samples.noChannels = Ok (WavSpec.header Samples.noChannels) /\
  exists bytes,
    audioBufferToWav Samples.stereo46 = Ok bytes /\
    List.length bytes = (44 + 46 * 2 * 2)%nat /\
    take 44 bytes = WavSpec.header Samples.stereo46 /\
    dataChunk bytes = [1; 224; 255; 127; 255; 63; 0; 128] ++ repeat 0 176 /\
    take 8 (WavSpec.dataChunk Samples.stereo46)
    = [255; 127; 0; 0; 255; 127; 0; 0] /\
    drop 176 (WavSpec.dataChunk Samples.stereo46)
    = [0; 224; 255; 127; 255; 63; 0; 128] /\
    dataChunk bytes <> WavSpec.dataChunk Samples.stereo46.
Proof.
  split; [vm_compute; reflexivity|].
  eexists. split; [vm_compute; reflexivity|].
  do 5 (split; [reflexivity|]).
  vm_compute. discriminate.
Qed.

End WavProperties.

(* ------------------------------------------------------------------------- *)
(** * Properties of the peak extractor *)

Section PeakProperties.

Import PeakExtractor.

(** ** The window scan *)

Lemma stride_positive (startSample endSample : Z) :
  startSample < endSample -> 1 <= stride startSample endSample.
Proof.
  intros Hlt. unfold stride, JsNumber.or_elseZ.
  set (x := (inject_Z (endSample - startSample) / 1000)%Q).
  assert (Hx : (0 < x)%Q).
  { unfold x. apply Qlt_shift_div_l; [reflexivity|].
    rewrite Qmult_0_l. change 0%Q with (inject_Z 0).
    rewrite <- Zlt_Qlt. lia. }
  assert (Hc : (0 < inject_Z (Qceiling x))%Q)
    by (eapply Qlt_le_trans; [exact Hx | apply Qle_ceiling]).
  change 0%Q with (inject_Z 0) in Hc. rewrite <- Zlt_Qlt in Hc.
  destruct (Z.eqb_spec (Qceiling x) 0); lia.
Qed.

(** With a budget covering the distance to the end of the window or of
    the channel, the scan returns; every index it reads lies in the
    window and inside the channel. *)
Lemma scan_spec (channelData : list Q) (endSample stride : Z) :
  forall (budget : nat) (i : Z) (max : Q) (reads : list Z),
    (i < endSample -> 1 <= stride) ->
    Z.min endSample (Z.of_nat (List.length channelData)) - i <= Z.of_nat budget ->
    exists m new,
      scan budget channelData endSample stride i max reads = Ok (m, new ++ reads) /\
      Forall (fun j => i <= j < Z.of_nat (List.length channelData) /\ j < endSample) new.
Proof.
  induction budget as [|budget IH]; intros i max reads Hstride Hbudget;
    cbn [scan];
    destruct (Z.ltb_spec i endSample) as [He|He];
    destruct (Z.ltb_spec i (Z.of_nat (List.length channelData))) as [Hl|Hl];
    cbn [andb]; try (exists max, []; split; [reflexivity | constructor]).
  - lia.
  - specialize (Hstride He).
    match goal with
    | |- context [scan budget _ _ _ _ ?m' ?r'] =>
        destruct (IH (i + stride) m' r') as (m & new & Hrun & Hall); [lia | lia |]
    end.
    exists m, (new ++ [i]). split.
    + rewrite Hrun, <- app_assoc. reflexivity.
    + apply Forall_app. split.
      * eapply Forall_impl; [exact Hall|]. cbv beta. intros j Hj. lia.
      * constructor; [lia | constructor].
Qed.

(** A scan that starts at or beyond the end of the channel reads nothing
    and returns the running maximum. *)
Lemma scan_beyond_end (channelData : list Q) (endSample stride : Z)
    (budget : nat) (i : Z) (max : Q) (reads : list Z) :
  Z.of_nat (List.length channelData) <= i ->
  scan budget channelData endSample stride i max reads = Ok (max, reads).
Proof.
  intros Hle.
  destruct budget; cbn [scan];
    destruct (Z.ltb_spec i (Z.of_nat (List.length channelData))); try lia;
    rewrite andb_false_r; reflexivity.
Qed.

Lemma getPeak_traced_spec (buffer : AudioBuffer.t) (startTime windowSize : Q)
    (channelData : list Q) :
  AudioBuffer.getChannelData buffer 0 = Ok channelData ->
  exists m reads,
    getPeak_traced buffer startTime windowSize = Ok (m, reads) /\
    getPeak buffer startTime windowSize = Ok m /\
    Forall (fun j => startSample buffer startTime <= j
                     /\ j < Z.of_nat (List.length channelData)) reads.
Proof.
  intros Hchannel. unfold getPeak, getPeak_traced. rewrite Hchannel. cbn [bind].
  set (s := startSample buffer startTime).
  set (e := endSample buffer startTime windowSize).
  destruct (scan_spec channelData e (stride s e)
              (Z.to_nat (Z.min e (Z.of_nat (List.length channelData)) - s))
              s 0%Q [])
    as (m & new & Hrun & Hall).
  - apply stride_positive.
  - lia.
  - rewrite app_nil_r in Hrun. exists m, new. rewrite Hrun.
    split; [reflexivity|]. split; [reflexivity|].
    eapply Forall_impl; [exact Hall|]. cbv beta. intros j Hj. lia.
Qed.

Lemma getPeak_beyond_end (buffer : AudioBuffer.t) (startTime windowSize : Q)
    (channelData : list Q) :
  AudioBuffer.getChannelData buffer 0 = Ok channelData ->
  Z.of_nat (List.length channelData) <= startSample buffer startTime ->
  getPeak buffer startTime windowSize = Ok 0%Q.
Proof.
  intros Hchannel Hle. unfold getPeak, getPeak_traced.
  rewrite Hchannel. cbn [bind].
  rewrite scan_beyond_end by exact Hle. reflexivity.
Qed.

Lemma getChannelData_first (buffer : AudioBuffer.t) :
  AudioBuffer.channels buffer <> [] ->
  exists channelData, AudioBuffer.getChannelData buffer 0 = Ok channelData.
Proof.
  unfold AudioBuffer.getChannelData.
  destruct (AudioBuffer.channels buffer) as [|c rest]; [congruence|].
  intros _. exists c. reflexivity.
Qed.

Lemma peakOf_total (buffer : option AudioBuffer.t) (time step : Q) :
  hasFirstChannel buffer -> exists q, peakOf buffer time step = Ok q.
Proof.
  destruct buffer as [b|]; cbn [hasFirstChannel peakOf]; [|eauto].
  intros Hch. destruct (getChannelData_first b Hch) as (cd & Hcd).
  destruct (getPeak_traced_spec b time step cd Hcd) as (m & _ & _ & -> & _).
  eauto.
Qed.

(** ** The main loop *)

Lemma body_spec (buffer1 buffer2 : option AudioBuffer.t) (step : Q)
    (i : Z) (v v1 : Vars) :
  body buffer1 buffer2 step i v = Ok v1 ->
  exists p,
    time p = (inject_Z i * step)%Q /\
    peakOf buffer1 (time p) step = Ok (original p) /\
    peakOf buffer2 (time p) step = Ok (isolated p) /\
    data v1 = data v ++ [p] /\
    (maxOriginalTime v1 = maxOriginalTime v \/ maxOriginalTime v1 = time p) /\
    (maxIsolatedTime v1 = maxIsolatedTime v \/ maxIsolatedTime v1 = time p).
Proof.
  unfold body.
  destruct (peakOf buffer1 (inject_Z i * step) step) as [o|] eqn:Ho;
    cbn [bind]; [|discriminate].
  destruct (peakOf buffer2 (inject_Z i * step) step) as [s|] eqn:Hs;
    cbn [bind]; [|discriminate].
  intros Hv1.
  exists {| time := inject_Z i * step; original := o; isolated := s |}.
  cbn [time original isolated].
  destruct (JsNumber.gt o (maxOriginalAmplitude v));
    destruct (JsNumber.gt s (maxIsolatedAmplitude v));
    injection Hv1 as <-; cbn [data maxOriginalTime maxIsolatedTime];
    repeat split; auto.
Qed.

Lemma body_total (buffer1 buffer2 : option AudioBuffer.t) (step : Q)
    (i : Z) (v : Vars) :
  hasFirstChannel buffer1 -> hasFirstChannel buffer2 ->
  exists v1, body buffer1 buffer2 step i v = Ok v1.
Proof.
  intros H1 H2. unfold body.
  destruct (peakOf_total buffer1 (inject_Z i * step) step H1) as (o & ->).
  destruct (peakOf_total buffer2 (inject_Z i * step) step H2) as (s & ->).
  cbn [bind].
  destruct (JsNumber.gt o (maxOriginalAmplitude v));
    destruct (JsNumber.gt s (maxIsolatedAmplitude v)); eauto.
Qed.

Lemma loop_total (buffer1 buffer2 : option AudioBuffer.t) (step : Q) :
  hasFirstChannel buffer1 -> hasFirstChannel buffer2 ->
  forall (n : nat) (i : Z) (v : Vars),
    exists v', loop n buffer1 buffer2 step i v = Ok v'.
Proof.
  intros H1 H2. induction n as [|n IH]; intros i v; cbn [loop]; [eauto|].
  destruct (body_total buffer1 buffer2 step i v H1 H2) as (v1 & ->).
  cbn [bind]. apply IH.
Qed.

(** After [n] iterations from counter [i]: [n] points were appended, the
    [k]-th of them at time [(i + k) * step] with the two window peaks as
    amplitudes, and each tracked time is the old one or one of these
    times. *)
Lemma loop_spec (buffer1 buffer2 : option AudioBuffer.t) (step : Q) :
  forall (n : nat) (i : Z) (v v' : Vars),
    loop n buffer1 buffer2 step i v = Ok v' ->
    exists new,
      data v' = data v ++ new /\
      List.length new = n /\
      (forall (k : nat) (p : AudioDataPoint),
         nth_error new k = Some p ->
         time p = (inject_Z (i + Z.of_nat k) * step)%Q /\
         peakOf buffer1 (time p) step = Ok (original p) /\
         peakOf buffer2 (time p) step = Ok (isolated p)) /\
      (maxOriginalTime v' = maxOriginalTime v \/
       exists k : nat, (k < n)%nat /\
         maxOriginalTime v' = (inject_Z (i + Z.of_nat k) * step)%Q) /\
      (maxIsolatedTime v' = maxIsolatedTime v \/
       exists k : nat, (k < n)%nat /\
         maxIsolatedTime v' = (inject_Z (i + Z.of_nat k) * step)%Q).
Proof.
  induction n as [|n IH]; intros i v v'; cbn [loop].
  - intros [= <-]. exists []. rewrite app_nil_r.
    split; [reflexivity|]. split; [reflexivity|].
    split; [intros [|k] q; discriminate|].
    split; left; reflexivity.
  - destruct (body buffer1 buffer2 step i v) as [v1|] eqn:Hbody;
      cbn [bind]; [|discriminate].
    intros Hloop.
    destruct (body_spec _ _ _ _ _ _ Hbody)
      as (p0 & Ht0 & Ho0 & Hs0 & Hdata0 & Hmo0 & Hmi0).
    destruct (IH _ _ _ Hloop) as (new & Hdata & Hlen & Hpts & Hmo & Hmi).
    exists (p0 :: new). split; [|split; [|split; [|split]]].
    + rewrite Hdata, Hdata0, <- app_assoc. reflexivity.
    + cbn [List.length]. congruence.
    + intros [|k] p; cbn [nth_error].
      * intros [= <-]. rewrite Z.add_0_r. auto.
      * intros Hk. destruct (Hpts k p Hk) as (Ht & Ho & Hs).
        replace (i + Z.of_nat (S k)) with (i + 1 + Z.of_nat k) by lia. auto.
    + destruct Hmo as [Hmo | (k & Hk & Hmo)].
      * destruct Hmo0 as [Hmo0 | Hmo0]; [left; congruence|].
        right. exists 0%nat. split; [lia|].
        rewrite Z.add_0_r, Hmo, Hmo0. exact Ht0.
      * right. exists (S k). split; [lia|].
        replace (i + Z.of_nat (S k)) with (i + 1 + Z.of_nat k) by lia. exact Hmo.
    + destruct Hmi as [Hmi | (k & Hk & Hmi)].
      * destruct Hmi0 as [Hmi0 | Hmi0]; [left; congruence|].
        right. exists 0%nat. split; [lia|].
        rewrite Z.add_0_r, Hmi, Hmi0. exact Ht0.
      * right. exists (S k). split; [lia|].
        replace (i + Z.of_nat (S k)) with (i + 1 + Z.of_nat k) by lia. exact Hmi.
Qed.

(** ** Durations and time slots *)

Lemma suppliedDuration_nonneg (buffer : option AudioBuffer.t) :
  (0 <= suppliedDuration buffer)%Q.
Proof.
  destruct buffer as [b|]; cbn [suppliedDuration]; [|apply Qle_refl].
  unfold AudioBuffer.duration, Qle. cbn [Qnum Qden]. lia.
Qed.

Lemma durationOf_supplied (buffer : option AudioBuffer.t) :
  (durationOf buffer == suppliedDuration buffer)%Q.
Proof.
  destruct buffer as [b|]; cbn [durationOf suppliedDuration]; [|reflexivity].
  unfold JsNumber.or_else.
  destruct (JsNumber.is_zero (AudioBuffer.duration b)) eqn:Hz; [|reflexivity].
  apply is_zero_true in Hz. symmetry. exact Hz.
Qed.

(** The duration the code works with is the larger of the supplied
    durations. *)
Lemma duration_supplied (buffer1 buffer2 : option AudioBuffer.t) :
  (Qmax (durationOf buffer1) (durationOf buffer2)
   == Qmax (suppliedDuration buffer1) (suppliedDuration buffer2))%Q.
Proof. apply Q.max_compat; apply durationOf_supplied. Qed.

Lemma duration_nonneg (buffer1 buffer2 : option AudioBuffer.t) :
  (0 <= Qmax (suppliedDuration buffer1) (suppliedDuration buffer2))%Q.
Proof.
  eapply Qle_trans; [apply (suppliedDuration_nonneg buffer1) | apply Q.le_max_l].
Qed.

Lemma step_times_samples (d : Q) (n : Z) :
  0 < n -> (inject_Z n * (d / inject_Z n) == d)%Q.
Proof.
  intros Hn. apply Qmult_div_r.
  intros Hz. assert (Hlt : (inject_Z 0 < inject_Z n)%Q) by (rewrite <- Zlt_Qlt; lia).
  rewrite Hz in Hlt. exact (Qlt_irrefl _ Hlt).
Qed.

Lemma step_positive (d : Q) (n : Z) :
  (0 < d)%Q -> 0 < n -> (0 < d / inject_Z n)%Q.
Proof.
  intros Hd Hn. apply Qlt_shift_div_l.
  - change 0%Q with (inject_Z 0). rewrite <- Zlt_Qlt. lia.
  - rewrite Qmult_0_l. exact Hd.
Qed.

(** Slot [k] of [n] starts before the end. *)
Lemma slot_before_end (d : Q) (n k : Z) :
  (0 < d)%Q -> 0 <= k < n -> (inject_Z k * (d / inject_Z n) < d)%Q.
Proof.
  intros Hd [Hk0 Hkn].
  assert (Hn : 0 < n) by lia.
  pose proof (step_times_samples d n Hn) as Hmul.
  pose proof (step_positive d n Hd Hn) as Hstep.
  assert (Hlt : (inject_Z k < inject_Z n)%Q) by (rewrite <- Zlt_Qlt; lia).
  set (x := (d / inject_Z n)%Q) in *.
  nra.
Qed.

Lemma slot_nonneg (d : Q) (n k : Z) :
  (0 < d)%Q -> 0 <= k < n -> (0 <= inject_Z k * (d / inject_Z n))%Q.
Proof.
  intros Hd [Hk0 Hkn].
  pose proof (step_positive d n Hd ltac:(lia)) as Hstep.
  assert (Hle : (inject_Z 0 <= inject_Z k)%Q) by (rewrite <- Zle_Qle; lia).
  change (inject_Z 0) with 0%Q in Hle.
  set (x := (d / inject_Z n)%Q) in *.
  nra.
Qed.

Lemma slot_increasing (step : Q) (k k' : Z) :
  (0 < step)%Q -> k < k' -> (inject_Z k * step < inject_Z k' * step)%Q.
Proof.
  intros Hstep Hlt.
  assert (HQ : (inject_Z k < inject_Z k')%Q) by (rewrite <- Zlt_Qlt; lia).
  nra.
Qed.

(** ** How [extractAudioPeaks] returns *)

Lemma extractAudioPeaks_cases (buffer1 buffer2 : option AudioBuffer.t)
    (samples : Z) (out : Peaks) :
  let duration := Qmax (durationOf buffer1) (durationOf buffer2) in
  extractAudioPeaks buffer1 buffer2 samples = Ok out ->
  ((duration == 0)%Q /\ out = noPeaks) \/
  (~ (duration == 0)%Q /\
   exists v,
     loop (Z.to_nat samples) buffer1 buffer2 (duration / inject_Z samples) 0 init
     = Ok v /\
     out = {| points := data v;
              originalPeakRegion :=
                region buffer1 duration (Qmin (duration * (1 # 10)) 5)
                       (maxOriginalTime v) (maxOriginalAmplitude v);
              isolatedPeakRegion :=
                region buffer2 duration (Qmin (duration * (1 # 10)) 5)
                       (maxIsolatedTime v) (maxIsolatedAmplitude v) |}).
Proof.
  intros duration. unfold extractAudioPeaks. fold duration.
  destruct (JsNumber.is_zero duration) eqn:Hz.
  - intros [= <-]. left. split; [apply is_zero_true; exact Hz | reflexivity].
  - destruct (loop (Z.to_nat samples) buffer1 buffer2
                (duration / inject_Z samples) 0 init) as [v|] eqn:Hloop;
      cbn [bind]; [|discriminate].
    intros [= <-]. right. split.
    + intros Hd. apply is_zero_true in Hd. congruence.
    + exists v. split; reflexivity.
Qed.

(** ** The points *)

(** With a positive duration and a positive sample count the extractor
    returns [samples] points, the [k]-th at [k * (duration / samples)];
    the times increase strictly and stay below the duration. *)
Lemma extractAudioPeaks_points (buffer1 buffer2 : option AudioBuffer.t)
    (samples : Z) :
  hasFirstChannel buffer1 ->
  hasFirstChannel buffer2 ->
  (0 < suppliedDuration buffer1 \/ 0 < suppliedDuration buffer2)%Q ->
  0 < samples ->
  let duration := Qmax (suppliedDuration buffer1) (suppliedDuration buffer2) in
  exists out,
    extractAudioPeaks buffer1 buffer2 samples = Ok out /\
    Z.of_nat (List.length (points out)) = samples /\
    (forall (k : nat) (p : AudioDataPoint),
       nth_error (points out) k = Some p ->
       (time p == inject_Z (Z.of_nat k) * (duration / inject_Z samples))%Q) /\
    (forall (j k : nat) (p q : AudioDataPoint),
       (j < k)%nat ->
       nth_error (points out) j = Some p ->
       nth_error (points out) k = Some q ->
       (time p < time q)%Q) /\
    (forall p : AudioDataPoint, In p (points out) -> (time p < duration)%Q).
Proof.
  intros H1 H2 Hpos Hsamples duration.
  pose proof (duration_supplied buffer1 buffer2) as Hd. fold duration in Hd.
  set (d := Qmax (durationOf buffer1) (durationOf buffer2)) in *.
  assert (Hdpos : (0 < duration)%Q).
  { unfold duration. apply Q.max_lt_iff. exact Hpos. }
  assert (Hdpos' : (0 < d)%Q) by (rewrite Hd; exact Hdpos).
  destruct (loop_total buffer1 buffer2 (d / inject_Z samples) H1 H2
              (Z.to_nat samples) 0 init) as (v & Hloop).
  destruct (loop_spec _ _ _ _ _ _ _ Hloop) as (new & Hdata & Hlen & Hpts & _).
  cbn [data init app] in Hdata.
  assert (Htime : forall (k : nat) (p : AudioDataPoint),
             nth_error new k = Some p ->
             time p = (inject_Z (Z.of_nat k) * (d / inject_Z samples))%Q).
  { intros k p Hk. destruct (Hpts k p Hk) as (Ht & _). exact Ht. }
  eexists. split.
  { unfold extractAudioPeaks. fold d.
    replace (JsNumber.is_zero d) with false.
    - rewrite Hloop. cbn [bind]. reflexivity.
    - symmetry. apply not_true_iff_false. intros Hz.
      apply is_zero_true in Hz. rewrite Hz in Hdpos'.
      exact (Qlt_irrefl _ Hdpos'). }
  cbn [points]. rewrite Hdata.
  split; [lia|]. split; [|split].
  - intros k p Hk. rewrite (Htime k p Hk), Hd. reflexivity.
  - intros j k p q Hjk Hj Hk.
    rewrite (Htime j p Hj), (Htime k q Hk).
    apply slot_increasing; [apply step_positive; assumption | lia].
  - intros p Hin. apply In_nth_error in Hin. destruct Hin as (k & Hk).
    assert (Hklt : (k < List.length new)%nat)
      by (apply nth_error_Some; congruence).
    rewrite (Htime k p Hk), <- Hd.
    apply slot_before_end; [exact Hdpos' | lia].
Qed.

(** C5. For every call with first channels present, a supplied buffer of
    positive duration and [samples > 0], the extractor returns exactly
    [samples] points; point [k] has time [k * (duration / samples)],
    [duration] being the larger supplied duration; times increase
    strictly and are below [duration].  For buffers of 10 s and 8 s and
    5 samples the times are 0, 2, 4, 6, 8. *)
Theorem extractAudioPeaks_time_slots :
  (forall (buffer1 buffer2 : option AudioBuffer.t) (samples : Z),
     hasFirstChannel buffer1 ->
     hasFirstChannel buffer2 ->
     (0 < suppliedDuration buffer1 \/ 0 < suppliedDuration buffer2)%Q ->
     0 < samples ->
     let duration := Qmax (suppliedDuration buffer1) (suppliedDuration buffer2) in
     exists out,
       extractAudioPeaks buffer1 buffer2 samples = Ok out /\
       Z.of_nat (List.length (points out)) = samples /\
       (forall (k : nat) (p : AudioDataPoint),
          nth_error (points out) k = Some p ->
          (time p == inject_Z (Z.of_nat k) * (duration / inject_Z samples))%Q) /\
       (forall (j k : nat) (p q : AudioDataPoint),
          (j < k)%nat ->
          nth_error (points out) j = Some p ->
          nth_error (points out) k = Some q ->
          (time p < time q)%Q) /\
       (forall p : AudioDataPoint, In p (points out) -> (time p < duration)%Q)) /\
  (forall b1 b2 : AudioBuffer.t,
     AudioBuffer.channels b1 <> [] ->
     AudioBuffer.channels b2 <> [] ->
     (AudioBuffer.duration b1 == 10)%Q ->
     (AudioBuffer.duration b2 == 8)%Q ->
     exists out,
       extractAudioPeaks (Some b1) (Some b2) 5 = Ok out /\
       Forall2 Qeq (map time (points out)) [0; 2; 4; 6; 8]%Q).
Proof.
  split; [exact extractAudioPeaks_points|].
  intros b1 b2 H1 H2 Hd1 Hd2.
  destruct (extractAudioPeaks_points (Some b1) (Some b2) 5 H1 H2)
    as (out & Hrun & Hlen & Htime & _); cbn [suppliedDuration].
  - left. rewrite Hd1. reflexivity.
  - lia.
  - exists out. split; [exact Hrun|].
    assert (Hmax : (Qmax (AudioBuffer.duration b1) (AudioBuffer.duration b2) == 10)%Q).
    { rewrite Hd1, Hd2. reflexivity. }
    cbn [suppliedDuration] in Htime.
    destruct (points out) as [|p0 [|p1 [|p2 [|p3 [|p4 [|p5 rest]]]]]];
      cbn [List.length] in Hlen; try lia.
    pose proof (Htime 0%nat p0 eq_refl) as E0.
    pose proof (Htime 1%nat p1 eq_refl) as E1.
    pose proof (Htime 2%nat p2 eq_refl) as E2.
    pose proof (Htime 3%nat p3 eq_refl) as E3.
    pose proof (Htime 4%nat p4 eq_refl) as E4.
    rewrite Hmax in E0, E1, E2, E3, E4.
    cbn [map].
    constructor; [rewrite E0; reflexivity|].
    constructor; [rewrite E1; reflexivity|].
    constructor; [rewrite E2; reflexivity|].
    constructor; [rewrite E3; reflexivity|].
    constructor; [rewrite E4; reflexivity|].
    constructor.
Qed.

Lemma extractAudioPeaks_time_slots_witness :
  (exists out,
     extractAudioPeaks (Some Samples.tenSeconds) (Some Samples.eightSeconds) 5
     = Ok out /\
     Z.of_nat (List.length (points out)) = 5 /\
     (forall p : AudioDataPoint, In p (points out) -> (time p < 10)%Q)) /\
  (exists out,
     extractAudioPeaks (Some Samples.tenSeconds) (Some Samples.eightSeconds) 5
     = Ok out /\
     Forall2 Qeq (map time (points out)) [0; 2; 4; 6; 8]%Q).
Proof.
  split.
  - destruct (proj1 extractAudioPeaks_time_slots
                (Some Samples.tenSeconds) (Some Samples.eightSeconds) 5)
      as (out & Hrun & Hlen & _ & _ & Hbelow);
      [discriminate | discriminate | left; reflexivity | reflexivity |].
    exists out. split; [exact Hrun|]. split; [exact Hlen|]. exact Hbelow.
  - apply (proj2 extractAudioPeaks_time_slots
             Samples.tenSeconds Samples.eightSeconds);
      [discriminate | discriminate | reflexivity | reflexivity].
Defined.

(** ** Degenerate inputs *)

(** What C7 states fails for a sample count of 0: for a supplied buffer
    of 64 s the extractor returns no points but still a peak region,
    from 0 to 2.5 s with amplitude 0. *)
Lemma extractAudioPeaks_zero_samples_emits_region :
  exists out r,
    extractAudioPeaks (Some Samples.silence64) None 0 = Ok out /\
    points out = [] /\
    originalPeakRegion out = Some r /\
    (start r == 0)%Q /\ (end_ r == 5 # 2)%Q /\ amplitude r = 0%Q.
Proof.
  eexists. eexists. split; [vm_compute; reflexivity|].
  cbn [points originalPeakRegion start end_ amplitude].
  repeat split.
Qed.

Lemma region_at_zero (buffer : option AudioBuffer.t) (d a : Q) (r : PeakRegion) :
  (0 <= d)%Q ->
  region buffer d (Qmin (d * (1 # 10)) 5) 0 a = Some r ->
  buffer <> None /\ (start r == 0)%Q /\ amplitude r = a.
Proof.
  intros Hd. destruct buffer as [b|]; cbn [region]; [|discriminate].
  intros [= <-]. cbn [start amplitude].
  split; [discriminate|]. split; [|reflexivity].
  apply Q.max_l.
  assert (Hw : (0 <= Qmin (d * (1 # 10)) 5)%Q)
    by (apply Q.min_glb; [lra | discriminate]).
  set (w := Qmin (d * (1 # 10)) 5) in *.
  unfold Qdiv. change (/ 2)%Q with (1 # 2)%Q. lra.
Qed.

(** C7, amended. The extractor returns the empty result, without
    throwing, when both buffers are absent and whenever the overall
    duration is 0.  For a sample count of 0 it returns, without throwing,
    no points; a peak region it then returns belongs to a supplied buffer,
    starts at 0 and has amplitude 0, and with a positive duration every
    supplied buffer gets one. *)
Theorem extractAudioPeaks_degenerate :
  (forall samples : Z, extractAudioPeaks None None samples = Ok noPeaks) /\
  (forall (buffer1 buffer2 : option AudioBuffer.t) (samples : Z),
     (Qmax (suppliedDuration buffer1) (suppliedDuration buffer2) == 0)%Q ->
     extractAudioPeaks buffer1 buffer2 samples = Ok noPeaks) /\
  (forall buffer1 buffer2 : option AudioBuffer.t,
     exists out,
       extractAudioPeaks buffer1 buffer2 0 = Ok out /\
       points out = [] /\
       (forall r, originalPeakRegion out = Some r ->
          buffer1 <> None /\ (start r == 0)%Q /\ amplitude r = 0%Q) /\
       (forall r, isolatedPeakRegion out = Some r ->
          buffer2 <> None /\ (start r == 0)%Q /\ amplitude r = 0%Q) /\
       ((0 < Qmax (suppliedDuration buffer1) (suppliedDuration buffer2))%Q ->
        (buffer1 <> None -> originalPeakRegion out <> None) /\
        (buffer2 <> None -> isolatedPeakRegion out <> None))).
Proof.
  split; [reflexivity|]. split.
  - intros buffer1 buffer2 samples Hzero.
    rewrite <- duration_supplied in Hzero.
    apply is_zero_true in Hzero.
    unfold extractAudioPeaks. rewrite Hzero. reflexivity.
  - intros buffer1 buffer2.
    pose proof (duration_supplied buffer1 buffer2) as Hd.
    pose proof (duration_nonneg buffer1 buffer2) as Hnonneg.
    unfold extractAudioPeaks.
    set (d := Qmax (durationOf buffer1) (durationOf buffer2)) in *.
    destruct (JsNumber.is_zero d) eqn:Hz.
    + exists noPeaks. split; [reflexivity|]. split; [reflexivity|].
      split; [discriminate|]. split; [discriminate|].
      intros Hpos. apply is_zero_true in Hz.
      rewrite <- Hd, Hz in Hpos. destruct (Qlt_irrefl _ Hpos).
    + cbn [Z.to_nat loop bind init data maxOriginalTime maxOriginalAmplitude
             maxIsolatedTime maxIsolatedAmplitude].
      eexists. split; [reflexivity|].
      cbn [points originalPeakRegion isolatedPeakRegion].
      assert (Hd0 : (0 <= d)%Q) by (rewrite Hd; exact Hnonneg).
      split; [reflexivity|].
      split; [intros r; apply region_at_zero; exact Hd0|].
      split; [intros r; apply region_at_zero; exact Hd0|].
      intros _. split.
      * destruct buffer1; cbn [region]; [discriminate | congruence].
      * destruct buffer2; cbn [region]; [discriminate | congruence].
Qed.

Lemma extractAudioPeaks_degenerate_witness :
  extractAudioPeaks (Some (AudioBuffer.make 8000 0 [[]])) None 500 = Ok noPeaks.
Proof.
  apply (proj1 (proj2 extractAudioPeaks_degenerate)). reflexivity.
Defined.

(** ** Peak regions *)


(** A tracked time is 0 or a slot start, hence within [0, duration]. *)
Lemma tracked_time_bounded (d : Q) (samples : Z) (t : Q) :
  (0 < d)%Q ->
  t = 0%Q \/
  (exists k : nat, (k < Z.to_nat samples)%nat /\
     t = (inject_Z (0 + Z.of_nat k) * (d / inject_Z samples))%Q) ->
  (0 <= t)%Q /\ (t <= d)%Q.
Proof.
  intros Hd [-> | (k & Hk & ->)].
  - split; [apply Qle_refl | apply Qlt_le_weak; exact Hd].
  - rewrite Z.add_0_l. split.
    + apply slot_nonneg; [exact Hd | lia].
    + apply Qlt_le_weak. apply slot_before_end; [exact Hd | lia].
Qed.




(** In the arithmetic of the program the regions around all 500 slots of
    a track of 7 s keep the bounds of the amended C8, and 208 of them are
    wider than the window. *)
Lemma peak_regions_in_binary64 :
  forallb (fun i => Binary64.bounded 7 (Binary64.regionAt 7 500 i))
          (Binary64.slots 500) = true /\
  List.length (filter (fun i => Binary64.wider 7 (Binary64.regionAt 7 500 i))
                      (Binary64.slots 500)) = 208%nat.
Proof. split; vm_compute; reflexivity. Qed.

(** ** Reads stay inside the channel *)

(** C10. [getPeak] returns for every window and reads the first channel
    only at indices below its length (and at or after the window start),
    also when the window reaches past the end of the channel; a point
    whose window starts at or beyond the end of a buffer's first channel
    has amplitude 0 for that buffer. *)
Theorem getPeak_reads_inside_channel :
  (forall (buffer : AudioBuffer.t) (startTime windowSize : Q)
          (channelData : list Q),
     AudioBuffer.getChannelData buffer 0 = Ok channelData ->
     exists m reads,
       getPeak_traced buffer startTime windowSize = Ok (m, reads) /\
       getPeak buffer startTime windowSize = Ok m /\
       Forall (fun j => startSample buffer startTime <= j
                        /\ j < Z.of_nat (List.length channelData)) reads) /\
  (forall (buffer1 buffer2 : option AudioBuffer.t) (samples : Z) (out : Peaks)
          (k : nat) (p : AudioDataPoint),
     extractAudioPeaks buffer1 buffer2 samples = Ok out ->
     nth_error (points out) k = Some p ->
     (forall (b : AudioBuffer.t) (channelData : list Q),
        buffer1 = Some b ->
        AudioBuffer.getChannelData b 0 = Ok channelData ->
        Z.of_nat (List.length channelData) <= startSample b (time p) ->
        original p = 0%Q) /\
     (forall (b : AudioBuffer.t) (channelData : list Q),
        buffer2 = Some b ->
        AudioBuffer.getChannelData b 0 = Ok channelData ->
        Z.of_nat (List.length channelData) <= startSample b (time p) ->
        isolated p = 0%Q)).
Proof.
  split; [exact getPeak_traced_spec|].
  intros buffer1 buffer2 samples out k p Hrun Hk.
  destruct (extractAudioPeaks_cases _ _ _ _ Hrun)
    as [(_ & ->) | (_ & v & Hloop & ->)].
  { destruct k; discriminate. }
  destruct (loop_spec _ _ _ _ _ _ _ Hloop) as (new & Hdata & _ & Hpts & _).
  cbn [points init data app] in Hk, Hdata. rewrite Hdata in Hk.
  destruct (Hpts k p Hk) as (_ & Ho & Hs).
  split; intros b channelData -> Hchannel Hbeyond; cbn [peakOf] in *.
  - rewrite (getPeak_beyond_end _ _ _ _ Hchannel Hbeyond) in Ho. congruence.
  - rewrite (getPeak_beyond_end _ _ _ _ Hchannel Hbeyond) in Hs. congruence.
Qed.

Lemma getPeak_reads_inside_channel_witness :
  (exists m reads,
     getPeak_traced Samples.eightSeconds 6 4 = Ok (m, reads) /\
     Forall (fun j => 6 <= j /\ j < 8) reads) /\
  (exists p : AudioDataPoint,
     nth_error (points Samples.tenEightPeaks) 4 = Some p /\ isolated p = 0%Q).
Proof.
  split.
  - destruct (proj1 getPeak_reads_inside_channel Samples.eightSeconds 6%Q 4%Q
                [0; 0; 0; 1; 0; 0; 0; 0]%Q eq_refl)
      as (m & reads & Hrun & _ & Hall).
    exists m, reads. split; [exact Hrun | exact Hall].
  - assert (Hrun : extractAudioPeaks (Some Samples.tenSeconds)
                     (Some Samples.eightSeconds) 5 = Ok Samples.tenEightPeaks)
      by (vm_compute; reflexivity).
    destruct (nth_error (points Samples.tenEightPeaks) 4) as [p|] eqn:Hp;
      [|discriminate].
    exists p. split; [reflexivity|].
    refine (proj2 (proj2 getPeak_reads_inside_channel _ _ _ _ 4%nat p Hrun Hp)
              Samples.eightSeconds [0; 0; 0; 1; 0; 0; 0; 0]%Q
              eq_refl eq_refl _).
    injection Hp as <-. vm_compute. discriminate.
Defined.

End PeakProperties.

(* ------------------------------------------------------------------------- *)
(** * Properties of the zoom and pan controls *)

Section GraphProperties.

Import WaveformGraph.

(** Brings [Qmax], [Qmin] and the comparisons of the handlers into linear
    arithmetic. *)
Ltac graph_cases :=
  unfold Qdiv in *; change (/ 2)%Q with (1 # 2)%Q in *;
  repeat match goal with
    | |- context [JsNumber.lt ?a ?b] =>
        let H := fresh "Hcmp" in
        destruct (JsNumber.lt a b) eqn:H;
        [apply lt_true in H | apply gt_false in H]
    | |- context [JsNumber.gt ?a ?b] =>
        let H := fresh "Hcmp" in
        destruct (JsNumber.gt a b) eqn:H;
        [apply gt_true in H | apply gt_false in H]
    end;
  cbn [fst snd] in *;
  repeat match goal with
    | |- context [Qmax ?a ?b] =>
        let m := fresh "m" in
        let H := fresh "Hm" in
        pose proof (Q.max_spec a b) as H; set (m := Qmax a b) in *; clearbody m
    | |- context [Qmin ?a ?b] =>
        let m := fresh "m" in
        let H := fresh "Hm" in
        pose proof (Q.min_spec a b) as H; set (m := Qmin a b) in *; clearbody m
    | _ : context [Qmax ?a ?b] |- _ =>
        let m := fresh "m" in
        let H := fresh "Hm" in
        pose proof (Q.max_spec a b) as H; set (m := Qmax a b) in *; clearbody m
    | _ : context [Qmin ?a ?b] |- _ =>
        let m := fresh "m" in
        let H := fresh "Hm" in
        pose proof (Q.min_spec a b) as H; set (m := Qmin a b) in *; clearbody m
    end;
  repeat match goal with
    | H : _ /\ _ |- _ => destruct H
    | H : _ \/ _ |- _ => destruct H
    end.












(** In the arithmetic of the program the span after two clicks on Zoom
    In, starting from the whole of a track of 1234567 samples at 44100 Hz,
    is not three quarters of the span before the second click, by one
    unit in the last place.  On every range that at most four clicks reach
    from the whole track, for this track and for one of 10 s, the results
    of the zoom and pan handlers keep the relations above. *)
Lemma zoom_and_pan_in_binary64 :
  (let once :=
     Binary64.handleZoomIn Binary64.trackLength (0%float, Binary64.trackLength) in
   let twice := Binary64.handleZoomIn Binary64.trackLength once in
   PrimFloat.eqb (snd twice - fst twice) ((snd once - fst once) * 0.75))%float
  = false /\
  forallb (fun duration =>
             forallb (fun domain =>
                        Binary64.zoomInOk duration domain
                        && Binary64.zoomOutOk duration domain
                        && Binary64.panOk duration domain
                        && Binary64.undoOk duration domain)
                     (Binary64.reach 4 duration [(0%float, duration)]))
          [Binary64.trackLength; 10%float]
  = true.
Proof. split; vm_compute; reflexivity. Qed.

(** At the edges the controls stop: at the left edge a pan to the left,
    at the right edge a pan to the right, and on the whole track a zoom
    out leave the range as it is. *)
Theorem controls_stop_at_edges (duration : Q) (domain : Domain) :
  inside duration domain ->
  ((fst domain == 0)%Q -> same (handlePanLeft duration domain) domain) /\
  ((snd domain == duration)%Q -> same (handlePanRight duration domain) domain) /\
  ((fst domain == 0)%Q -> (snd domain == duration)%Q ->
   same (handleZoomOut duration domain) domain).
Proof.
  destruct domain as [s e].
  unfold inside, same, span, handlePanLeft, handlePanRight, handleZoomOut.
  cbn [fst snd].
  intros (H0 & Hse & Hed).
  split; [|split]; intros; graph_cases; split; lra.
Qed.

Lemma controls_stop_at_edges_witness :
  same (handlePanLeft 10 (0, 4)%Q) (0, 4)%Q /\
  same (handlePanRight 10 (6, 10)%Q) (6, 10)%Q /\
  same (handleZoomOut 10 (0, 10)%Q) (0, 10)%Q.
Proof.
  split; [|split].
  - apply (controls_stop_at_edges 10 (0, 4)%Q); [|reflexivity].
    unfold inside; cbn [fst snd]. repeat split; discriminate.
  - apply (controls_stop_at_edges 10 (6, 10)%Q); [|reflexivity].
    unfold inside; cbn [fst snd]. repeat split; discriminate.
  - apply (controls_stop_at_edges 10 (0, 10)%Q); [|reflexivity|reflexivity].
    unfold inside; cbn [fst snd]. repeat split; discriminate.
Defined.

Lemma click_inside (duration : Q) (b : Button) (domain : Domain) :
  (0 <= duration)%Q -> inside duration domain ->
  inside duration (click duration b domain).
Proof.
  destruct domain as [s e].
  unfold inside, click, handlePanLeft, handlePanRight, handleZoomIn,
    handleZoomOut, handleReset.
  cbn [fst snd]. intros Hd (H0 & Hse & Hed).
  destruct b; graph_cases; repeat split; lra.
Qed.

(** Whatever buttons are clicked, the visible range stays inside the
    track. *)
Theorem clicks_stay_inside (duration : Q) (bs : list Button) :
  (0 <= duration)%Q -> inside duration (clicks duration bs).
Proof.
  intros Hd. unfold clicks.
  assert (Hinit : inside duration (0%Q, duration))
    by (unfold inside; cbn [fst snd]; repeat split; lra).
  revert Hinit. generalize (0%Q, duration) as domain.
  induction bs as [|b bs IH]; intros domain Hin; cbn [fold_left]; [exact Hin|].
  apply IH. apply click_inside; assumption.
Qed.

Lemma clicks_stay_inside_witness :
  inside 10 (clicks 10 [ZoomIn; ZoomIn; PanLeft; PanLeft; ZoomOut; PanRight]).
Proof.
  apply clicks_stay_inside. discriminate.
Defined.

End GraphProperties.

(* ------------------------------------------------------------------------- *)
(** * Properties of controller sessions *)

Section SessionProperties.

Import Playback Session.

(** Runs a handler on a component given by its fields. *)
Ltac run_handler :=
  cbv [handle handleAll rendered restartEffect endOfStream onEnded
       syncLoop handleGlobalPlayPause handleToggle1
       handleToggle2 handleSeek elapse
       run correct optional when ret bindM current state
       getCurrentTime getPaused read update setCurrentTime play pause
       setIsPlaying1 setIsPlaying2 setCurrentTime1 setCurrentTime2 setIsSynced
       requestAnimationFrame takeFrames element store playing anyPlaying
       nonePlaying Bool.eqb
       position option_map playingAt pausedAt withPaused
       videoOriginal videoMuted audioIsolated isSynced isPlaying1 isPlaying2
       currentTime1 currentTime2 frameRequested currentTime paused
       negb orb andb].

Ltac split_comparisons :=
  repeat (run_handler;
          match goal with
          | |- context [JsNumber.gt ?a ?b] => destruct (JsNumber.gt a b) eqn:?
          end);
  run_handler.

(** With all three transports attached a seek puts all of them at the
    requested time, linked or not, and sets both displayed times to it; it
    changes no play state, no flag and not the sync mode. *)
Theorem handleSeek_moves_all (s : Component) (l f g : MediaElement) (time : Q) :
  videoOriginal s = Some l ->
  videoMuted s = Some f ->
  audioIsolated s = Some g ->
  handleSeek time s
  = Ok (tt,
        {| videoOriginal := Some {| currentTime := time; paused := paused l |};
           videoMuted := Some {| currentTime := time; paused := paused f |};
           audioIsolated := Some {| currentTime := time; paused := paused g |};
           isSynced := isSynced s;
           isPlaying1 := isPlaying1 s; isPlaying2 := isPlaying2 s;
           currentTime1 := time; currentTime2 := time;
           frameRequested := frameRequested s |}).
Proof.
  destruct s as [v1 v2 a1 synced p1 p2 t1 t2 fr]; run_handler.
  intros -> -> ->. destruct synced; reflexivity.
Qed.

Lemma handleSeek_moves_all_witness :
  handleSeek 7 followersPlaying
  = Ok (tt,
        {| videoOriginal := Some (pausedAt 7);
           videoMuted := Some (playingAt 7);
           audioIsolated := Some (playingAt 7);
           isSynced := false; isPlaying1 := false; isPlaying2 := true;
           currentTime1 := 7; currentTime2 := 7; frameRequested := [] |}).
Proof.
  exact (handleSeek_moves_all followersPlaying
           (pausedAt 0) (playingAt 0) (playingAt 0) 7 eq_refl eq_refl eq_refl).
Defined.

Lemma Qabs_diff_self (x : Q) : (Qabs (x - x) <= tolerance)%Q.
Proof.
  assert (Hz : (x - x == 0)%Q) by ring.
  rewrite Hz. discriminate.
Qed.

(** The component after a call of [syncLoop] with all three transports
    attached. *)
Lemma syncLoop_attached (synced : bool) (s : Component) (l f g : MediaElement) :
  videoOriginal s = Some l ->
  videoMuted s = Some f ->
  audioIsolated s = Some g ->
  syncLoop synced s
  = Ok (tt,
        {| videoOriginal := Some l;
           videoMuted := Some (follow (synced && negb (paused l)) l f);
           audioIsolated := Some (follow (synced && negb (paused l)) l g);
           isSynced := isSynced s;
           isPlaying1 := isPlaying1 s; isPlaying2 := isPlaying2 s;
           currentTime1 := currentTime l; currentTime2 := currentTime f;
           frameRequested :=
             if paused l && paused f && paused g
             then frameRequested s else frameRequested s ++ [synced] |}).
Proof.
  destruct s as [v1 v2 a1 linked p1 p2 t1 t2 fr]. cbv [videoOriginal videoMuted audioIsolated].
  intros -> -> ->.
  destruct l as [lt lp], f as [ft fp], g as [gt gp].
  destruct synced, lp, fp, gp; cbv [follow isSynced frameRequested isPlaying1 isPlaying2 andb negb currentTime paused];
    split_comparisons; reflexivity.
Qed.

(** A call of [syncLoop] with a transport unattached does nothing. *)
Lemma syncLoop_unattached (synced : bool) (s : Component) :
  videoOriginal s = None \/ videoMuted s = None \/ audioIsolated s = None ->
  syncLoop synced s = Ok (tt, s).
Proof.
  destruct s as [[l|] [f|] [g|] linked p1 p2 t1 t2 fr]; run_handler;
    intros H; try reflexivity; decompose [or] H; discriminate.
Qed.

Lemma follow_within_tolerance (l f : MediaElement) :
  (Qabs (currentTime (follow true l f) - currentTime l) <= tolerance)%Q.
Proof.
  unfold follow. cbn [andb].
  destruct (JsNumber.gt (Qabs (currentTime f - currentTime l)) tolerance) eqn:Hgt.
  - cbn [currentTime]. apply Qabs_diff_self.
  - apply gt_false. exact Hgt.
Qed.

Lemma follow_paused (active : bool) (l f : MediaElement) :
  paused (follow active l f) = paused f.
Proof.
  unfold follow.
  destruct (active && JsNumber.gt (Qabs (currentTime f - currentTime l)) tolerance);
    reflexivity.
Qed.

Lemma follow_twice (active : bool) (l f : MediaElement) :
  follow active l (follow active l f) = follow active l f.
Proof.
  destruct active; [|reflexivity].
  pose proof (follow_within_tolerance l f) as Hin.
  apply gt_false in Hin.
  unfold follow at 1. cbn [andb]. rewrite Hin. reflexivity.
Qed.

(** After a call, with all three transports attached, of the [syncLoop]
    that closed over [isSynced = true], with the leader playing, both
    followers are within the tolerance of the leader; and whatever the
    function closed over, a second call of the same function right after
    the first moves no transport. *)
Theorem syncLoop_settles (synced : bool) (s : Component) (l f g : MediaElement) :
  videoOriginal s = Some l ->
  videoMuted s = Some f ->
  audioIsolated s = Some g ->
  exists s' f' g',
    syncLoop synced s = Ok (tt, s') /\
    videoMuted s' = Some f' /\
    audioIsolated s' = Some g' /\
    (synced = true -> paused l = false ->
       (Qabs (currentTime f' - currentTime l) <= tolerance)%Q /\
       (Qabs (currentTime g' - currentTime l) <= tolerance)%Q) /\
    exists s'',
      syncLoop synced s' = Ok (tt, s'') /\
      videoOriginal s'' = videoOriginal s' /\
      videoMuted s'' = videoMuted s' /\
      audioIsolated s'' = audioIsolated s'.
Proof.
  intros Hl Hf Hg.
  eexists _, _, _. split; [exact (syncLoop_attached synced s l f g Hl Hf Hg)|].
  cbn [videoMuted audioIsolated videoOriginal].
  split; [reflexivity|]. split; [reflexivity|]. split.
  - intros -> ->. cbn [andb negb].
    split; apply follow_within_tolerance.
  - eexists. split; [apply syncLoop_attached; reflexivity|].
    cbn [videoMuted audioIsolated videoOriginal isSynced].
    rewrite !follow_twice. repeat split.
Qed.

Lemma syncLoop_settles_witness :
  exists s' f' g',
    syncLoop true drifting = Ok (tt, s') /\
    videoMuted s' = Some f' /\
    audioIsolated s' = Some g' /\
    (Qabs (currentTime f' - 10) <= tolerance)%Q /\
    (Qabs (currentTime g' - 10) <= tolerance)%Q.
Proof.
  destruct (syncLoop_settles true drifting
              (playingAt 10) (playingAt 9) (playingAt (81 # 8))
              eq_refl eq_refl eq_refl)
    as (s' & f' & g' & Hrun & Hf & Hg & Hnear & _).
  exists s', f', g'. split; [exact Hrun|]. split; [exact Hf|].
  split; [exact Hg|]. exact (Hnear eq_refl eq_refl).
Defined.

(** A call of [syncLoop] with all three transports attached records the
    leader's position and the position the muted video had before any
    correction as the displayed times, and passes itself to
    [requestAnimationFrame] exactly when some transport is playing; it
    changes no play state, no flag and not the sync mode.  With a
    transport unattached a call does nothing.  This holds for the
    function of every render. *)
Theorem syncLoop_samples_and_rearms (synced : bool) (s : Component) :
  (forall l f g : MediaElement,
     videoOriginal s = Some l ->
     videoMuted s = Some f ->
     audioIsolated s = Some g ->
     exists s' f' g',
       syncLoop synced s = Ok (tt, s') /\
       currentTime1 s' = currentTime l /\
       currentTime2 s' = currentTime f /\
       frameRequested s'
       = (if anyPlaying s then frameRequested s ++ [synced]
          else frameRequested s) /\
       videoOriginal s' = Some l /\
       videoMuted s' = Some f' /\ paused f' = paused f /\
       audioIsolated s' = Some g' /\ paused g' = paused g /\
       isSynced s' = isSynced s /\
       isPlaying1 s' = isPlaying1 s /\
       isPlaying2 s' = isPlaying2 s) /\
  (videoOriginal s = None \/ videoMuted s = None \/ audioIsolated s = None ->
   syncLoop synced s = Ok (tt, s)).
Proof.
  split.
  - intros l f g Hl Hf Hg.
    eexists _, (follow (synced && negb (paused l)) l f),
      (follow (synced && negb (paused l)) l g).
    split; [exact (syncLoop_attached synced s l f g Hl Hf Hg)|].
    cbn [currentTime1 currentTime2 frameRequested videoOriginal videoMuted
         audioIsolated isSynced isPlaying1 isPlaying2].
    split; [reflexivity|]. split; [reflexivity|]. split.
    { unfold anyPlaying, playing, element. rewrite Hl, Hf, Hg.
      destruct (paused l), (paused f), (paused g); reflexivity. }
    split; [reflexivity|]. split; [reflexivity|].
    split; [apply follow_paused|]. split; [reflexivity|].
    split; [apply follow_paused|]. repeat split.
  - apply syncLoop_unattached.
Qed.

Lemma syncLoop_samples_and_rearms_witness :
  syncLoop true leaderDetached = Ok (tt, leaderDetached) /\
  exists s',
    syncLoop false drifting = Ok (tt, s') /\
    currentTime1 s' = 10%Q /\
    currentTime2 s' = 9%Q /\
    frameRequested s' = [true; false] /\
    isSynced s' = true.
Proof.
  split.
  - apply (proj2 (syncLoop_samples_and_rearms true leaderDetached)).
    left. reflexivity.
  - destruct (proj1 (syncLoop_samples_and_rearms false drifting)
                (playingAt 10) (playingAt 9) (playingAt (81 # 8))
                eq_refl eq_refl eq_refl)
      as (s' & f' & g' & Hrun & H1 & H2 & Hfr & _ & _ & _ & _ & _ & Hs & _).
    exists s'. split; [exact Hrun|]. split; [exact H1|]. split; [exact H2|].
    split; [exact Hfr | exact Hs].
Defined.

(** ** Stale callbacks *)

(** C2. What C2 states fails for the running component.  Linked playback
    is started and a frame passes; the link button is clicked, the muted
    video is clicked, which pauses the two followers, and a quarter of a
    second passes.  The component is now unlinked, the leader plays at
    0.25 s, the followers are paused at 0 s, and the callback requested
    first is still the [syncLoop] made while linked, which has passed
    itself on at every frame.  At the next frame that callback seeks both
    followers to 0.25 s, although the component is unlinked; the
    [syncLoop] of the current render would have left them where they
    are. *)
Theorem stale_syncLoop_seeks_while_unlinked :
  exists s s' s'',
    handleAll unlinkedWhilePlaying mounted = Ok (tt, s) /\
    isSynced s = false /\
    frameRequested s = [true; false; false] /\
    playing videoOriginalRef s = true /\
    isAt videoOriginalRef (1 # 4) s = true /\
    playing videoMutedRef s = false /\
    isAt videoMutedRef 0 s = true /\
    playing audioIsolatedRef s = false /\
    isAt audioIsolatedRef 0 s = true /\
    handle Frame s = Ok (tt, s') /\
    isSynced s' = false /\
    isAt videoMutedRef (1 # 4) s' = true /\
    isAt audioIsolatedRef (1 # 4) s' = true /\
    syncLoop (isSynced s) s = Ok (tt, s'') /\
    isAt videoMutedRef 0 s'' = true /\
    isAt audioIsolatedRef 0 s'' = true.
Proof.
  eexists _, _, _.
  split; [lazy; reflexivity|].
  split; [reflexivity|]. split; [reflexivity|].
  split; [reflexivity|]. split; [reflexivity|].
  split; [reflexivity|]. split; [reflexivity|].
  split; [reflexivity|]. split; [reflexivity|].
  split; [lazy; reflexivity|].
  split; [reflexivity|]. split; [reflexivity|]. split; [reflexivity|].
  split; [lazy; reflexivity|].
  split; reflexivity.
Qed.

(** ** Sessions *)

(** A call of [syncLoop] leaves the controls as they are. *)
Lemma syncLoop_controls (synced : bool) (s : Component) :
  exists s', syncLoop synced s = Ok (tt, s') /\ controls s' = controls s.
Proof.
  destruct (videoOriginal s) as [l|] eqn:Hl;
    [destruct (videoMuted s) as [f|] eqn:Hf;
     [destruct (audioIsolated s) as [g|] eqn:Hg|]|].
  - eexists. split; [exact (syncLoop_attached synced s l f g Hl Hf Hg)|].
    unfold controls. cbn [videoOriginal videoMuted audioIsolated isSynced
                          isPlaying1 isPlaying2 option_map].
    rewrite Hl, Hf, Hg. cbn [option_map]. rewrite !follow_paused. reflexivity.
  - exists s. split; [|reflexivity].
    apply syncLoop_unattached. right. right. exact Hg.
  - exists s. split; [|reflexivity].
    apply syncLoop_unattached. right. left. exact Hf.
  - exists s. split; [|reflexivity].
    apply syncLoop_unattached. left. exact Hl.
Qed.

Lemma callAll_controls (callbacks : list bool) (s : Component) :
  exists s', callAll callbacks s = Ok (tt, s') /\ controls s' = controls s.
Proof.
  revert s. induction callbacks as [|synced rest IH]; intros s; cbn [callAll].
  - exists s. split; reflexivity.
  - destruct (syncLoop_controls synced s) as (s1 & Hrun & H1).
    destruct (IH s1) as (s2 & Hrest & H2).
    exists s2. split; [|congruence].
    unfold bindM. rewrite Hrun. exact Hrest.
Qed.

(** An animation frame leaves the controls as they are. *)
Lemma animationFrame_controls (s : Component) :
  exists s', animationFrame s = Ok (tt, s') /\ controls s' = controls s.
Proof.
  unfold animationFrame, bindM, takeFrames.
  match goal with
  | |- context [callAll ?cs ?s0] =>
      destruct (callAll_controls cs s0) as (s' & Hrun & Hc)
  end.
  exists s'. split; [exact Hrun|]. rewrite Hc. reflexivity.
Qed.

Lemma controls_attached (s s' : Component) :
  controls s' = controls s ->
  (forall v1, videoOriginal s = Some v1 ->
     exists v1', videoOriginal s' = Some v1' /\ paused v1' = paused v1) /\
  (forall v2, videoMuted s = Some v2 ->
     exists v2', videoMuted s' = Some v2' /\ paused v2' = paused v2) /\
  (forall a1, audioIsolated s = Some a1 ->
     exists a1', audioIsolated s' = Some a1' /\ paused a1' = paused a1) /\
  isSynced s' = isSynced s /\
  isPlaying1 s' = isPlaying1 s /\
  isPlaying2 s' = isPlaying2 s.
Proof.
  unfold controls. intros [= H1 H2 H3 H4 H5 H6].
  repeat split; try assumption.
  - intros v1 Hv. rewrite Hv in H1.
    destruct (videoOriginal s') as [v1'|]; [|discriminate].
    injection H1 as H1. eauto.
  - intros v2 Hv. rewrite Hv in H2.
    destruct (videoMuted s') as [v2'|]; [|discriminate].
    injection H2 as H2. eauto.
  - intros a1 Hv. rewrite Hv in H3.
    destruct (audioIsolated s') as [a1'|]; [|discriminate].
    injection H3 as H3. eauto.
Qed.

Lemma mirrored_controls (s s' : Component) :
  controls s' = controls s -> mirrored s -> mirrored s'.
Proof.
  intros Hc (v1 & v2 & a1 & H1 & H2 & H3 & Hp1 & Hp2).
  destruct (controls_attached s s' Hc) as (C1 & C2 & C3 & _ & C5 & C6).
  destruct (C1 _ H1) as (v1' & ? & ?), (C2 _ H2) as (v2' & ? & ?),
    (C3 _ H3) as (a1' & ? & ?).
  exists v1', v2', a1'. repeat split; congruence.
Qed.

Lemma paired_controls (s s' : Component) :
  controls s' = controls s -> paired s -> paired s'.
Proof.
  intros Hc (v2 & a1 & H2 & H3 & Hp).
  destruct (controls_attached s s' Hc) as (_ & C2 & C3 & _).
  destruct (C2 _ H2) as (v2' & ? & ?), (C3 _ H3) as (a1' & ? & ?).
  exists v2', a1'. repeat split; congruence.
Qed.

Lemma inStep_controls (s s' : Component) :
  controls s' = controls s -> inStep s -> inStep s'.
Proof.
  intros Hc (v1 & v2 & a1 & H1 & H2 & H3 & Hp2 & Hpa).
  destruct (controls_attached s s' Hc) as (C1 & C2 & C3 & _).
  destruct (C1 _ H1) as (v1' & ? & ?), (C2 _ H2) as (v2' & ? & ?),
    (C3 _ H3) as (a1' & ? & ?).
  exists v1', v2', a1'. repeat split; congruence.
Qed.

(** Every event keeps the flags mirrored. *)
Lemma handle_mirrored (e : Event) (s : Component) :
  mirrored s -> exists s', handle e s = Ok (tt, s') /\ mirrored s'.
Proof.
  intros Hinv.
  destruct e as [c| | |dt|r];
    try (destruct (animationFrame_controls s) as (s' & Hrun & Hc);
         exists s'; split; [exact Hrun|];
         exact (mirrored_controls s s' Hc Hinv)).
  all: destruct Hinv as (v1 & v2 & a1 & H1 & H2 & H3 & Hp1 & Hp2).
  all: destruct s as [o m a linked p1 p2 t1 t2 fr].
  all: cbv [videoOriginal videoMuted audioIsolated isPlaying1 isPlaying2] in *.
  all: subst o m a p1 p2.
  all: destruct v1 as [lt lp], v2 as [ft fp], a1 as [gt gp].
  all: try destruct c as [| | |time]; try destruct r.
  all: destruct linked, lp, fp, gp;
    split_comparisons;
    (eexists; split; [reflexivity|]);
    (eexists _, _, _; repeat split).
Qed.

(** Every event other than the end of a follower keeps the muted video
    and the isolated audio in the same play state. *)
Lemma handle_paired (e : Event) (s s' : Component) :
  isFollowerEnded e = false ->
  paired s ->
  handle e s = Ok (tt, s') ->
  paired s'.
Proof.
  intros He Hinv.
  destruct e as [c| | |dt|r];
    try (destruct (animationFrame_controls s) as (s1 & Hrun & Hc);
         cbn [handle]; rewrite Hrun; intros [= <-];
         exact (paired_controls s s1 Hc Hinv)).
  all: destruct Hinv as (v2 & a1 & H2 & H3 & Hp).
  all: destruct s as [o m a linked p1 p2 t1 t2 fr].
  all: cbv [videoMuted audioIsolated] in *.
  all: subst m a.
  all: destruct v2 as [ft fp], a1 as [gt gp].
  all: cbv [paused] in Hp; subst gp.
  all: try destruct c as [| | |time]; try destruct r; try discriminate.
  all: destruct o as [[lt lp]|]; [destruct lp|]; destruct linked, fp, p1, p2;
    split_comparisons;
    intros [= <-];
    (eexists _, _; repeat split).
Qed.

Lemma handleAll_mirrored (es : list Event) (s0 : Component) :
  mirrored s0 ->
  exists s,
    handleAll es s0 = Ok (tt, s) /\ mirrored s /\
    (paired s0 ->
     forallb (fun e => negb (isFollowerEnded e)) es = true ->
     paired s).
Proof.
  revert s0. induction es as [|e es IH]; intros s0 Hinv; cbn [handleAll].
  - exists s0. split; [reflexivity|]. split; [exact Hinv|]. intros Hp _. exact Hp.
  - destruct (handle_mirrored e s0 Hinv) as (s1 & Hrun & Hinv1).
    destruct (IH s1 Hinv1) as (s2 & Hrest & Hinv2 & Hpaired).
    exists s2. split; [|split; [exact Hinv2|]].
    + unfold bindM. rewrite Hrun. exact Hrest.
    + intros Hp Hes. cbn [forallb] in Hes.
      apply andb_true_iff in Hes. destruct Hes as (He & Hes).
      apply negb_true_iff in He.
      apply Hpaired; [|exact Hes].
      exact (handle_paired e s0 s1 He Hp Hrun).
Qed.

Lemma mounted_mirrored : mirrored mounted.
Proof. eexists _, _, _. repeat split. Qed.

Lemma mounted_paired : paired mounted.
Proof. eexists _, _. repeat split. Qed.

(** In every session that starts from the mounted component, whatever the
    commands, link clicks, animation frames, pauses and ends of media in
    between, no event throws, the three transports stay attached, the flag
    [isPlaying1] tells the play state of the original video and the flag
    [isPlaying2] the play state of the isolated audio.  As long as neither
    the muted video nor the isolated audio has reached its end, these two
    are in the same play state. *)
Theorem session_keeps_flags_mirrored (es : list Event) :
  exists s,
    handleAll es mounted = Ok (tt, s) /\ mirrored s /\
    (forallb (fun e => negb (isFollowerEnded e)) es = true -> paired s).
Proof.
  destruct (handleAll_mirrored es mounted mounted_mirrored)
    as (s & Hrun & Hinv & Hpaired).
  exists s. split; [exact Hrun|]. split; [exact Hinv|].
  exact (Hpaired mounted_paired).
Qed.

Lemma session_keeps_flags_mirrored_witness :
  exists s,
    handleAll [Do Toggle1; Elapse 3; Frame; Ended videoOriginalRef;
               LinkToggle; Do Toggle2] mounted
    = Ok (tt, s) /\
    mirrored s /\ paired s.
Proof.
  destruct (session_keeps_flags_mirrored
              [Do Toggle1; Elapse 3; Frame; Ended videoOriginalRef;
               LinkToggle; Do Toggle2])
    as (s & Hrun & Hinv & Hpaired).
  exists s. split; [exact Hrun|]. split; [exact Hinv|].
  apply Hpaired. reflexivity.
Defined.

(** At any point of a session that starts from the mounted component, the
    global button pauses all three transports when the original video is
    playing and starts all three when it is paused: afterwards the three
    are in the same play state, the opposite of the one the original video
    was in. *)
Theorem globalPlayPause_in_session (es : list Event) :
  exists s s' v1 v1',
    handleAll es mounted = Ok (tt, s) /\
    handleGlobalPlayPause s = Ok (tt, s') /\
    inStep s' /\
    videoOriginal s = Some v1 /\
    videoOriginal s' = Some v1' /\
    paused v1' = negb (paused v1).
Proof.
  destruct (handleAll_mirrored es mounted mounted_mirrored)
    as (s & Hrun & Hinv & _).
  destruct Hinv as (v1 & v2 & a1 & H1 & H2 & H3 & Hp1 & Hp2).
  destruct s as [o m a linked p1 p2 t1 t2 fr].
  cbv [videoOriginal videoMuted audioIsolated isPlaying1 isPlaying2] in *.
  subst o m a p1 p2.
  destruct v1 as [lt lp], v2 as [ft fp], a1 as [gt gp].
  destruct linked, lp, fp, gp;
    (eexists _, _, _, _; split; [exact Hrun|];
     split; [run_handler; reflexivity|];
     split; [eexists _, _, _; repeat split|];
     split; [reflexivity|]; split; reflexivity).
Qed.

(** While linked, every event other than a link click and the end of a
    transport's media keeps the three transports in the same play state. *)
Lemma handle_inStep (e : Event) (s : Component) :
  isLinkToggle e = false ->
  isEnded e = false ->
  isSynced s = true ->
  inStep s ->
  exists s', handle e s = Ok (tt, s') /\ isSynced s' = true /\ inStep s'.
Proof.
  intros He He' Hsynced Hinv.
  destruct e as [c| | |dt|r]; try discriminate.
  2: { destruct (animationFrame_controls s) as (s' & Hrun & Hc).
       exists s'. split; [exact Hrun|]. split.
       - destruct (controls_attached s s' Hc) as (_ & _ & _ & C4 & _). congruence.
       - exact (inStep_controls s s' Hc Hinv). }
  all: destruct Hinv as (v1 & v2 & a1 & H1 & H2 & H3 & Hp2 & Hpa).
  all: destruct s as [o m a linked p1 p2 t1 t2 fr].
  all: cbv [videoOriginal videoMuted audioIsolated isSynced] in *.
  all: subst o m a linked.
  all: destruct v1 as [lt lp], v2 as [ft fp], a1 as [gt gp].
  all: cbv [paused] in Hp2, Hpa; subst fp gp.
  all: try destruct c as [| | |time].
  all: destruct lp, p1, p2;
    split_comparisons;
    (eexists; split; [reflexivity|]; split; [reflexivity|]);
    (eexists _, _, _; repeat split).
Qed.

(** A session that starts linked with the three transports in the same
    play state, and in which the link button is not clicked and no
    transport reaches the end of its media, never throws, stays linked and
    keeps the three transports in the same play state: no command starts
    or stops only some of them. *)
Theorem linked_session_stays_in_step (es : list Event) (s : Component) :
  forallb (fun e => negb (isLinkToggle e) && negb (isEnded e)) es = true ->
  isSynced s = true ->
  inStep s ->
  exists s', handleAll es s = Ok (tt, s') /\ isSynced s' = true /\ inStep s'.
Proof.
  revert s. induction es as [|e es IH]; intros s Hes Hsynced Hinv;
    cbn [handleAll].
  - exists s. split; [reflexivity|]. split; assumption.
  - cbn [forallb] in Hes. apply andb_true_iff in Hes. destruct Hes as (He & Hes).
    apply andb_true_iff in He. destruct He as (He1 & He2).
    apply negb_true_iff in He1, He2.
    destruct (handle_inStep e s He1 He2 Hsynced Hinv) as (s1 & Hrun & Hs1 & Hinv1).
    destruct (IH s1 Hes Hs1 Hinv1) as (s2 & Hrest & Hs2 & Hinv2).
    exists s2. split; [|split; assumption].
    unfold bindM. rewrite Hrun. exact Hrest.
Qed.

Lemma linked_session_stays_in_step_witness :
  exists s',
    handleAll [Do Toggle1; Elapse 3; Frame; Do (Seek 1); Do Toggle2;
               Do GlobalPlayPause] mounted
    = Ok (tt, s') /\
    isSynced s' = true /\ inStep s'.
Proof.
  apply linked_session_stays_in_step; [reflexivity | reflexivity |].
  eexists _, _, _. repeat split.
Defined.

End SessionProperties.

(* ------------------------------------------------------------------------- *)
(** * Properties of the formatting helpers *)

Section FormatProperties.

Import Format.


Lemma trunc_nonneg (x : Q) : (0 <= x)%Q -> JsNumber.trunc x = Qfloor x.
Proof.
  destruct x as [n d]. unfold Qle, JsNumber.trunc, Qfloor. cbn [Qnum Qden].
  intros Hn. apply Z.quot_div_nonneg; lia.
Qed.

(** For a non-negative [x] and a positive integer [y], [x % y] is [x]
    minus the largest multiple of [y] below it. *)
Lemma rem_nonneg (x : Q) (y : Z) :
  (0 <= x)%Q -> 0 < y ->
  (rem x (inject_Z y) == x - inject_Z (y * Qfloor (x / inject_Z y)))%Q /\
  (0 <= rem x (inject_Z y))%Q /\ (rem x (inject_Z y) < inject_Z y)%Q.
Proof.
  intros Hx Hy.
  assert (HyQ : (0 < inject_Z y)%Q)
    by (change 0%Q with (inject_Z 0); rewrite <- Zlt_Qlt; lia).
  assert (Hdiv : (0 <= x / inject_Z y)%Q).
  { apply Qle_shift_div_l; [exact HyQ|]. rewrite Qmult_0_l. exact Hx. }
  unfold rem. rewrite (trunc_nonneg _ Hdiv).
  set (k := Qfloor (x / inject_Z y)).
  pose proof (Qfloor_le (x / inject_Z y)) as Hlo.
  pose proof (Qlt_floor (x / inject_Z y)) as Hhi.
  fold k in Hlo, Hhi.
  assert (Hmul : (inject_Z y * (x / inject_Z y) == x)%Q).
  { apply Qmult_div_r. intros Hz. rewrite Hz in HyQ. exact (Qlt_irrefl _ HyQ). }
  rewrite inject_Z_plus in Hhi. change (inject_Z 1) with 1%Q in Hhi.
  rewrite inject_Z_mult.
  set (q := (x / inject_Z y)%Q) in *.
  set (Y := inject_Z y) in *. set (K := inject_Z k) in *.
  split; [reflexivity|]. split; nra.
Qed.

(** Ranges of the three printed numbers. *)
Lemma formatTime_fields_bounds (seconds : Q) :
  (0 <= seconds)%Q ->
  0 <= minutes seconds /\
  0 <= wholeSeconds seconds <= 59 /\
  0 <= hundredths seconds <= 99.
Proof.
  intros Hx.
  destruct (rem_nonneg seconds 60 Hx ltac:(lia)) as (_ & Hr0 & Hr60).
  destruct (rem_nonneg seconds 1 Hx ltac:(lia)) as (_ & Hf0 & Hf1).
  change (inject_Z 60) with 60%Q in *. change (inject_Z 1) with 1%Q in *.
  split; [|split; split].
  - unfold minutes. change 0 with (Qfloor 0). apply Qfloor_resp_le.
    apply Qle_shift_div_l; [reflexivity|]. rewrite Qmult_0_l. exact Hx.
  - unfold wholeSeconds. change 0 with (Qfloor 0). apply Qfloor_resp_le. exact Hr0.
  - unfold wholeSeconds. pose proof (Qfloor_le (rem seconds 60)) as Hlo.
    assert (Hlt : (inject_Z (Qfloor (rem seconds 60)) < inject_Z 60)%Q)
      by (change (inject_Z 60) with 60%Q; lra).
    rewrite <- Zlt_Qlt in Hlt. lia.
  - unfold hundredths. change 0 with (Qfloor 0). apply Qfloor_resp_le. lra.
  - unfold hundredths. pose proof (Qfloor_le (rem seconds 1 * 100)) as Hlo.
    assert (Hlt : (inject_Z (Qfloor (rem seconds 1 * 100)) < inject_Z 100)%Q)
      by (change (inject_Z 100) with 100%Q; lra).
    rewrite <- Zlt_Qlt in Hlt. lia.
Qed.




(** In the arithmetic of the program the hundredths of 0.15 s come out as
    15, one more than the hundredths of that number cut off, 14: the
    number is just below 15/100 and the multiplication by 100 rounds up to
    15.  On every hundredth of a second below 20 s the printed numbers
    keep the relations above. *)
Lemma formatTime_fields_in_binary64 :
  Binary64.hundredths 0.15 = 15 /\
  hundredths (Binary64.toQ 0.15) = 14 /\
  forallb (fun k => Binary64.fieldsOk (Binary64.ofZ k / 100))
          (Binary64.slots 2000) = true.
Proof. repeat split; vm_compute; reflexivity. Qed.

Lemma padStart_twoDigits (n : Z) :
  0 <= n <= 99 -> padStart 2 "0" (toString n) = twoDigits n.
Proof.
  intros Hn.
  assert (Hall : forallb
                   (fun k => String.eqb (padStart 2 "0" (toString (Z.of_nat k)))
                                        (twoDigits (Z.of_nat k)))
                   (seq 0 100) = true) by (vm_compute; reflexivity).
  rewrite forallb_forall in Hall.
  specialize (Hall (Z.to_nat n)).
  rewrite Z2Nat.id in Hall by lia.
  apply String.eqb_eq. apply Hall. apply in_seq. lia.
Qed.

(** For a time from 0 up to, but not including, 100 minutes the text is
    exactly eight characters: minutes, seconds and hundredths with two
    digits each, as [MM:SS.cc]. *)
Theorem formatTime_shape (seconds : Q) :
  (0 <= seconds)%Q -> (seconds < 6000)%Q ->
  formatTime seconds
  = (twoDigits (minutes seconds) ++ ":" ++ twoDigits (wholeSeconds seconds)
     ++ "." ++ twoDigits (hundredths seconds))%string /\
  String.length (formatTime seconds) = 8%nat.
Proof.
  intros H0 Hlt.
  destruct (formatTime_fields_bounds seconds H0) as (Hm0 & Hs & Hcs).
  assert (Hm : minutes seconds <= 99).
  { unfold minutes.
    pose proof (Qfloor_le (seconds / 60)) as Hfl.
    assert (Hq : (seconds / 60 < 100)%Q)
      by (apply Qlt_shift_div_r; [reflexivity | lra]).
    assert (Hz : (inject_Z (Qfloor (seconds / 60)) < inject_Z 100)%Q)
      by (change (inject_Z 100) with 100%Q; lra).
    rewrite <- Zlt_Qlt in Hz. lia. }
  assert (Heq : formatTime seconds
                = (twoDigits (minutes seconds) ++ ":"
                   ++ twoDigits (wholeSeconds seconds)
                   ++ "." ++ twoDigits (hundredths seconds))%string).
  { unfold formatTime. rewrite !padStart_twoDigits by lia. reflexivity. }
  split; [exact Heq|]. rewrite Heq. reflexivity.
Qed.

Lemma formatTime_shape_witness :
  formatTime (1001 # 8) = "02:05.12"%string /\
  String.length (formatTime (1001 # 8)) = 8%nat.
Proof.
  apply (formatTime_shape (1001 # 8)); [discriminate | reflexivity].
Defined.

Lemma split_no_comma (s : string) :
  hasComma s = false -> split s = [s].
Proof.
  induction s as [|c rest IH]; cbn [hasComma split]; [reflexivity|].
  destruct (Ascii.eqb c ","); cbn [orb]; [discriminate|].
  intros Hrest. rewrite (IH Hrest). reflexivity.
Qed.

Lemma split_at_first_comma (prefix rest : string) :
  hasComma prefix = false ->
  split (prefix ++ String "," rest) = prefix :: split rest.
Proof.
  induction prefix as [|c prefix IH]; cbn [hasComma append split].
  - intros _. reflexivity.
  - destruct (Ascii.eqb c ","); cbn [orb]; [discriminate|].
    intros Hprefix. rewrite (IH Hprefix). reflexivity.
Qed.

(** From a data URL [prefix,payload] whose prefix and payload hold no
    comma the helper returns the payload; from a text without a comma it
    returns [undefined]. *)
Theorem base64Data_strips_prefix :
  (forall prefix payload : string,
     hasComma prefix = false ->
     hasComma payload = false ->
     base64Data (prefix ++ String "," payload) = Some payload) /\
  (forall s : string, hasComma s = false -> base64Data s = None).
Proof.
  split.
  - intros prefix payload Hprefix Hpayload. unfold base64Data.
    rewrite (split_at_first_comma _ _ Hprefix), (split_no_comma _ Hpayload).
    reflexivity.
  - intros s Hs. unfold base64Data. rewrite (split_no_comma _ Hs). reflexivity.
Qed.

Lemma base64Data_strips_prefix_witness :
  base64Data "data:audio/wav;base64,UklGRg=="%string = Some "UklGRg=="%string.
Proof.
  exact (proj1 base64Data_strips_prefix
           "data:audio/wav;base64"%string "UklGRg=="%string eq_refl eq_refl).
Defined.

End FormatProperties.

(* ------------------------------------------------------------------------- *)
(** * Properties of the analysis pipeline *)

Section AnalysisProperties.

Import Analysis.

Lemma copyLength_bounds (buffer : AudioBuffer.t) :
  0 <= copyLength buffer /\
  copyLength buffer <= Z.of_nat (AudioBuffer.length buffer) /\
  copyLength buffer <= 30 * Zpos (AudioBuffer.sampleRate buffer).
Proof.
  unfold copyLength, copyDuration.
  set (rate := inject_Z (Zpos (AudioBuffer.sampleRate buffer))).
  assert (Hrate : (0 < rate)%Q) by reflexivity.
  assert (Hdur : (AudioBuffer.duration buffer * rate
                  == inject_Z (Z.of_nat (AudioBuffer.length buffer)))%Q).
  { unfold AudioBuffer.duration, rate, Qeq, Qmult, inject_Z. cbn [Qnum Qden]. lia. }
  assert (Hnonneg : (0 <= AudioBuffer.duration buffer)%Q)
    by (unfold AudioBuffer.duration, Qle; cbn [Qnum Qden]; lia).
  pose proof (Q.le_min_l 30 (AudioBuffer.duration buffer)) as H30.
  pose proof (Q.le_min_r 30 (AudioBuffer.duration buffer)) as Hd.
  assert (H0 : (0 <= Qmin 30 (AudioBuffer.duration buffer))%Q)
    by (apply Q.min_glb; [discriminate | exact Hnonneg]).
  set (c := Qmin 30 (AudioBuffer.duration buffer)) in *.
  split; [|split].
  - change 0 with (Qfloor 0). apply Qfloor_resp_le. nra.
  - rewrite <- (Qfloor_Z (Z.of_nat (AudioBuffer.length buffer))).
    apply Qfloor_resp_le. rewrite <- Hdur. nra.
  - rewrite <- (Qfloor_Z (30 * Zpos (AudioBuffer.sampleRate buffer))).
    apply Qfloor_resp_le. rewrite inject_Z_mult. fold rate.
    change (inject_Z 30) with 30%Q. nra.
Qed.

Lemma nth_error_lookup {A : Type} (l : list A) (n : nat) :
  nth_error l n = l !! n.
Proof.
  revert n. induction l as [|a l IH]; intros [|n]; cbn; auto.
Qed.

(** The copy loop, [j] samples in and [r] to go: it never reads outside
    the source and leaves the first [j + r] source samples in front of the
    untouched rest of the target. *)
Lemma copy_spec (sourceData : list Q) :
  forall (r j : nat) (nowBuffering : list Q),
    (j + r <= List.length sourceData)%nat ->
    (j + r <= List.length nowBuffering)%nat ->
    copy r (Z.of_nat j) sourceData nowBuffering
    = Some (take j nowBuffering ++ take r (drop j sourceData)
            ++ drop (j + r) nowBuffering).
Proof.
  induction r as [|r IH]; intros j nowBuffering Hsrc Hnow; cbn [copy].
  - rewrite Nat.add_0_r, take_0. cbn [app]. rewrite take_drop. reflexivity.
  - destruct (lookup_lt_is_Some_2 sourceData j ltac:(lia)) as (x & Hx).
    destruct (lookup_lt_is_Some_2 nowBuffering j ltac:(lia)) as (y & Hy).
    assert (Hidx : index sourceData (Z.of_nat j) = Some x).
    { unfold index. destruct (Z.ltb_spec (Z.of_nat j) 0); [lia|].
      rewrite Nat2Z.id, nth_error_lookup. exact Hx. }
    rewrite Hidx, Nat2Z.id.
    replace (Z.of_nat j + 1) with (Z.of_nat (S j)) by lia.
    rewrite IH by (rewrite ?length_insert; lia).
    f_equal.
    rewrite (take_S_r _ _ x) by (apply list_lookup_insert_eq; lia).
    rewrite take_insert_ge by lia.
    rewrite (drop_S sourceData x j Hx). cbn [take].
    rewrite drop_insert_lt by lia.
    replace (S j + r)%nat with (j + S r)%nat by lia.
    rewrite <- app_assoc. reflexivity.
Qed.

Lemma copyChannels_spec (n : nat) (channels : list (list Q)) :
  Forall (fun channel => (n <= List.length channel)%nat) channels ->
  copyChannels n channels = Some (map (take n) channels).
Proof.
  induction channels as [|sourceData rest IH]; intros Hall; cbn [copyChannels map];
    [reflexivity|].
  apply Forall_cons in Hall. destruct Hall as (Hlen & Hrest).
  pose proof (copy_spec sourceData n 0 (repeat 0%Q n)) as Hcopy.
  change (Z.of_nat 0) with 0 in Hcopy.
  rewrite Hcopy by (rewrite ?repeat_length; lia).
  rewrite (IH Hrest). cbn [Nat.add].
  rewrite take_0, drop_0, (drop_ge (repeat 0%Q n)) by (rewrite repeat_length; lia).
  cbn [app]. rewrite app_nil_r. reflexivity.
Qed.

(** The snippet of a well-formed buffer. *)
Lemma snippetBuffer_spec (buffer : AudioBuffer.t) :
  wellFormed buffer ->
  0 <= copyLength buffer <= Z.of_nat (AudioBuffer.length buffer) /\
  copyLength buffer <= 30 * Zpos (AudioBuffer.sampleRate buffer) /\
  exists snippet,
    snippetBuffer buffer = Some snippet /\
    AudioBuffer.sampleRate snippet = AudioBuffer.sampleRate buffer /\
    Z.of_nat (AudioBuffer.length snippet) = copyLength buffer /\
    AudioBuffer.channels snippet
    = map (take (AudioBuffer.length snippet)) (AudioBuffer.channels buffer) /\
    wellFormed snippet.
Proof.
  intros Hwf.
  destruct (copyLength_bounds buffer) as (H0 & Hle & H30).
  split; [lia|]. split; [exact H30|].
  unfold snippetBuffer.
  rewrite copyChannels_spec.
  - eexists. split; [reflexivity|]. cbn [AudioBuffer.sampleRate AudioBuffer.length
                                          AudioBuffer.channels].
    split; [reflexivity|]. split; [lia|]. split; [reflexivity|].
    unfold wellFormed in *. cbn [AudioBuffer.length AudioBuffer.channels].
    apply Forall_map. eapply Forall_impl; [exact Hwf|].
    cbv beta. intros channel Hlen. rewrite length_take. lia.
  - eapply Forall_impl; [exact Hwf|]. cbv beta. intros channel Hlen. lia.
Qed.

(** For a well-formed buffer the snippet for the report holds, for every
    channel, the first [copyLength] samples, [copyLength] being at most the
    number of frames of the buffer and at most 30 seconds' worth; the copy
    reads no sample outside the source, and the snippet is well-formed with
    the sample rate and channel count of the buffer. *)
Theorem snippetBuffer_is_prefix (buffer : AudioBuffer.t) :
  wellFormed buffer ->
  0 <= copyLength buffer <= Z.of_nat (AudioBuffer.length buffer) /\
  copyLength buffer <= 30 * Zpos (AudioBuffer.sampleRate buffer) /\
  exists snippet,
    snippetBuffer buffer = Some snippet /\
    AudioBuffer.sampleRate snippet = AudioBuffer.sampleRate buffer /\
    Z.of_nat (AudioBuffer.length snippet) = copyLength buffer /\
    AudioBuffer.channels snippet
    = map (take (AudioBuffer.length snippet)) (AudioBuffer.channels buffer) /\
    wellFormed snippet.
Proof. exact (snippetBuffer_spec buffer). Qed.

Lemma snippetBuffer_is_prefix_witness :
  exists snippet,
    snippetBuffer Samples.stereo46 = Some snippet /\
    Z.of_nat (AudioBuffer.length snippet) = copyLength Samples.stereo46 /\
    wellFormed snippet.
Proof.
  destruct (snippetBuffer_is_prefix Samples.stereo46)
    as (_ & _ & snippet & Hrun & _ & Hlen & _ & Hwf).
  - unfold wellFormed. repeat constructor.
  - exists snippet. split; [exact Hrun|]. split; assumption.
Defined.

(** The WAV file sent for the report is produced without an exception and
    has [44 + copyLength * channels * 2] bytes, which is at most
    [44 + 60 * sampleRate * channels]: the header and at most 30 seconds of
    16-bit samples. *)
Theorem snippetWav_size (buffer : AudioBuffer.t) :
  wellFormed buffer ->
  exists bytes,
    snippetWav buffer = Some (Ok bytes) /\
    Z.of_nat (List.length bytes)
    = 44 + copyLength buffer * AudioBuffer.numberOfChannels buffer * 2 /\
    Z.of_nat (List.length bytes)
    <= 44 + 60 * Zpos (AudioBuffer.sampleRate buffer)
            * AudioBuffer.numberOfChannels buffer.
Proof.
  intros Hwf.
  destruct (snippetBuffer_spec buffer Hwf)
    as (H0 & H30 & snippet & Hrun & Hrate & Hlen & Hchannels & _).
  destruct (audioBufferToWav_layout snippet) as (bytes & Hwav & Hsize & _).
  assert (Hcount : AudioBuffer.numberOfChannels snippet
                   = AudioBuffer.numberOfChannels buffer).
  { unfold AudioBuffer.numberOfChannels. rewrite Hchannels, length_map. reflexivity. }
  exists bytes. unfold snippetWav. rewrite Hrun. cbn [option_map].
  rewrite Hwav. split; [reflexivity|].
  rewrite Hsize, Hlen, Hcount. split; [reflexivity|].
  assert (Hn : 0 <= AudioBuffer.numberOfChannels buffer)
    by (unfold AudioBuffer.numberOfChannels; lia).
  nia.
Qed.

Lemma snippetWav_size_witness :
  exists bytes,
    snippetWav Samples.stereo46 = Some (Ok bytes) /\
    Z.of_nat (List.length bytes) = 228.
Proof.
  destruct (snippetWav_size Samples.stereo46) as (bytes & Hrun & Hsize & _).
  - unfold wellFormed. repeat constructor.
  - exists bytes. split; [exact Hrun | exact Hsize].
Defined.

Lemma extractAudioPeaks_zero_duration (buffer1 buffer2 : option AudioBuffer.t)
    (samples : Z) :
  (Qmax (suppliedDuration buffer1) (suppliedDuration buffer2) == 0)%Q ->
  PeakExtractor.extractAudioPeaks buffer1 buffer2 samples = Ok noPeaks.
Proof.
  intros Hzero. rewrite <- duration_supplied in Hzero.
  apply is_zero_true in Hzero.
  unfold PeakExtractor.extractAudioPeaks. rewrite Hzero. reflexivity.
Qed.

(** For two decoded buffers that have a first channel the analysis never
    ends in the error state.  When one of them is not empty it holds
    exactly 500 points, every one at a time from 0 up to, but not
    including, the duration it reports, which is the longer of the two
    durations: all points lie in the range the chart starts with.  When
    both are empty it holds no points. *)
Theorem processFiles_fills_chart (originalBuffer isolatedBuffer : AudioBuffer.t) :
  AudioBuffer.channels originalBuffer <> [] ->
  AudioBuffer.channels isolatedBuffer <> [] ->
  let analysis := processFiles originalBuffer isolatedBuffer in
  error analysis = None /\
  isProcessing analysis = false /\
  ((0 < AudioBuffer.duration originalBuffer
    \/ 0 < AudioBuffer.duration isolatedBuffer)%Q ->
   duration analysis
   = Qmax (AudioBuffer.duration originalBuffer) (AudioBuffer.duration isolatedBuffer) /\
   List.length (data analysis) = 500%nat /\
   (forall p : AudioDataPoint,
      In p (data analysis) ->
      WaveformGraph.inside (duration analysis) (time p, time p)
      /\ (time p < duration analysis)%Q)) /\
  ((AudioBuffer.duration originalBuffer == 0)%Q ->
   (AudioBuffer.duration isolatedBuffer == 0)%Q ->
   data analysis = []).
Proof.
  intros H1 H2 analysis. unfold analysis, processFiles.
  set (d := Qmax (AudioBuffer.duration originalBuffer)
                 (AudioBuffer.duration isolatedBuffer)).
  destruct (Qlt_le_dec 0 d) as [Hpos | Hzero].
  - destruct (extractAudioPeaks_points (Some originalBuffer) (Some isolatedBuffer)
                500 H1 H2) as (out & -> & Hlen & Htime & _ & Hbelow);
      cbn [suppliedDuration]; [apply Q.max_lt_iff; exact Hpos | lia |].
    cbn [suppliedDuration] in Htime, Hbelow.
    fold d in Htime, Hbelow.
    cbn [error isProcessing data duration].
    split; [reflexivity|]. split; [reflexivity|]. split.
    + intros _. split; [reflexivity|]. split; [lia|].
      intros p Hin. split; [|apply Hbelow; exact Hin].
      unfold WaveformGraph.inside. cbn [fst snd].
      pose proof (Hbelow p Hin) as Hlt.
      apply In_nth_error in Hin. destruct Hin as (k & Hk).
      assert (Hklt : (k < List.length (points out))%nat)
        by (apply nth_error_Some; congruence).
      pose proof (slot_nonneg d 500 (Z.of_nat k) Hpos ltac:(lia)) as Hge.
      rewrite <- (Htime k p Hk) in Hge.
      split; [exact Hge|]. split; [apply Qle_refl | apply Qlt_le_weak; exact Hlt].
    + intros Hz1 Hz2. exfalso.
      assert (Hd : (d == 0)%Q) by (unfold d; rewrite Hz1, Hz2; reflexivity).
      rewrite Hd in Hpos. exact (Qlt_irrefl _ Hpos).
  - pose proof (duration_nonneg (Some originalBuffer) (Some isolatedBuffer)) as Hge.
    cbn [suppliedDuration] in Hge. fold d in Hge.
    assert (Hd : (d == 0)%Q) by (apply Qle_antisym; assumption).
    rewrite (extractAudioPeaks_zero_duration
               (Some originalBuffer) (Some isolatedBuffer) 500 Hd).
    cbn [error isProcessing data duration noPeaks points].
    split; [reflexivity|]. split; [reflexivity|]. split.
    + intros Hsome. exfalso. apply Q.max_lt_iff in Hsome. fold d in Hsome.
      rewrite Hd in Hsome. exact (Qlt_irrefl _ Hsome).
    + intros _ _. reflexivity.
Qed.

Lemma processFiles_fills_chart_witness :
  error (processFiles Samples.tenSeconds Samples.eightSeconds) = None /\
  List.length (data (processFiles Samples.tenSeconds Samples.eightSeconds))
  = 500%nat.
Proof.
  destruct (processFiles_fills_chart Samples.tenSeconds Samples.eightSeconds)
    as (Herr & _ & Hfull & _); [discriminate | discriminate |].
  split; [exact Herr|].
  exact (proj1 (proj2 (Hfull (or_introl eq_refl)))).
Defined.

End AnalysisProperties.

(* ------------------------------------------------------------------------- *)
(** * Further properties of the WAV encoder *)

Section WavDataProperties.

Import WavEncoder WavData.

Lemma clamp_range (x : Q) : (-1 <= clamp x)%Q /\ (clamp x <= 1)%Q.
Proof.
  unfold clamp. split.
  - apply Q.le_max_l.
  - apply Q.max_lub; [discriminate | apply Q.le_min_l].
Qed.

(** Truncation keeps a number between two integers on either side of 0. *)
Lemma trunc_between (x : Q) (a b : Z) :
  a <= 0 <= b -> (inject_Z a <= x)%Q -> (x <= inject_Z b)%Q ->
  a <= JsNumber.trunc x <= b.
Proof.
  destruct x as [n d]. unfold Qle, JsNumber.trunc. cbn [Qnum Qden inject_Z].
  intros Hab Ha Hb. split.
  - apply Z.quot_le_lower_bound; lia.
  - apply Z.quot_le_upper_bound; lia.
Qed.

Lemma toInt32_small (x : Q) :
  - 2 ^ 31 <= JsNumber.trunc x < 2 ^ 31 -> JsNumber.toInt32 x = JsNumber.trunc x.
Proof.
  intros Hrange. unfold JsNumber.toInt32.
  rewrite Z.mod_small by lia. lia.
Qed.

(** Every encoded sample fits a signed 16-bit integer, whatever the input;
    a sample of 1 or more is stored as 32767, a sample of -1 or less as
    -32768, and 0 as 0. *)
Theorem encoded_sample_fits_int16 (x : Q) :
  -32768 <= scale (clamp x) <= 32767 /\
  ((1 <= x)%Q -> scale (clamp x) = 32767) /\
  ((x <= -1)%Q -> scale (clamp x) = -32768) /\
  ((x == 0)%Q -> scale (clamp x) = 0).
Proof.
  destruct (clamp_range x) as (Hlo & Hhi).
  assert (Hscaled : forall y : Q,
             (-1 <= y)%Q -> (y <= 1)%Q ->
             scale y
             = JsNumber.trunc (if JsNumber.lt ((1 # 2) + y) 0
                               then y * 32768 else y * 32767)%Q
             /\ -32768 <= scale y <= 32767).
  { intros y Hy0 Hy1. unfold scale.
    assert (Hr : -32768 <= JsNumber.trunc
                             (if JsNumber.lt ((1 # 2) + y) 0
                              then y * 32768 else y * 32767)%Q <= 32767).
    { destruct (JsNumber.lt ((1 # 2) + y) 0) eqn:Hcmp.
      - apply lt_true in Hcmp.
        assert (Hb : -32768 <= JsNumber.trunc (y * 32768) <= 0)
          by (apply trunc_between; [lia | |];
              [change (inject_Z (-32768)) with (-32768)%Q
              |change (inject_Z 0) with 0%Q]; lra).
        lia.
      - apply gt_false in Hcmp.
        assert (Hb : -32768 <= JsNumber.trunc (y * 32767) <= 32767)
          by (apply trunc_between; [lia | |];
              [change (inject_Z (-32768)) with (-32768)%Q
              |change (inject_Z 32767) with 32767%Q]; lra).
        lia. }
    rewrite toInt32_small by lia. split; [reflexivity | exact Hr]. }
  destruct (Hscaled (clamp x) Hlo Hhi) as (Heq & Hrange).
  split; [exact Hrange|].
  assert (Hexact : forall (y : Q) (z : Z),
             (y == inject_Z z)%Q -> JsNumber.trunc y = z).
  { intros [n d] z. unfold Qeq, JsNumber.trunc. cbn [Qnum Qden inject_Z].
    intros Hy. replace n with (z * Zpos d) by lia. apply Z.quot_mul. lia. }
  split; [|split].
  - intros Hx. rewrite Heq.
    assert (Hc : (clamp x == 1)%Q).
    { unfold clamp. rewrite (Q.min_l 1 x Hx). reflexivity. }
    destruct (JsNumber.lt ((1 # 2) + clamp x) 0) eqn:Hcmp.
    + apply lt_true in Hcmp. lra.
    + apply Hexact. rewrite Hc. reflexivity.
  - intros Hx. rewrite Heq.
    assert (Hc : (clamp x == -1)%Q).
    { unfold clamp. rewrite (Q.min_r 1 x) by lra.
      apply Q.max_l. exact Hx. }
    destruct (JsNumber.lt ((1 # 2) + clamp x) 0) eqn:Hcmp.
    + apply Hexact. rewrite Hc. reflexivity.
    + apply gt_false in Hcmp. lra.
  - intros Hx. rewrite Heq.
    assert (Hc : (clamp x == 0)%Q).
    { unfold clamp. rewrite (Q.min_r 1 x) by lra.
      rewrite Hx. reflexivity. }
    destruct (JsNumber.lt ((1 # 2) + clamp x) 0) eqn:Hcmp.
    + apply lt_true in Hcmp. lra.
    + apply Hexact. rewrite Hc. reflexivity.
Qed.

Lemma encoded_sample_fits_int16_witness :
  scale (clamp (7 # 4)) = 32767 /\ scale (clamp (-(7 # 4))) = -32768.
Proof.
  split.
  - apply (proj1 (proj2 (encoded_sample_fits_int16 (7 # 4)))). discriminate.
  - apply (proj1 (proj2 (proj2 (encoded_sample_fits_int16 (-(7 # 4)))))).
    discriminate.
Defined.

(** For every buffer the encoder returns without an exception exactly
    [44 + frames * channels * 2] bytes, and the first 44 are the canonical
    header: the four tags, the two lengths, PCM format 1, the channel
    count, the sample rate, the byte rate, the block size and 16 bits per
    sample, each little-endian and wrapped to its width. *)
Theorem audioBufferToWav_length_and_header (buffer : AudioBuffer.t) :
  exists bytes,
    audioBufferToWav buffer = Ok bytes /\
    Z.of_nat (List.length bytes)
    = 44 + Z.of_nat (AudioBuffer.length buffer)
           * AudioBuffer.numberOfChannels buffer * 2 /\
    take 44 bytes = WavSpec.header buffer.
Proof. exact (audioBufferToWav_layout buffer). Qed.

(** One pass of the inner loop appends the bytes of frame [p] to what has
    been written. *)
Lemma interleave_appends (p : nat) (channels : list (list Q)) :
  forall (written tail : list Z) (o : Z),
    Z.of_nat (List.length written) = 44 + o ->
    (2 * List.length channels <= List.length tail)%nat ->
    exists v',
      interleave channels
        {| view := written ++ tail; offset := o; pos := Z.of_nat p |} = Ok v' /\
      view v' = (written ++ frameBytes channels p)
                ++ drop (2 * List.length channels) tail /\
      offset v' = o + 2 * Z.of_nat (List.length channels) /\
      pos v' = Z.of_nat p.
Proof.
  induction channels as [|channel rest IH]; intros written tail o Hcursor Hroom;
    cbn [interleave frameBytes flat_map List.length].
  - eexists. split; [reflexivity|]. cbn [view offset pos].
    rewrite app_nil_r, drop_0. repeat split. lia.
  - cbn [view offset pos]. unfold DataView.setInt16.
    rewrite <- Hcursor.
    cbn [List.length] in Hroom.
    rewrite write_at_cursor by (cbn [DataView.le_bytes List.length]; lia).
    cbn [bind DataView.le_bytes List.length].
    set (bs := [encode (index channel (Z.of_nat p)) mod 256;
                encode (index channel (Z.of_nat p)) / 256 mod 256]).
    destruct (IH (written ++ bs) (drop 2 tail) (o + 2)) as (v' & Hrun & Hview & Hoff & Hpos).
    + rewrite length_app. unfold bs. cbn [List.length]. lia.
    + rewrite length_drop. lia.
    + exists v'. split; [exact Hrun|]. split; [|split; [lia | exact Hpos]].
      rewrite Hview, drop_drop. fold (frameBytes rest p).
      rewrite <- !app_assoc. cbn [app].
      replace (2 + 2 * List.length rest)%nat with (2 * S (List.length rest))%nat by lia.
      reflexivity.
Qed.

(** The frame loop appends the bytes of the frames from the cursor value
    on, one after the other. *)
Lemma frames_appends (channels : list (list Q)) (length : nat) :
  forall (budget p : nat) (written tail : list Z) (o : Z),
    Z.of_nat (List.length written) = 44 + o ->
    (length - p <= budget)%nat ->
    (2 * List.length channels * (length - p) <= List.length tail)%nat ->
    exists v',
      frames budget channels (Z.of_nat length)
        {| view := written ++ tail; offset := o; pos := Z.of_nat p |} = Ok v' /\
      view v' = (written ++ flat_map (frameBytes channels) (seq p (length - p)))
                ++ drop (2 * List.length channels * (length - p)) tail.
Proof.
  induction budget as [|budget IH]; intros p written tail o Hcursor Hbudget Hroom;
    cbn [frames view offset pos];
    destruct (Z.ltb_spec (Z.of_nat p) (Z.of_nat length)) as [Hlt | Hge].
  - lia.
  - replace (length - p)%nat with 0%nat by lia.
    eexists. split; [reflexivity|]. cbn [view seq flat_map].
    rewrite Nat.mul_0_r, app_nil_r, drop_0. reflexivity.
  - assert (Hcount : (length - p = S (length - S p))%nat) by lia.
    rewrite Hcount in Hroom |- *.
    destruct (interleave_appends p channels written tail o Hcursor)
      as (v1 & -> & Hview1 & Hoff1 & Hpos1); [nia|].
    cbn [bind]. rewrite Hview1, Hoff1, Hpos1.
    replace (Z.of_nat p + 1) with (Z.of_nat (S p)) by lia.
    destruct (IH (S p) (written ++ frameBytes channels p)
                 (drop (2 * List.length channels) tail)
                 (o + 2 * Z.of_nat (List.length channels)))
      as (v' & Hrun & Hview).
    + rewrite length_app. unfold frameBytes.
      assert (Hbytes : forall cs : list (list Q),
                 List.length
                   (flat_map (fun channel =>
                      DataView.le_bytes 2 (encode (index channel (Z.of_nat p)))) cs)
                 = (2 * List.length cs)%nat).
      { induction cs as [|c cs IHcs]; [reflexivity|].
        cbn [flat_map]. rewrite length_app, IHcs.
        cbn [DataView.le_bytes List.length]. lia. }
      rewrite Hbytes. lia.
    + lia.
    + rewrite length_drop. nia.
    + exists v'. split; [exact Hrun|].
      rewrite Hview, drop_drop. cbn [seq flat_map].
      rewrite <- !app_assoc.
      replace (2 * List.length channels
               + 2 * List.length channels * (length - S p))%nat
        with (2 * List.length channels * S (length - S p))%nat by lia.
      reflexivity.
  - replace (length - p)%nat with 0%nat by lia.
    eexists. split; [reflexivity|]. cbn [view seq flat_map].
    rewrite Nat.mul_0_r, app_nil_r, drop_0. reflexivity.
Qed.

Lemma drop_repeat_zero (n k : nat) :
  drop k (repeat 0 n) = repeat 0 (n - k).
Proof.
  revert k. induction n as [|n IH]; intros [|k]; cbn [repeat drop Nat.sub];
    try reflexivity.
  apply IH.
Qed.

(** For every buffer the bytes after the header are the encoded frames
    from index 44 on, in order, followed by zeros up to the declared data
    length: the first 44 frames (or all of them, when the buffer has fewer)
    are not encoded, and as many frames' worth of bytes at the end stay
    zero. *)
Theorem audioBufferToWav_bytes (buffer : AudioBuffer.t) :
  audioBufferToWav buffer
  = Ok (WavSpec.header buffer
        ++ flat_map (frameBytes (AudioBuffer.channels buffer)) (visitedFrames buffer)
        ++ repeat 0 (2 * List.length (AudioBuffer.channels buffer)
                     * Nat.min (AudioBuffer.length buffer) 44)).
Proof.
  unfold audioBufferToWav.
  set (L := AudioBuffer.length buffer).
  set (channels := AudioBuffer.channels buffer).
  assert (Hdata : Z.to_nat (Z.of_nat L * AudioBuffer.numberOfChannels buffer * 2 + 44)
                  = (44 + 2 * List.length channels * L)%nat).
  { unfold AudioBuffer.numberOfChannels. fold channels. nia. }
  rewrite Hdata, repeat_app.
  fold L. rewrite (writeHeader_spec buffer). cbn [bind].
  destruct (frames_appends channels L L 44 (WavSpec.header buffer)
              (repeat 0 (2 * List.length channels * L)) 0)
    as (v' & Hrun & Hview).
  - reflexivity.
  - lia.
  - rewrite repeat_length. nia.
  - change (Z.of_nat 44) with 44 in Hrun. rewrite Hrun. cbn [bind]. f_equal.
    rewrite Hview, drop_repeat_zero, <- app_assoc. unfold visitedFrames. fold L.
    f_equal. f_equal. f_equal. nia.
Qed.

End WavDataProperties.

(* ------------------------------------------------------------------------- *)
(** * Further properties of the peak extractor *)

Section PeakBoundProperties.

Import PeakExtractor.

(** The reads of a scan are [stride] apart and stay below [endSample]. *)
Lemma scan_read_count (channelData : list Q) (endSample stride : Z) :
  1 <= stride ->
  forall (budget : nat) (i : Z) (max : Q) (reads : list Z) (m : Q) (all : list Z),
    scan budget channelData endSample stride i max reads = Ok (m, all) ->
    exists new,
      all = new ++ reads /\
      Z.of_nat (List.length new) * stride <= Z.max 0 (endSample - i + stride - 1).
Proof.
  intros Hstride.
  induction budget as [|budget IH]; intros i max reads m all; cbn [scan];
    destruct (Z.ltb_spec i endSample) as [He|He];
    destruct (Z.ltb_spec i (Z.of_nat (List.length channelData))) as [Hl|Hl];
    cbn [andb]; try discriminate;
    try (intros [= <- <-]; exists []; split; [reflexivity | cbn [List.length]; lia]).
  intros Hrun. destruct (IH _ _ _ _ _ Hrun) as (new & -> & Hcount).
  exists (new ++ [i]). split; [rewrite <- app_assoc; reflexivity|].
  rewrite length_app. cbn [List.length]. nia.
Qed.

Lemma stride_covers_window (startSample endSample : Z) :
  endSample - startSample <= 1000 * stride startSample endSample.
Proof.
  unfold stride, JsNumber.or_elseZ.
  set (x := (inject_Z (endSample - startSample) / 1000)%Q).
  pose proof (Qle_ceiling x) as Hc.
  assert (Hx : (inject_Z (endSample - startSample) == x * 1000)%Q)
    by (unfold x; field).
  assert (Hle : (inject_Z (endSample - startSample)
                 <= inject_Z (1000 * Qceiling x))%Q).
  { rewrite inject_Z_mult, Hx. change (inject_Z 1000) with 1000%Q. lra. }
  rewrite <- Zle_Qle in Hle.
  destruct (Z.eqb_spec (Qceiling x) 0); lia.
Qed.

Lemma scan_empty_window (channelData : list Q) (endSample stride : Z)
    (budget : nat) (i : Z) (max : Q) (reads : list Z) :
  endSample <= i ->
  scan budget channelData endSample stride i max reads = Ok (max, reads).
Proof.
  intros Hle.
  destruct budget; cbn [scan];
    destruct (Z.ltb_spec i endSample); try lia; reflexivity.
Qed.

(** However long the window, [getPeak] looks at no more than 1000 samples
    of the channel. *)
Theorem getPeak_reads_at_most_1000 (buffer : AudioBuffer.t)
    (startTime windowSize : Q) (m : Q) (reads : list Z) :
  getPeak_traced buffer startTime windowSize = Ok (m, reads) ->
  (List.length reads <= 1000)%nat.
Proof.
  unfold getPeak_traced.
  destruct (AudioBuffer.getChannelData buffer 0) as [channelData|];
    cbn [bind]; [|discriminate].
  set (s := startSample buffer startTime).
  set (e := endSample buffer startTime windowSize).
  destruct (Z_lt_le_dec s e) as [Hlt | Hge].
  - intros Hrun.
    pose proof (stride_positive s e Hlt) as Hpos.
    pose proof (stride_covers_window s e) as Hcover.
    destruct (scan_read_count channelData e (stride s e) Hpos _ _ _ _ _ _ Hrun)
      as (new & -> & Hcount).
    rewrite app_nil_r. nia.
  - rewrite scan_empty_window by exact Hge.
    intros [= <- <-]. cbn [List.length]. lia.
Qed.

Lemma getPeak_reads_at_most_1000_witness :
  exists m reads,
    getPeak_traced Samples.silence64 0 64 = Ok (m, reads) /\
    (List.length reads <= 1000)%nat.
Proof.
  eexists. eexists. split; [vm_compute; reflexivity|].
  eapply (getPeak_reads_at_most_1000 Samples.silence64 0 64).
  vm_compute. reflexivity.
Defined.

(** The result of a scan is the running maximum it started with or the
    magnitude of a sample it read, and no read sample is larger. *)
Lemma scan_max (channelData : list Q) (endSample stride : Z) :
  forall (budget : nat) (i : Z) (max : Q) (reads : list Z) (m : Q) (all : list Z),
    scan budget channelData endSample stride i max reads = Ok (m, all) ->
    (max <= m)%Q /\
    exists new,
      all = new ++ reads /\
      (forall (j : Z) (x : Q),
         In j new -> index channelData j = Some x -> (Qabs x <= m)%Q) /\
      (m = max \/
       exists (j : Z) (x : Q),
         In j new /\ index channelData j = Some x /\ m = Qabs x).
Proof.
  induction budget as [|budget IH]; intros i max reads m all; cbn [scan];
    destruct ((i <? endSample) && (i <? Z.of_nat (List.length channelData)));
    try discriminate;
    try (intros [= <- <-]; split; [apply Qle_refl|];
         exists []; split; [reflexivity|]; split; [intros j x []|left; reflexivity]).
  intros Hrun. destruct (IH _ _ _ _ _ Hrun) as (Hle & new & -> & Hall & Hsrc).
  destruct (index channelData i) as [x|] eqn:Hx.
  - destruct (JsNumber.gt (Qabs x) max) eqn:Hgt.
    + apply gt_true in Hgt. split; [lra|].
      exists (new ++ [i]). split; [rewrite <- app_assoc; reflexivity|]. split.
      * intros j y Hin Hy. apply in_app_or in Hin. destruct Hin as [Hin | [<- | []]].
        -- exact (Hall j y Hin Hy).
        -- rewrite Hx in Hy. injection Hy as <-. exact Hle.
      * right. destruct Hsrc as [-> | (j & y & Hin & Hy & ->)].
        -- exists i, x. split; [apply in_or_app; right; left; reflexivity|].
           split; [exact Hx | reflexivity].
        -- exists j, y. split; [apply in_or_app; left; exact Hin|].
           split; [exact Hy | reflexivity].
    + apply gt_false in Hgt. split; [exact Hle|].
      exists (new ++ [i]). split; [rewrite <- app_assoc; reflexivity|]. split.
      * intros j y Hin Hy. apply in_app_or in Hin. destruct Hin as [Hin | [<- | []]].
        -- exact (Hall j y Hin Hy).
        -- rewrite Hx in Hy. injection Hy as <-. lra.
      * destruct Hsrc as [-> | (j & y & Hin & Hy & ->)]; [left; reflexivity|].
        right. exists j, y. split; [apply in_or_app; left; exact Hin|].
        split; [exact Hy | reflexivity].
  - split; [exact Hle|].
    exists (new ++ [i]). split; [rewrite <- app_assoc; reflexivity|]. split.
    + intros j y Hin Hy. apply in_app_or in Hin. destruct Hin as [Hin | [<- | []]].
      * exact (Hall j y Hin Hy).
      * rewrite Hx in Hy. discriminate.
    + destruct Hsrc as [-> | (j & y & Hin & Hy & ->)]; [left; reflexivity|].
      right. exists j, y. split; [apply in_or_app; left; exact Hin|].
      split; [exact Hy | reflexivity].
Qed.

(** With a stride of 1 the scan reads every index from its start up to the
    end of the window or of the channel. *)
Lemma scan_covers (channelData : list Q) (endSample : Z) :
  forall (budget : nat) (i : Z) (max : Q) (reads : list Z) (m : Q) (all : list Z),
    scan budget channelData endSample 1 i max reads = Ok (m, all) ->
    forall j : Z,
      i <= j -> j < endSample -> j < Z.of_nat (List.length channelData) ->
      In j all.
Proof.
  induction budget as [|budget IH]; intros i max reads m all; cbn [scan];
    destruct (Z.ltb_spec i endSample) as [He|He];
    destruct (Z.ltb_spec i (Z.of_nat (List.length channelData))) as [Hl|Hl];
    cbn [andb]; try discriminate;
    try (intros _ j; lia).
  intros Hrun j Hij Hje Hjl.
  destruct (Z.eq_dec i j) as [<- | Hne].
  - destruct (scan_max _ _ _ _ _ _ _ _ _ Hrun) as (_ & new & -> & _).
    apply in_or_app. right. left. reflexivity.
  - apply (IH _ _ _ _ _ Hrun j); lia.
Qed.

Lemma stride_small_window (startSample endSample : Z) :
  endSample - startSample <= 1000 -> startSample < endSample ->
  stride startSample endSample = 1.
Proof.
  intros Hsmall Hlt.
  pose proof (stride_positive startSample endSample Hlt) as Hpos.
  unfold stride, JsNumber.or_elseZ in *.
  set (x := (inject_Z (endSample - startSample) / 1000)%Q) in *.
  assert (Hx : (x <= inject_Z 1)%Q).
  { unfold x. apply Qle_shift_div_r; [reflexivity|].
    change (inject_Z 1 * 1000)%Q with (inject_Z 1000). rewrite <- Zle_Qle. lia. }
  pose proof (Qceiling_resp_le _ _ Hx) as Hc. rewrite Qceiling_Z in Hc.
  destruct (Z.eqb_spec (Qceiling x) 0); lia.
Qed.

(** The peak of a window is never negative; it is 0 or the magnitude of a
    sample read from the first channel, and no sample read is larger.  For
    a window of at most 1000 samples every sample of the window that the
    channel has is read, so the peak is the exact one. *)
Theorem getPeak_is_largest_read (buffer : AudioBuffer.t)
    (startTime windowSize : Q) (channelData : list Q) (m : Q) (reads : list Z) :
  AudioBuffer.getChannelData buffer 0 = Ok channelData ->
  getPeak_traced buffer startTime windowSize = Ok (m, reads) ->
  (0 <= m)%Q /\
  (forall (j : Z) (x : Q),
     In j reads -> index channelData j = Some x -> (Qabs x <= m)%Q) /\
  (m = 0%Q \/
   exists (j : Z) (x : Q),
     In j reads /\ index channelData j = Some x /\ m = Qabs x) /\
  (endSample buffer startTime windowSize - startSample buffer startTime <= 1000 ->
   forall j : Z,
     startSample buffer startTime <= j ->
     j < endSample buffer startTime windowSize ->
     j < Z.of_nat (List.length channelData) ->
     In j reads).
Proof.
  intros Hchannel. unfold getPeak_traced. rewrite Hchannel. cbn [bind].
  set (s := startSample buffer startTime).
  set (e := endSample buffer startTime windowSize).
  intros Hrun.
  destruct (scan_max _ _ _ _ _ _ _ _ _ Hrun) as (H0 & new & Hall & Hle & Hsrc).
  rewrite app_nil_r in Hall. subst new.
  split; [exact H0|]. split; [exact Hle|]. split; [exact Hsrc|].
  intros Hsmall j Hsj Hje Hjl.
  rewrite (stride_small_window s e Hsmall ltac:(lia)) in Hrun.
  exact (scan_covers _ _ _ _ _ _ _ _ Hrun j Hsj Hje Hjl).
Qed.

Lemma getPeak_is_largest_read_witness :
  exists m reads,
    getPeak_traced Samples.tenSeconds 2 2 = Ok (m, reads) /\
    (0 <= m)%Q /\ In 2 reads /\ In 3 reads.
Proof.
  destruct (getPeak_traced Samples.tenSeconds 2 2) as [[m reads]|] eqn:Hrun;
    [|discriminate].
  destruct (getPeak_is_largest_read Samples.tenSeconds 2 2
              [0; 1 # 2; -(3 # 4); 0; 0; 1 # 4; 0; 0; 0; 1 # 8]%Q m reads
              eq_refl Hrun) as (H0 & _ & _ & Hall).
  exists m, reads. split; [reflexivity|]. split; [exact H0|].
  split; apply Hall; vm_compute; first [reflexivity | discriminate].
Defined.

(** ** The peak regions mark the loudest points *)

Lemma peakOf_nonneg (buffer : option AudioBuffer.t) (time step m : Q) :
  peakOf buffer time step = Ok m -> (0 <= m)%Q.
Proof.
  destruct buffer as [b|]; cbn [peakOf]; [|intros [= <-]; apply Qle_refl].
  unfold getPeak, getPeak_traced.
  destruct (AudioBuffer.getChannelData b 0) as [channelData|]; cbn [bind];
    [|discriminate].
  match goal with
  | |- context [scan ?n ?c ?e ?s ?i ?mx ?r] =>
      destruct (scan n c e s i mx r) as [[m' reads]|] eqn:Hrun;
      cbn [bind fst]; [|discriminate]
  end.
  intros [= <-]. exact (proj1 (scan_max _ _ _ _ _ _ _ _ _ Hrun)).
Qed.

Lemma tracks_step (amplitudeOf : AudioDataPoint -> Q)
    (data : list AudioDataPoint) (maxAmplitude maxTime : Q) (p : AudioDataPoint) :
  tracks amplitudeOf data maxAmplitude maxTime ->
  tracks amplitudeOf (data ++ [p])
    (if JsNumber.gt (amplitudeOf p) maxAmplitude then amplitudeOf p else maxAmplitude)
    (if JsNumber.gt (amplitudeOf p) maxAmplitude then time p else maxTime).
Proof.
  intros (Hall & Hsrc).
  destruct (JsNumber.gt (amplitudeOf p) maxAmplitude) eqn:Hgt.
  - apply gt_true in Hgt. split.
    + intros q Hin. apply in_app_or in Hin. destruct Hin as [Hin | [<- | []]].
      * pose proof (Hall q Hin). lra.
      * apply Qle_refl.
    + right. exists p. split; [apply in_or_app; right; left; reflexivity|].
      split; reflexivity.
  - apply gt_false in Hgt. split.
    + intros q Hin. apply in_app_or in Hin. destruct Hin as [Hin | [<- | []]].
      * exact (Hall q Hin).
      * exact Hgt.
    + destruct Hsrc as [Hzero | (q & Hin & Ha & Ht)]; [left; exact Hzero|].
      right. exists q. split; [apply in_or_app; left; exact Hin|].
      split; assumption.
Qed.

Lemma body_tracks (buffer1 buffer2 : option AudioBuffer.t) (step : Q)
    (i : Z) (v v1 : Vars) :
  body buffer1 buffer2 step i v = Ok v1 ->
  tracks original (data v) (maxOriginalAmplitude v) (maxOriginalTime v) ->
  tracks isolated (data v) (maxIsolatedAmplitude v) (maxIsolatedTime v) ->
  tracks original (data v1) (maxOriginalAmplitude v1) (maxOriginalTime v1) /\
  tracks isolated (data v1) (maxIsolatedAmplitude v1) (maxIsolatedTime v1).
Proof.
  unfold body.
  destruct (peakOf buffer1 (inject_Z i * step) step) as [o|]; cbn [bind];
    [|discriminate].
  destruct (peakOf buffer2 (inject_Z i * step) step) as [s|]; cbn [bind];
    [|discriminate].
  intros Hv1 Ho Hs.
  pose proof (tracks_step original _ _ _
                {| time := inject_Z i * step; original := o; isolated := s |} Ho) as Ho'.
  pose proof (tracks_step isolated _ _ _
                {| time := inject_Z i * step; original := o; isolated := s |} Hs) as Hs'.
  cbn [original isolated time] in Ho', Hs'.
  destruct (JsNumber.gt o (maxOriginalAmplitude v));
    destruct (JsNumber.gt s (maxIsolatedAmplitude v));
    injection Hv1 as <-;
    cbn [data maxOriginalAmplitude maxOriginalTime maxIsolatedAmplitude maxIsolatedTime];
    split; assumption.
Qed.

Lemma loop_tracks (buffer1 buffer2 : option AudioBuffer.t) (step : Q) :
  forall (n : nat) (i : Z) (v v' : Vars),
    loop n buffer1 buffer2 step i v = Ok v' ->
    tracks original (data v) (maxOriginalAmplitude v) (maxOriginalTime v) ->
    tracks isolated (data v) (maxIsolatedAmplitude v) (maxIsolatedTime v) ->
    tracks original (data v') (maxOriginalAmplitude v') (maxOriginalTime v') /\
    tracks isolated (data v') (maxIsolatedAmplitude v') (maxIsolatedTime v').
Proof.
  induction n as [|n IH]; intros i v v'; cbn [loop].
  - intros [= <-] Ho Hs. split; assumption.
  - destruct (body buffer1 buffer2 step i v) as [v1|] eqn:Hbody; cbn [bind];
      [|discriminate].
    intros Hloop Ho Hs.
    destruct (body_tracks _ _ _ _ _ _ Hbody Ho Hs) as (Ho1 & Hs1).
    exact (IH _ _ _ Hloop Ho1 Hs1).
Qed.

Lemma region_contains (buffer : option AudioBuffer.t) (d t a : Q) (r : PeakRegion) :
  (0 <= t)%Q -> (t <= d)%Q ->
  region buffer d (Qmin (d * (1 # 10)) 5) t a = Some r ->
  amplitude r = a /\ (start r <= t)%Q /\ (t <= end_ r)%Q.
Proof.
  intros Ht0 Htd. destruct buffer as [b|]; cbn [region]; [|discriminate].
  intros [= <-]. cbn [start end_ amplitude].
  assert (Hw : (0 <= Qmin (d * (1 # 10)) 5)%Q)
    by (apply Q.min_glb; [lra | discriminate]).
  set (w := Qmin (d * (1 # 10)) 5) in *.
  unfold Qdiv. change (/ 2)%Q with (1 # 2)%Q.
  split; [reflexivity|]. split.
  - apply Q.max_lub; lra.
  - apply Q.min_glb; lra.
Qed.

Lemma tracked_region_marks (amplitudeOf : AudioDataPoint -> Q)
    (pts : list AudioDataPoint) (maxAmplitude maxTime d : Q)
    (buffer : option AudioBuffer.t) (r : PeakRegion) :
  tracks amplitudeOf pts maxAmplitude maxTime ->
  (forall p, In p pts -> (0 <= amplitudeOf p)%Q) ->
  (pts <> [] -> exists p0, In p0 pts /\ (time p0 == 0)%Q) ->
  (0 <= maxTime)%Q -> (maxTime <= d)%Q ->
  region buffer d (Qmin (d * (1 # 10)) 5) maxTime maxAmplitude = Some r ->
  (forall p, In p pts -> (amplitudeOf p <= amplitude r)%Q) /\
  (pts <> [] ->
   exists p, In p pts /\ (amplitudeOf p == amplitude r)%Q /\
             (start r <= time p)%Q /\ (time p <= end_ r)%Q).
Proof.
  intros (Hall & Hsrc) Hnonneg Hfirst Ht0 Htd Hr.
  destruct (region_contains _ _ _ _ _ Ht0 Htd Hr) as (Ha & Hs & He).
  split.
  - intros p Hin. rewrite Ha. exact (Hall p Hin).
  - intros Hne. destruct Hsrc as [(Hzero & Htime) | (q & Hin & Hq & Htq)].
    + destruct (Hfirst Hne) as (p0 & Hin0 & Ht).
      exists p0. split; [exact Hin0|].
      pose proof (Hall p0 Hin0) as Hle. pose proof (Hnonneg p0 Hin0) as Hge.
      rewrite Hzero in Hle. rewrite Htime in Hs, He.
      split; [rewrite Ha, Hzero; apply Qle_antisym; assumption|].
      rewrite Ht. split; assumption.
    + exists q. split; [exact Hin|]. rewrite Ha, Hq, Htq.
      split; [reflexivity|]. split; assumption.
Qed.

(** The amplitude of a returned peak region is the largest amplitude of
    its track among the points: no point is louder, and when there are
    points one of them has exactly this amplitude and lies inside the
    region. *)
Theorem peak_region_marks_loudest (buffer1 buffer2 : option AudioBuffer.t)
    (samples : Z) (out : Peaks) :
  extractAudioPeaks buffer1 buffer2 samples = Ok out ->
  (forall r : PeakRegion,
     originalPeakRegion out = Some r ->
     (forall p, In p (points out) -> (original p <= amplitude r)%Q) /\
     (points out <> [] ->
      exists p, In p (points out) /\ (original p == amplitude r)%Q /\
                (start r <= time p)%Q /\ (time p <= end_ r)%Q)) /\
  (forall r : PeakRegion,
     isolatedPeakRegion out = Some r ->
     (forall p, In p (points out) -> (isolated p <= amplitude r)%Q) /\
     (points out <> [] ->
      exists p, In p (points out) /\ (isolated p == amplitude r)%Q /\
                (start r <= time p)%Q /\ (time p <= end_ r)%Q)).
Proof.
  intros Hrun.
  pose proof (duration_supplied buffer1 buffer2) as Hd.
  pose proof (duration_nonneg buffer1 buffer2) as Hnonneg.
  destruct (extractAudioPeaks_cases _ _ _ _ Hrun)
    as [(_ & ->) | (Hnz & v & Hloop & ->)].
  { split; intros r H; discriminate. }
  set (d := Qmax (durationOf buffer1) (durationOf buffer2)) in *.
  assert (Hdpos : (0 < d)%Q).
  { rewrite Hd. apply Qle_lteq in Hnonneg. destruct Hnonneg as [Hlt | Heq];
      [exact Hlt|]. exfalso. apply Hnz. rewrite Hd. symmetry. exact Heq. }
  destruct (loop_spec _ _ _ _ _ _ _ Hloop) as (new & Hdata & _ & Hpts & Hmo & Hmi).
  cbn [init data maxOriginalTime maxIsolatedTime app] in Hdata, Hmo, Hmi.
  destruct (tracked_time_bounded d samples _ Hdpos Hmo) as (Hmo0 & Hmod).
  destruct (tracked_time_bounded d samples _ Hdpos Hmi) as (Hmi0 & Hmid).
  destruct (loop_tracks _ _ _ _ _ _ _ Hloop) as (Ho & Hs);
    [split; [intros q [] | left; split; reflexivity]
    |split; [intros q [] | left; split; reflexivity] |].
  assert (Hfirst : data v <> [] -> exists p0, In p0 (data v) /\ (time p0 == 0)%Q).
  { rewrite Hdata. destruct new as [|p0 rest]; [congruence|]. intros _.
    exists p0. split; [left; reflexivity|].
    destruct (Hpts 0%nat p0 eq_refl) as (Ht & _). rewrite Ht.
    change (inject_Z (0 + Z.of_nat 0)) with 0%Q. apply Qmult_0_l. }
  assert (Hamp : forall p, In p (data v) ->
                   (0 <= original p)%Q /\ (0 <= isolated p)%Q).
  { intros p Hin. rewrite Hdata in Hin.
    apply In_nth_error in Hin. destruct Hin as (k & Hk).
    destruct (Hpts k p Hk) as (_ & Hpo & Hps).
    split; eapply peakOf_nonneg; eassumption. }
  cbn [points originalPeakRegion isolatedPeakRegion].
  split; intros r Hr.
  - exact (tracked_region_marks original _ _ _ _ _ _ Ho
             (fun p Hin => proj1 (Hamp p Hin)) Hfirst Hmo0 Hmod Hr).
  - exact (tracked_region_marks isolated _ _ _ _ _ _ Hs
             (fun p Hin => proj2 (Hamp p Hin)) Hfirst Hmi0 Hmid Hr).
Qed.

Lemma peak_region_marks_loudest_witness :
  exists r p,
    originalPeakRegion Samples.tenEightPeaks = Some r /\
    In p (points Samples.tenEightPeaks) /\
    (original p == amplitude r)%Q /\
    (start r <= time p)%Q /\ (time p <= end_ r)%Q.
Proof.
  assert (Hrun : extractAudioPeaks (Some Samples.tenSeconds)
                   (Some Samples.eightSeconds) 5 = Ok Samples.tenEightPeaks)
    by (vm_compute; reflexivity).
  destruct (originalPeakRegion Samples.tenEightPeaks) as [r|] eqn:Hr;
    [|discriminate].
  destruct (proj2 (proj1 (peak_region_marks_loudest _ _ _ _ Hrun) r Hr))
    as (p & Hin & Hamp & Hs & He); [discriminate|].
  exists r, p. split; [reflexivity|]. repeat split; assumption.
Defined.

End PeakBoundProperties.

(* ------------------------------------------------------------------------- *)
(** * Properties of the upload screen *)

Section AppProperties.

Import App.

Lemma handle_keeps_ready_files (s : State) (e : Event) :
  (isReady s = true -> videoFile s <> None /\ audioFile s <> None) ->
  isReady (handle s e) = true ->
  videoFile (handle s e) <> None /\ audioFile (handle s e) <> None.
Proof.
  destruct s as [[v|] [a|] ready];
    destruct e as [[|f fs] | [|f fs] | |];
    cbn [handle handleFiles setVideoFile setAudioFile handleStart handleReset
         isReady videoFile audioFile];
    intros Hinv Hready; try discriminate; try (split; discriminate);
    destruct (Hinv Hready) as (Hv & Ha); split; congruence.
Qed.

(** Whatever is dropped, selected or clicked, starting from the empty
    upload screen: the comparator is shown exactly when the ready flag is
    set, and then both a video and an audio file are selected. *)
Theorem comparator_needs_both_files (es : list Event) :
  comparatorShown (fold_left handle es initial)
  = isReady (fold_left handle es initial) /\
  (isReady (fold_left handle es initial) = true ->
   videoFile (fold_left handle es initial) <> None
   /\ audioFile (fold_left handle es initial) <> None).
Proof.
  assert (Hinv : isReady (fold_left handle es initial) = true ->
                 videoFile (fold_left handle es initial) <> None
                 /\ audioFile (fold_left handle es initial) <> None).
  { assert (Hinit : isReady initial = true ->
                    videoFile initial <> None /\ audioFile initial <> None)
      by discriminate.
    revert Hinit. generalize initial as s.
    induction es as [|e es IH]; intros s Hs; cbn [fold_left]; [exact Hs|].
    apply IH. apply handle_keeps_ready_files. exact Hs. }
  split; [|exact Hinv].
  unfold comparatorShown.
  destruct (isReady (fold_left handle es initial)); [|reflexivity].
  destruct (Hinv eq_refl) as (Hv & Ha).
  destruct (videoFile (fold_left handle es initial)); [|congruence].
  destruct (audioFile (fold_left handle es initial)); [|congruence].
  reflexivity.
Qed.

Lemma comparator_needs_both_files_witness :
  comparatorShown
    (fold_left handle
       [VideoFiles ["proof.mp4"%string]; Start; AudioFiles []; Start;
        AudioFiles ["track.wav"%string; "other.wav"%string]; Start]
       initial) = true.
Proof.
  rewrite (proj1 (comparator_needs_both_files
                    [VideoFiles ["proof.mp4"%string]; Start; AudioFiles []; Start;
                     AudioFiles ["track.wav"%string; "other.wav"%string]; Start])).
  reflexivity.
Defined.

End AppProperties.
